(** * AgriGPT retrieval-and-routing core: a shallow embedding

    The development follows the modules of [rag/]:
    - [retriever_vector.py]: [embed_query], [fetch_knn], [mmr_rerank], [search];
    - [retriever_graph.py]: [resolve_crop], the [crop_*] query helpers and
      [graph_answer_for_crop];
    - [generator.py]: [_get_pipe], [_gen], [gen_from_passages];
    - [router.py]: [_detect_intent], [_as_bullets], [answer];
    and their callers, [ask] of [api/main.py] and the badge of [ui/app.py].

    Python values are modelled as they are at run time: a [str] is the string
    of its UTF-8 bytes, a row returned by a store is a finite map from column
    names to dynamically typed values, an exception is an explicit result, and
    every call into a collaborator (graph store, vector store, embedding
    model, text generator) is recorded in an event log.  The stores are only
    read, so within one request a collaborator answers the same call in the
    same way each time. *)

From Stdlib Require Import ZArith QArith Qabs Lia Lqa.
From Stdlib Require Import Strings.String Strings.Ascii Numbers.DecimalString.
From Stdlib Require Import Floats.PrimFloat Numbers.Cyclic.Int63.Uint63.
From Stdlib Require Floats.SpecFloat Floats.FloatAxioms.
From stdpp Require Import base option list gmap strings sorting.

Open Scope string_scope.

(** ** Python numbers

    [float] arithmetic is used by [mmr_rerank] only through the operations
    below.  The algorithms are written once over this interface and run on two
    instances: exact rationals and IEEE-754 binary64, which is what CPython
    computes with.  A theorem is stated over the interface where it holds in
    both, and over the rationals otherwise. *)

Class PyFloat (F : Type) := {
  f_of_Z : Z -> F;            (* int -> float coercion *)
  f_mul : F -> F -> F;
  f_sub : F -> F -> F;
  f_div : F -> F -> F;
  f_ltb : F -> F -> bool;     (* [a < b] *)
  f_eqb : F -> F -> bool;     (* [a == b] *)
  f_sentinel : F;             (* the literal -1e9 *)
  f_default_lambda : F;       (* the literal 0.7 *)
}.

Definition Qltb (a b : Q) : bool := negb (Qle_bool b a).

#[global] Instance Q_PyFloat : PyFloat Q := {|
  f_of_Z := inject_Z;
  f_mul := Qmult;
  f_sub := Qminus;
  f_div := Qdiv;
  f_ltb := Qltb;
  f_eqb := Qeq_bool;
  f_sentinel := (-1000000000 # 1)%Q;
  f_default_lambda := (7 # 10)%Q;
|}.

Definition float_of_Z (z : Z) : float :=
  match z with
  | Zneg p => PrimFloat.opp (PrimFloat.of_uint63 (Uint63.of_Z (Zpos p)))
  | _ => PrimFloat.of_uint63 (Uint63.of_Z z)
  end.

#[global] Instance binary64_PyFloat : PyFloat float := {|
  f_of_Z := float_of_Z;
  f_mul := PrimFloat.mul;
  f_sub := PrimFloat.sub;
  f_div := PrimFloat.div;
  f_ltb := PrimFloat.ltb;
  f_eqb := PrimFloat.eqb;
  f_sentinel := (-1000000000)%float;
  f_default_lambda := 0x1.6666666666666p-1%float;   (* 0.7 rounded to nearest *)
|}.

(** ** Exceptions and results *)

Inductive exn : Type :=
  | KeyError          (* d[k] on a missing key *)
  | TypeError         (* an operation applied to a value of the wrong type *)
  | AttributeError    (* a method looked up on a value that has none *)
  | ValueError        (* np.argmax of an empty sequence *)
  | IndexError        (* list index out of range *)
  | StoreError        (* raised by the Neo4j or PostgreSQL driver *)
  | ModelError.       (* raised by the embedding or generation model *)

#[global] Instance exn_eq_dec : EqDecision exn.
Proof. solve_decision. Defined.

(** [res A] is the result of a pure but fallible computation. *)
Definition res (A : Type) : Type := exn + A.

Abbreviation Ok a := (inr a) (only parsing).
Abbreviation Raise e := (inl e) (only parsing).

Definition rbind {A B} (m : res A) (f : A -> res B) : res B :=
  match m with
  | inl e => inl e
  | inr a => f a
  end.

Fixpoint rmapM {A B} (f : A -> res B) (l : list A) : res (list B) :=
  match l with
  | [] => Ok []
  | x :: r => rbind (f x) (fun y => rbind (rmapM f r) (fun ys => Ok (y :: ys)))
  end.

Declare Scope res_scope.
Delimit Scope res_scope with res.
Notation "'try!' x := m 'in' k" := (rbind m (fun x => k))
  (at level 10, x name, m at level 100, k at level 200) : res_scope.

(** ** Python [str] as UTF-8 bytes *)

Module Str.

Definition byte (n : N) : ascii := ascii_of_N n.

(** [chr code]: the UTF-8 encoding of one code point. *)
Definition chr (code : N) : string :=
  if (code <? 0x80)%N then String (byte code) ""
  else if (code <? 0x800)%N then
    String (byte (0xC0 + code / 0x40))
      (String (byte (0x80 + code mod 0x40)) "")
  else if (code <? 0x10000)%N then
    String (byte (0xE0 + code / 0x1000))
      (String (byte (0x80 + (code / 0x40) mod 0x40))
        (String (byte (0x80 + code mod 0x40)) ""))
  else
    String (byte (0xF0 + code / 0x40000))
      (String (byte (0x80 + (code / 0x1000) mod 0x40))
        (String (byte (0x80 + (code / 0x40) mod 0x40))
          (String (byte (0x80 + code mod 0x40)) ""))).

(** Number of continuation bytes announced by a lead byte. *)
Definition continuation (c : ascii) : nat :=
  let n := N_of_ascii c in
  if (n <? 0xC0)%N then 0
  else if (n <? 0xE0)%N then 1
  else if (n <? 0xF0)%N then 2
  else 3.

Definition flush (cur : string) : list string :=
  match cur with
  | "" => []
  | _ => [cur]
  end.

(** The characters (code points) of a string, each as its own bytes. *)
Fixpoint chars_from (cur : string) (need : nat) (s : string) : list string :=
  match s with
  | "" => flush cur
  | String c r =>
      match need with
      | S n => chars_from (cur ++ String c "") n r
      | O => flush cur ++ chars_from (String c "") (continuation c) r
      end
  end.

Definition chars (s : string) : list string := chars_from "" 0 s.

Definition join (sep : string) (l : list string) : string := String.concat sep l.

Definition of_chars (l : list string) : string := join "" l.

Definition mem (c : string) (l : list string) : bool := bool_decide (c ∈ l).

(** The code points for which [str.isspace] holds; [str.split()] and
    [str.strip()] cut on exactly these. *)
Definition whitespace : list string :=
  chr <$> [0x09; 0x0A; 0x0B; 0x0C; 0x0D; 0x1C; 0x1D; 0x1E; 0x1F; 0x20;
           0x85; 0xA0; 0x1680;
           0x2000; 0x2001; 0x2002; 0x2003; 0x2004; 0x2005; 0x2006;
           0x2007; 0x2008; 0x2009; 0x200A;
           0x2028; 0x2029; 0x202F; 0x205F; 0x3000]%N.

Definition is_space (c : string) : bool := mem c whitespace.

(** [s.split()]: maximal runs of non-whitespace characters. *)
Fixpoint split_chars (cur : string) (cs : list string) : list string :=
  match cs with
  | [] => flush cur
  | c :: r =>
      if is_space c then flush cur ++ split_chars "" r
      else split_chars (cur ++ c) r
  end.

Definition split (s : string) : list string := split_chars "" (chars s).

Fixpoint drop_while {A} (p : A -> bool) (l : list A) : list A :=
  match l with
  | [] => []
  | x :: r => if p x then drop_while p r else l
  end.

(** [s.rstrip(set)], [s.strip(set)] and [s.strip()]. *)
Definition rstrip_chars (set : list string) (s : string) : string :=
  of_chars (rev (drop_while (fun c => mem c set) (rev (chars s)))).

Definition strip_chars (set : list string) (s : string) : string :=
  of_chars (rev (drop_while (fun c => mem c set)
                  (rev (drop_while (fun c => mem c set) (chars s))))).

Definition strip (s : string) : string := strip_chars whitespace s.

(** [x in s] for strings: [x] occurs as a contiguous substring of [s].
    On UTF-8 bytes this is the same test as on code points. *)
Fixpoint contains (x s : string) : bool :=
  String.prefix x s ||
  match s with
  | "" => false
  | String _ r => contains x r
  end.

(** [s.translate(table)] for a table given as (character, replacement). *)
Fixpoint assoc (c : string) (table : list (string * string)) : option string :=
  match table with
  | [] => None
  | (k, v) :: r => if bool_decide (k = c) then Some v else assoc c r
  end.

Definition translate (table : list (string * string)) (s : string) : string :=
  of_chars ((fun c => default c (assoc c table)) <$> chars s).

End Str.


(** ** Python values and rows

    A row ([dict]) maps column names to values; [None] is a value, so a key
    bound to [VNone] differs from a missing key, as [d.get(k, default)]
    requires. *)

Inductive value (F : Type) : Type :=
  | VNone
  | VInt (z : Z)
  | VFloat (x : F)
  | VStr (s : string).

Arguments VNone {F}.
Arguments VInt {F} z.
Arguments VFloat {F} x.
Arguments VStr {F} s.

Abbreviation row F := (gmap string (value F)).

Section Vector.
Context {F : Type} `{PyFloat F}.

Local Open Scope res_scope.

(** [d[k]] *)
Definition getitem (d : row F) (k : string) : res (value F) :=
  match d !! k with
  | Some v => Ok v
  | None => Raise KeyError
  end.

(** [d.get(k, dflt)] and [d.get(k)] *)
Definition get_default (d : row F) (k : string) (dflt : value F) : value F :=
  default dflt (d !! k).

Definition get (d : row F) (k : string) : value F := get_default d k VNone.

(** [l[i]] for a list and a non-negative index. *)
Definition index {A} (l : list A) (i : nat) : res A :=
  match l !! i with
  | Some x => Ok x
  | None => Raise IndexError
  end.

(** A value used in float arithmetic. *)
Definition as_number (v : value F) : res F :=
  match v with
  | VFloat x => Ok x
  | VInt z => Ok (f_of_Z z)
  | _ => Raise TypeError
  end.

(** [v.split()] *)
Definition str_split (v : value F) : res (list string) :=
  match v with
  | VStr s => Ok (Str.split s)
  | _ => Raise AttributeError
  end.

(** [np.argmax]: the first index holding the maximum. *)
Fixpoint argmax_from (best_i : nat) (best : F) (i : nat) (xs : list F) : nat :=
  match xs with
  | [] => best_i
  | x :: r =>
      if f_ltb best x then argmax_from i x (S i) r
      else argmax_from best_i best (S i) r
  end.

Definition np_argmax (xs : list F) : res nat :=
  match xs with
  | [] => Raise ValueError
  | x :: r => Ok (argmax_from 0 x 1 r)
  end.

(** [max(xs, default=d)]: the first maximal element. *)
Fixpoint max_from (best : F) (xs : list F) : F :=
  match xs with
  | [] => best
  | x :: r => max_from (if f_ltb best x then x else best) r
  end.

Definition max_default (xs : list F) (d : F) : F :=
  match xs with
  | [] => d
  | x :: r => max_from x r
  end.

(** The nested [jaccard] of [mmr_rerank]: [len(a | b) or 1] avoids the
    division by zero on two empty token sets. *)
Definition or_1 (n : nat) : nat :=
  match n with
  | O => 1
  | _ => n
  end.

Definition jaccard (a b : gset string) : F :=
  let inter := size (a ∩ b) in
  let uni := or_1 (size (a ∪ b)) in
  f_div (f_of_Z (Z.of_nat inter)) (f_of_Z (Z.of_nat uni)).

(** [lambda_mult*rel - (1-lambda_mult)*red] *)
Definition mmr_score (lambda_mult rel red : F) : F :=
  f_sub (f_mul lambda_mult rel) (f_mul (f_sub (f_of_Z 1) lambda_mult) red).

(** The redundancy of candidate [j] against the selection. *)
Definition redundancy (toks : list (gset string)) (selected_idx : list nat)
    (j : nat) : res F :=
  try! tj := index toks j in
  try! js := rmapM (fun si => try! tsi := index toks si in Ok (jaccard tj tsi))
                   selected_idx in
  Ok (max_default js (f_of_Z 0)).

(** One pass of [for j, h in enumerate(hits)], from position [j] on. *)
Fixpoint mmr_scan (lambda_mult : F) (toks : list (gset string))
    (selected_idx : list nat) (j : nat) (hs : list (row F))
    (best_j : option nat) (best_score : F) : res (option nat) :=
  match hs with
  | [] => Ok best_j
  | h :: rest =>
      if bool_decide (j ∈ selected_idx)
      then mmr_scan lambda_mult toks selected_idx (S j) rest best_j best_score
      else
        try! relv := getitem h "cosine_sim" in
        try! red := redundancy toks selected_idx j in
        try! rel := as_number relv in
        let score := mmr_score lambda_mult rel red in
        if f_ltb best_score score
        then mmr_scan lambda_mult toks selected_idx (S j) rest (Some j) score
        else mmr_scan lambda_mult toks selected_idx (S j) rest best_j best_score
  end.

(** The [while] loop.  [room] is [len(hits) - len(selected)], so that
    [room = 0] is the failure of the test [len(selected) < len(hits)]. *)
Fixpoint mmr_while (room : nat) (lambda_mult : F) (top_k : Z)
    (hits : list (row F)) (toks : list (gset string))
    (selected : list (row F)) (selected_idx : list nat) : res (list (row F)) :=
  match room with
  | O => Ok selected
  | S room' =>
      if (Z.of_nat (length selected) <? top_k)%Z then
        try! best_j := mmr_scan lambda_mult toks selected_idx 0 hits None f_sentinel in
        match best_j with
        | None => Raise TypeError          (* hits[None] *)
        | Some j =>
            try! h := index hits j in
            mmr_while room' lambda_mult top_k hits toks
                      (selected ++ [h]) (selected_idx ++ [j])
        end
      else Ok selected
  end.

Definition token_set (h : row F) : res (gset string) :=
  try! t := getitem h "text" in
  try! ws := str_split t in
  Ok (list_to_set ws).

Definition cosine_sim (h : row F) : res F :=
  try! v := getitem h "cosine_sim" in
  as_number v.

Definition mmr_rerank (qvec : list F) (hits : list (row F))
    (lambda_mult : F) (top_k : Z) : res (list (row F)) :=
  if (Z.of_nat (length hits) <=? top_k)%Z then Ok hits
  else
    try! toks := rmapM token_set hits in
    try! sims := rmapM cosine_sim hits in
    try! idx := np_argmax sims in
    try! h0 := index hits idx in
    mmr_while (length hits - 1) lambda_mult top_k hits toks [h0] [idx].

End Vector.


(** ** Collaborators

    The graph store is modelled by its contents and the meaning of the Cypher
    queries the retriever sends; the full-text index, the vector store, the
    embedding model and the text generator are oracles.  Each of them may fail. *)

(** The queries of [retriever_graph.py], named after the variables that hold
    their text. *)
Inductive cypher : Type :=
  | cy_exact
  | cy_alias
  | cy_ft
  | cy_contains
  | cy_seasons
  | cy_locations (limit : nat)
  | cy_climate
  | cy_diseases.

#[global] Instance cypher_eq_dec : EqDecision cypher.
Proof. solve_decision. Defined.

Inductive event (F : Type) : Type :=
  | EvCypher (c : cypher) (param : value F)      (* [_run] *)
  | EvEncode (text : string)                      (* the embedding model *)
  | EvConnect                                     (* [psycopg.connect] *)
  | EvSql (fetch_k : Z) (source language : value F)
  | EvGenerate (prompt : string).                 (* the generation pipeline *)

Arguments EvCypher {F} c param.
Arguments EvEncode {F} text.
Arguments EvConnect {F}.
Arguments EvSql {F} fetch_k source language.
Arguments EvGenerate {F} prompt.

(** [M F A]: a computation that calls collaborators.  It yields the log of
    its calls, in order, and either a value or the exception that ended it. *)
Definition M (F A : Type) : Type := list (event F) * res A.

Definition ret {F A} (a : A) : M F A := ([], Ok a).
Definition raise {F A} (e : exn) : M F A := ([], Raise e).
Definition lift {F A} (r : res A) : M F A := ([], r).
Definition emit {F} (ev : event F) : M F unit := ([ev], Ok tt).

Definition bind {F A B} (m : M F A) (f : A -> M F B) : M F B :=
  match m with
  | (log, inl e) => (log, inl e)
  | (log, inr a) => let '(log', r) := f a in ((log ++ log')%list, r)
  end.

(** [try: m / except Exception: h] *)
Definition try_except {F A} (m : M F A) (h : exn -> M F A) : M F A :=
  match m with
  | (log, inl e) => let '(log', r) := h e in ((log ++ log')%list, r)
  | (log, inr a) => (log, inr a)
  end.

Declare Scope m_scope.
Delimit Scope m_scope with M.
Notation "'do!' x := m 'in' k" := (bind m (fun x => k))
  (at level 10, x name, m at level 100, k at level 200) : m_scope.
Notation "'do!' '_' := m 'in' k" := (bind m (fun _ => k))
  (at level 10, m at level 100, k at level 200) : m_scope.

(** *** The property graph (the nodes and relationships of [graph/loader.py]) *)

Record Crop (F : Type) : Type := {
  c_id : option string;
  c_name_bn : option string;
  c_name_en : option string;
  c_slug : option string;
  c_min_temp_c : option F;
  c_max_temp_c : option F;
  c_min_rh : option F;
  c_max_rh : option F;
}.

Record Season : Type := {
  s_id : option string;
  s_name_bn : option string;
}.

Record Location : Type := {
  l_id : option string;
  l_name_bn : option string;
  l_level : option string;
}.

Record Disease : Type := {
  d_id : option string;
  d_name_bn : option string;
  d_name_en : option string;
  d_notes : option string;
}.

(** Properties of a CULTIVATED_IN relationship. *)
Record Cultivation (F : Type) : Type := {
  r_season : option string;
  r_transplant : option string;
  r_harvest : option string;
  r_avg_temp_c : option F;
  r_avg_humidity : option F;
  r_production : option Z;
}.

Arguments c_id {F}. Arguments c_name_bn {F}. Arguments c_name_en {F}.
Arguments c_slug {F}. Arguments c_min_temp_c {F}. Arguments c_max_temp_c {F}.
Arguments c_min_rh {F}. Arguments c_max_rh {F}.
Arguments r_season {F}. Arguments r_transplant {F}. Arguments r_harvest {F}.
Arguments r_avg_temp_c {F}. Arguments r_avg_humidity {F}. Arguments r_production {F}.

(** Nodes and relationships are listed in the order in which the store
    enumerates matches. *)
Record Graph (F : Type) : Type := {
  crops : list (Crop F);
  alias_of : list (option string * Crop F);       (* (a.name, c) for (a)-[:ALIAS_OF]->(c) *)
  suitable_in : list (Crop F * Season);
  cultivated_in : list (Crop F * Cultivation F * Location);
  suffer_from : list (Crop F * Disease);
  fulltext : string -> list (Crop F * F);        (* the index cropFulltext: (node, score) *)
  toLower : string -> string;                     (* Cypher toLower *)
  collate_le : string -> string -> bool;          (* string order used by ORDER BY *)
}.

Arguments crops {F}. Arguments alias_of {F}. Arguments suitable_in {F}.
Arguments cultivated_in {F}. Arguments suffer_from {F}. Arguments fulltext {F}.
Arguments toLower {F}. Arguments collate_le {F}.

Record World (F : Type) : Type := {
  (* the Python runtime *)
  str_lower : string -> string;                   (* str.lower *)
  normalize_NFC : string -> string;               (* unicodedata.normalize("NFC", .) *)
  float_str : F -> string;                        (* str(x) for a float *)
  (* rag/prompts.py; the module is not among the sources, its two constants
     are taken as they come *)
  VEC_USER_format : string -> string -> string;   (* VEC_USER.format(question=., passages=.) *)
  VEC_SYS : string;
  (* Neo4j *)
  graph : Graph F;
  run_fails : cypher -> value F -> bool;          (* the session or the query raises *)
  (* PostgreSQL with pgvector *)
  HAS_DB : bool;                                  (* the driver modules could be imported *)
  connect_fails : bool;
  execute : list F -> Z -> value F -> value F -> res (list (row F));
  (* models *)
  encode : string -> res (list F);                (* SentenceTransformer.encode, one text *)
  pipe_load_fails : bool;                         (* [_get_pipe] raises *)
  pipe : string -> string + string;               (* error message, or generated_text *)
}.

Arguments str_lower {F}. Arguments normalize_NFC {F}. Arguments float_str {F}.
Arguments VEC_USER_format {F}. Arguments VEC_SYS {F}. Arguments graph {F}.
Arguments run_fails {F}. Arguments HAS_DB {F}. Arguments connect_fails {F}.
Arguments execute {F}. Arguments encode {F}. Arguments pipe_load_fails {F}.
Arguments pipe {F}.

(** The dictionary returned by [graph_answer_for_crop]; [bullets_bn] is
    absent from the crop_not_found dictionary. *)
Record graph_res (F : Type) : Type := {
  ok : bool;
  bullets_bn : option (list string);
  res_crop : option (row F);
  facts_seasons : list (row F);
  facts_locations : list (row F);
  facts_climate : option (row F);
  facts_diseases : list (row F);
}.

Arguments ok {F}. Arguments bullets_bn {F}. Arguments res_crop {F}.
Arguments facts_seasons {F}. Arguments facts_locations {F}.
Arguments facts_climate {F}. Arguments facts_diseases {F}.

(** ** rag/retriever_graph.py *)

Section RetrieverGraph.
Context {F : Type} `{PyFloat F} (W : World F).

Local Open Scope m_scope.

(** *** Python helpers *)

(** [bool(v)] *)
Definition truthy (v : value F) : bool :=
  match v with
  | VNone => false
  | VInt z => negb (z =? 0)%Z
  | VFloat x => negb (f_eqb x (f_of_Z 0))
  | VStr s => negb (String.eqb s "")
  end.

(** [a or b] *)
Definition py_or (a b : value F) : value F := if truthy a then a else b.

(** [v is not None] *)
Definition is_not_None (v : value F) : bool :=
  match v with
  | VNone => false
  | _ => true
  end.

(** [bool(d)] for an optional dictionary: [None] and [{}] are false. *)
Definition dict_truthy (d : option (row F)) : bool :=
  match d with
  | Some r => negb (Nat.eqb (size r) 0)
  | None => false
  end.

(** [str(v)], as used by f-strings. *)
Definition py_str (v : value F) : string :=
  match v with
  | VNone => "None"
  | VInt z => NilZero.string_of_int (Z.to_int z)
  | VFloat x => float_str W x
  | VStr s => s
  end.

(** [sep.join(vs)]: every item must be a [str]. *)
Definition str_join (sep : string) (vs : list (value F)) : res string :=
  rbind (rmapM (fun v => match v with
                         | VStr s => Ok s
                         | _ => Raise TypeError
                         end) vs)
        (fun ss => Ok (Str.join sep ss)).

(** *** Module constants and formatting helpers *)

Definition _MANUAL_ALIASES : list (string * list string) :=
  [("আমন", ["Aman"]); ("আউশ", ["Aus Rice"]); ("বোরো", ["Boro"])].

(** The characters removed by the regular expression: U+200B to U+200D,
    U+2060 and U+FEFF. *)
Definition zero_width : list string :=
  Str.chr <$> [0x200B; 0x200C; 0x200D; 0x2060; 0xFEFF]%N.

Definition _normalize_bn (s : string) : string :=
  if String.eqb s "" then ""
  else
    let s := normalize_NFC W s in
    let s := Str.of_chars (List.filter (fun c => negb (Str.mem c zero_width)) (Str.chars s)) in
    Str.strip s.

Definition _BN_DIGITS : list (string * string) :=
  zip (Str.chars "0123456789") (Str.chars "০১২৩৪৫৬৭৮৯").

Definition _bn_num (x : value F) : string :=
  match x with
  | VNone => ""
  | VFloat _ =>
      Str.translate _BN_DIGITS (Str.rstrip_chars ["."] (Str.rstrip_chars ["0"] (py_str x)))
  | _ => Str.translate _BN_DIGITS (py_str x)
  end.

Definition _SEASON_MAP : list (string * string) :=
  [("Kharif 1", "খরিফ-১"); ("Kharif1", "খরিফ-১");
   ("Kharif 2", "খরিফ-২"); ("Kharif2", "খরিফ-২");
   ("Rabi", "রবি"); ("Aus", "আউশ"); ("Aman", "আমন"); ("Boro", "বোরো")].

Definition _bn_season (s : value F) : value F :=
  if negb (truthy s) then VStr ""
  else match s with
       | VStr k => VStr (default k (Str.assoc k _SEASON_MAP))
       | other => other
       end.

(** *** The meaning of the Cypher queries *)

Definition opt_str (o : option string) : value F :=
  match o with
  | Some s => VStr s
  | None => VNone
  end.

Definition opt_float (o : option F) : value F :=
  match o with
  | Some x => VFloat x
  | None => VNone
  end.

Definition opt_int (o : option Z) : value F :=
  match o with
  | Some z => VInt z
  | None => VNone
  end.

Definition is_some {A} (o : option A) : bool :=
  match o with
  | Some _ => true
  | None => false
  end.

(** [toLower(coalesce(p, '')) = toLower($q)] *)
Definition lower_eq (p : option string) (q : string) : bool :=
  String.eqb (toLower (graph W) (default "" p)) (toLower (graph W) q).

(** [toLower(coalesce(p, '')) CONTAINS toLower($q)] *)
Definition lower_contains (p : option string) (q : string) : bool :=
  Str.contains (toLower (graph W) q) (toLower (graph W) (default "" p)).

(** The WHERE clause of [cy_exact]. *)
Definition exact_match (q : string) (c : Crop F) : bool :=
  lower_eq (c_id c) q
  || lower_eq (c_name_bn c) q
  || lower_eq (c_name_en c) q
  || (is_some (c_slug c) && lower_eq (c_slug c) q).

(** The WHERE clause of [cy_contains]. *)
Definition contains_match (q : string) (c : Crop F) : bool :=
  lower_contains (c_name_bn c) q
  || lower_contains (c_name_en c) q
  || (is_some (c_slug c) && lower_contains (c_slug c) q).

(** [(c:Crop {id:$id})] *)
Definition id_match (p : value F) (c : Crop F) : bool :=
  match p, c_id c with
  | VStr s, Some i => String.eqb i s
  | _, _ => false
  end.

(** [RETURN c.id AS id, c.name_bn AS name_bn, c.name_en AS name_en, c.slug AS slug] *)
Definition crop_row (c : Crop F) : row F :=
  {[ "id" := opt_str (c_id c); "name_bn" := opt_str (c_name_bn c);
     "name_en" := opt_str (c_name_en c); "slug" := opt_str (c_slug c) ]}.

Definition season_row (s : Season) : row F :=
  {[ "season_id" := opt_str (s_id s); "season_name" := opt_str (s_name_bn s) ]}.

Definition location_row (e : Cultivation F * Location) : row F :=
  let '(r, l) := e in
  {[ "location_id" := opt_str (l_id l); "location_name" := opt_str (l_name_bn l);
     "season" := opt_str (r_season r); "transplant" := opt_str (r_transplant r);
     "harvest" := opt_str (r_harvest r); "production" := opt_int (r_production r);
     "avg_temp_c" := opt_float (r_avg_temp_c r);
     "avg_humidity" := opt_float (r_avg_humidity r) ]}.

Definition climate_row (c : Crop F) : row F :=
  {[ "min_temp_c" := opt_float (c_min_temp_c c); "max_temp_c" := opt_float (c_max_temp_c c);
     "min_rh" := opt_float (c_min_rh c); "max_rh" := opt_float (c_max_rh c) ]}.

Definition disease_row (d : Disease) : row F :=
  {[ "disease_id" := opt_str (d_id d); "name_bn" := opt_str (d_name_bn d);
     "name_en" := opt_str (d_name_en d); "notes" := opt_str (d_notes d) ]}.

(** [ORDER BY k] on an optional string: ascending, null last. *)
Definition name_le (a b : option string) : bool :=
  match a, b with
  | Some x, Some y => collate_le (graph W) x y
  | Some _, None => true
  | None, Some _ => false
  | None, None => true
  end.

(** [coalesce(r.production, -1)] *)
Definition production_key (r : Cultivation F) : Z := default (-1)%Z (r_production r).

(** [ORDER BY score DESC] *)
Definition by_score_desc (x y : Crop F * F) : Prop := Is_true (negb (f_ltb (snd x) (snd y))).

(** [ORDER BY coalesce(r.production, -1) DESC] *)
Definition by_production_desc (x y : Cultivation F * Location) : Prop :=
  (production_key (fst y) <= production_key (fst x))%Z.

(** [ORDER BY s.name_bn] and [ORDER BY d.name_bn] *)
Definition by_season_name (x y : Season) : Prop := Is_true (name_le (s_name_bn x) (s_name_bn y)).
Definition by_disease_name (x y : Disease) : Prop := Is_true (name_le (d_name_bn x) (d_name_bn y)).

#[global] Instance by_score_desc_dec x y : Decision (by_score_desc x y).
Proof. unfold by_score_desc. apply _. Defined.
#[global] Instance by_production_desc_dec x y : Decision (by_production_desc x y).
Proof. unfold by_production_desc. apply _. Defined.
#[global] Instance by_season_name_dec x y : Decision (by_season_name x y).
Proof. unfold by_season_name. apply _. Defined.
#[global] Instance by_disease_name_dec x y : Decision (by_disease_name x y).
Proof. unfold by_disease_name. apply _. Defined.

(** The rows of the text queries, for the string bound to [$q]. *)
Definition exact_rows (q : string) : list (row F) :=
  take 1 (crop_row <$> List.filter (exact_match q) (crops (graph W))).

Definition alias_rows (q : string) : list (row F) :=
  take 1 (crop_row ∘ snd <$> List.filter (fun a => lower_eq (fst a) q) (alias_of (graph W))).

Definition ft_rows (q : string) : list (row F) :=
  take 1 (crop_row ∘ fst <$> merge_sort by_score_desc (fulltext (graph W) q)).

Definition contains_rows (q : string) : list (row F) :=
  take 1 (crop_row <$> List.filter (contains_match q) (crops (graph W))).

(** The rows of the queries by crop identifier. *)
Definition season_rows (p : value F) : list (row F) :=
  season_row <$> merge_sort by_season_name
    (snd <$> List.filter (fun e => id_match p (fst e)) (suitable_in (graph W))).

Definition cultivations (p : value F) : list (Cultivation F * Location) :=
  (fun e => (snd (fst e), snd e))
    <$> List.filter (fun e => id_match p (fst (fst e))) (cultivated_in (graph W)).

Definition location_rows (limit : nat) (p : value F) : list (row F) :=
  location_row <$> take limit (merge_sort by_production_desc (cultivations p)).

Definition climate_rows (p : value F) : list (row F) :=
  climate_row <$> List.filter (id_match p) (crops (graph W)).

Definition disease_rows (p : value F) : list (row F) :=
  disease_row <$> merge_sort by_disease_name
    (snd <$> List.filter (fun e => id_match p (fst e)) (suffer_from (graph W))).

(** A text query applies [toLower] to its parameter: null gives no row and
    a parameter of another type is a type error of the store. *)
Definition text_query (rows : string -> list (row F)) (p : value F) : res (list (row F)) :=
  match p with
  | VStr q => Ok (rows q)
  | VNone => Ok []
  | _ => Raise StoreError
  end.

Definition eval_cypher (c : cypher) (p : value F) : res (list (row F)) :=
  match c with
  | cy_exact => text_query exact_rows p
  | cy_alias => text_query alias_rows p
  | cy_ft => text_query ft_rows p
  | cy_contains => text_query contains_rows p
  | cy_seasons => Ok (season_rows p)
  | cy_locations limit => Ok (location_rows limit p)
  | cy_climate => Ok (climate_rows p)
  | cy_diseases => Ok (disease_rows p)
  end.

(** [_run(cypher, **params)] *)
Definition _run (c : cypher) (p : value F) : M F (list (row F)) :=
  do! _ := emit (EvCypher c p) in
  if run_fails W c p then raise StoreError
  else lift (eval_cypher c p).

(** *** Crop resolution *)

(** [for key, targets in _MANUAL_ALIASES.items(): ...] *)
Fixpoint manual_alias_loop (q : string) (items : list (string * list string))
    : M F (option (row F)) :=
  match items with
  | [] => ret None
  | (key, targets) :: rest =>
      if Str.contains (_normalize_bn key) q then
        do! t := lift (index targets 0) in
        do! hit := _run cy_contains (VStr t) in
        match hit with
        | r :: _ => ret (Some r)
        | [] => manual_alias_loop q rest
        end
      else manual_alias_loop q rest
  end.

(** The guarded block of [resolve_crop]:
    [try: rows = _run(cy_alias, q=q) ... except Exception: pass]. *)
Definition alias_tier (q : string) : M F (option (row F)) :=
  try_except (do! rows := _run cy_alias (VStr q) in ret (head rows))
             (fun _ => ret None).

Definition resolve_crop (q : string) : M F (option (row F)) :=
  let q := _normalize_bn q in
  do! rows := _run cy_exact (VStr q) in
  match rows with
  | r :: _ => ret (Some r)
  | [] =>
  do! hit := alias_tier q in
  match hit with
  | Some r => ret (Some r)
  | None =>
  do! rows := _run cy_ft (VStr q) in
  match rows with
  | r :: _ => ret (Some r)
  | [] =>
  do! rows := _run cy_contains (VStr q) in
  match rows with
  | r :: _ => ret (Some r)
  | [] => manual_alias_loop q _MANUAL_ALIASES
  end end end end.

(** *** Query helpers *)

Definition crop_seasons (crop_id : value F) : M F (list (row F)) :=
  _run cy_seasons crop_id.

Definition crop_locations (crop_id : value F) (limit : nat) : M F (list (row F)) :=
  _run (cy_locations limit) crop_id.

Definition crop_climate (crop_id : value F) : M F (option (row F)) :=
  do! rows := _run cy_climate crop_id in
  ret (head rows).

Definition crop_diseases (crop_id : value F) : M F (list (row F)) :=
  try_except (_run cy_diseases crop_id) (fun _ => ret []).

(** *** The GraphRAG answer *)

Definition crop_not_found : graph_res F :=
  {| ok := false; bullets_bn := None; res_crop := None; facts_seasons := [];
     facts_locations := []; facts_climate := None; facts_diseases := [] |}.

Definition season_bullet (seasons : list (row F)) : res (list string) :=
  match seasons with
  | [] => Ok []
  | _ =>
      let names := (fun s => _bn_season (get_default s "season_name" (VStr "")))
                     <$> List.filter (fun s => truthy (get s "season_name")) seasons in
      match names with
      | [] => Ok []
      | _ => rbind (str_join " / " names) (fun j => Ok ["উপযোগী মৌসুম: " ++ j])
      end
  end.

(** [_bn_num(v) if v is not None else "—"] *)
Definition bound_text (v : value F) : string :=
  if is_not_None v then _bn_num v else "—".

Definition temperature_bullet (climate : option (row F)) : list string :=
  match climate with
  | Some cl =>
      if dict_truthy climate
         && (is_not_None (get cl "min_temp_c") || is_not_None (get cl "max_temp_c"))
      then ["তাপমাত্রা: " ++ bound_text (get cl "min_temp_c") ++ "–"
              ++ bound_text (get cl "max_temp_c") ++ "°C"]
      else []
  | None => []
  end.

Definition humidity_bullet (climate : option (row F)) : list string :=
  match climate with
  | Some cl =>
      if dict_truthy climate
         && (is_not_None (get cl "min_rh") || is_not_None (get cl "max_rh"))
      then ["আপেক্ষিক আর্দ্রতা: " ++ bound_text (get cl "min_rh") ++ "%–"
              ++ bound_text (get cl "max_rh") ++ "%"]
      else []
  | None => []
  end.

Definition disease_bullet (diseases : list (row F)) : res (list string) :=
  match diseases with
  | [] => Ok []
  | _ =>
      let names := (fun d => py_or (get d "name_bn") (get_default d "name_en" (VStr "")))
                     <$> List.filter (fun d => truthy (py_or (get d "name_bn") (get d "name_en")))
                                     diseases in
      rbind (str_join " / " names) (fun j => Ok ["রোগ: " ++ j])
  end.

(** One item of the location bullet: the f-string, stripped. *)
Definition location_entry (r : row F) : string :=
  Str.strip (py_str (get_default r "location_name" (VStr "")) ++ " ("
             ++ py_str (_bn_season (get_default r "season" (VStr ""))) ++ ")").

(** The items joined into [top]: [... for r in locs[:5] if r.get("location_name")]. *)
Definition location_entries (locs : list (row F)) : list string :=
  location_entry <$> List.filter (fun r => truthy (get r "location_name")) (take 5 locs).

Definition location_bullet (locs : list (row F)) : list string :=
  match locs with
  | [] => []
  | _ =>
      let top := Str.join ", " (location_entries locs) in
      if negb (String.eqb (Str.strip_chars [","; " "] top) "")
      then ["চাষের জেলা (উদাহরণ): " ++ top]
      else []
  end.

(** The bullets, in the order in which the source appends them. *)
Definition render_bullets (seasons locs : list (row F)) (climate : option (row F))
    (diseases : list (row F)) : res (list string) :=
  rbind (season_bullet seasons) (fun b1 =>
  let b2 := temperature_bullet climate in
  let b3 := humidity_bullet climate in
  rbind (disease_bullet diseases) (fun b4 =>
  let b5 := location_bullet locs in
  Ok (b1 ++ b2 ++ b3 ++ b4 ++ b5)%list)).

Definition graph_answer_for_crop (text : string) : M F (graph_res F) :=
  do! crop := resolve_crop text in
  match crop with
  | Some c =>
      if dict_truthy crop then
        do! cid := lift (getitem c "id") in
        do! seasons := crop_seasons cid in
        do! locs := crop_locations cid 10 in
        do! climate := crop_climate cid in
        do! diseases := crop_diseases cid in
        do! bullets := lift (render_bullets seasons locs climate diseases) in
        ret {| ok := true; bullets_bn := Some bullets; res_crop := crop;
               facts_seasons := seasons; facts_locations := locs;
               facts_climate := climate; facts_diseases := diseases |}
      else ret crop_not_found
  | None => ret crop_not_found
  end.

(** The top-level names that the module binds, in order of appearance. *)
Definition module_names : list string :=
  ["annotations"; "List"; "Dict"; "Any"; "Optional"; "GraphDatabase";
   "os"; "unicodedata"; "re"; "json"; "argparse"; "atexit";
   "NEO4J_URI"; "NEO4J_USER"; "NEO4J_PASS"; "_driver"; "_run";
   "_MANUAL_ALIASES"; "_normalize_bn"; "_BN_DIGITS"; "_bn_num";
   "_SEASON_MAP"; "_bn_season"; "resolve_crop"; "crop_seasons";
   "crop_locations"; "crop_climate"; "crop_diseases";
   "graph_answer_for_crop"; "__all__"].

(** Those among them that are functions from a text to an answer
    dictionary. *)
Definition answer_functions : list (string * (string -> M F (graph_res F))) :=
  [("graph_answer_for_crop", graph_answer_for_crop)].

End RetrieverGraph.


(** ** rag/retriever_vector.py: the search path *)

Section RetrieverVector.
Context {F : Type} `{PyFloat F} (W : World F).

Local Open Scope m_scope.

(** [embed_query]: the text is embedded with the query prefix. *)
Definition embed_query (q : string) : M F (list F) :=
  do! _ := emit (EvEncode ("query: " ++ q)) in
  lift (encode W ("query: " ++ q)).

(** [_conn()]: [None] when the driver is missing or the connection fails. *)
Definition _conn : M F bool :=
  if HAS_DB W then
    do! _ := emit EvConnect in
    ret (negb (connect_fails W))
  else ret false.

(** A filter is part of the WHERE clause only when it is truthy. *)
Definition sql_filter (v : value F) : value F := if truthy v then v else VNone.

Definition fetch_knn (qvec : list F) (fetch_k : Z) (source language : value F)
    : M F (list (row F)) :=
  do! conn := _conn in
  if conn then
    do! _ := emit (EvSql fetch_k (sql_filter source) (sql_filter language)) in
    lift (execute W qvec fetch_k (sql_filter source) (sql_filter language))
  else ret [].

(** [l[:k]] *)
Definition slice_to {A} (k : Z) (l : list A) : list A :=
  if (0 <=? k)%Z then take (Z.to_nat k) l
  else take (Z.to_nat (Z.of_nat (length l) + k)) l.

Definition search (query : string) (k fetch_k : Z) (source language : value F)
    (use_mmr : bool) (lambda_mult : F) : M F (list (row F)) :=
  do! qvec := embed_query query in
  do! raw := fetch_knn qvec fetch_k source language in
  if use_mmr then lift (mmr_rerank qvec raw lambda_mult k)
  else ret (slice_to k raw).

End RetrieverVector.

(** ** rag/generator.py *)

Section Generator.
Context {F : Type} (W : World F).

Local Open Scope m_scope.

Definition newline : string := String (ascii_of_N 10) "".

(** [_gen]: loading the pipeline may raise; a failure of the call itself is
    turned into text. *)
Definition _gen (prompt : string) : M F string :=
  do! _ := emit (EvGenerate prompt) in
  if pipe_load_fails W then raise ModelError
  else match pipe W prompt with
       | inr text => ret (Str.strip text)
       | inl msg => ret ("[generator error] " ++ msg)
       end.

Definition gen_from_passages (question passages_block sys_prompt : string) : M F string :=
  _gen (sys_prompt ++ newline ++ newline ++ passages_block).

End Generator.

(** ** rag/generator.py: the cached pipeline

    [_get_pipe] builds the text-generation pipeline once and keeps it in the
    module variable [_pipe]; the variable is threaded through as a state.
    In [World], [pipe_load_fails] stands for the failure of this function. *)

Record Tokenizer : Type := {
  pad_token_id : option Z;
  eos_token_id : option Z;
}.

Record Pipeline : Type := {
  pipe_model : string;
  tokenizer : Tokenizer;
}.

(** The arguments of a call of [transformers.pipeline]. *)
Record load_request : Type := {
  lr_model : string;
  lr_device : Z;              (* 0 with CUDA, -1 without *)
  lr_float16 : bool;          (* torch_dtype: float16 with CUDA, float32 without *)
  lr_token : option string;
}.

Record Host : Type := {
  _MODEL_ID : string;
  _HF_TOKEN : option string;
  cuda_is_available : bool;
  pipeline : load_request -> res Pipeline;
}.

Definition fallback : string := "bigscience/bloomz-560m".

(** [if _HF_TOKEN: pipe_kwargs["token"] = _HF_TOKEN] *)
Definition token_kwarg (t : option string) : option string :=
  match t with
  | Some s => if String.eqb s "" then None else Some s
  | None => None
  end.

(** The guarded block that gives the tokenizer a pad token. *)
Definition ensure_pad_token (p : Pipeline) : Pipeline :=
  let tok := tokenizer p in
  match pad_token_id tok, eos_token_id tok with
  | None, Some e =>
      {| pipe_model := pipe_model p;
         tokenizer := {| pad_token_id := Some e; eos_token_id := Some e |} |}
  | _, _ => p
  end.

(** [_get_pipe()]: the calls of [pipeline] it makes, the new value of
    [_pipe], and what it returns or raises. *)
Definition _get_pipe (h : Host) (_pipe : option Pipeline)
    : list load_request * option Pipeline * res Pipeline :=
  match _pipe with
  | Some p => ([], Some p, Ok p)
  | None =>
      let device := if cuda_is_available h then 0%Z else (-1)%Z in
      let first := {| lr_model := _MODEL_ID h; lr_device := device;
                      lr_float16 := cuda_is_available h;
                      lr_token := token_kwarg (_HF_TOKEN h) |} in
      match pipeline h first with
      | inr p => ([first], Some (ensure_pad_token p), Ok (ensure_pad_token p))
      | inl _ =>
          let second := {| lr_model := fallback; lr_device := device;
                           lr_float16 := cuda_is_available h; lr_token := None |} in
          match pipeline h second with
          | inr p => ([first; second], Some (ensure_pad_token p), Ok (ensure_pad_token p))
          | inl e => ([first; second], None, Raise e)
          end
      end
  end.

(** ** rag/router.py *)

Inductive intent : Type := disease | climate | season | fertilizer.

#[global] Instance intent_eq_dec : EqDecision intent.
Proof. solve_decision. Defined.

Section Router.
Context {F : Type} `{PyFloat F} (W : World F).

Local Open Scope m_scope.

Definition DISEASE : list string :=
  ["রোগ"; "পোকা"; "কীট"; "disease"; "pest"; "blight"; "blast"; "bacterial"; "fungal"].
Definition CLIMATE : list string :=
  ["জলবায়ু"; "তাপমাত্রা"; "আর্দ্রতা"; "climate"; "temperature"; "humidity"].
Definition SEASON : list string :=
  ["মৌসুম"; "রোপণ"; "রোপন"; "কাটা"; "transplant"; "harvest"; "season"].
Definition FERT : list string :=
  ["সার"; "fertilizer"; "npk"; "ডোজ"; "মাত্রা"].

(** [any(x in ql for x in xs)] *)
Definition has (ql : string) (xs : list string) : bool :=
  existsb (fun x => Str.contains x ql) xs.

(** [None] is the source's [None]; the four strings are the constructors. *)
Definition _detect_intent (q : string) : option intent :=
  let ql := str_lower W q in
  if has ql DISEASE then Some disease
  else if has ql CLIMATE then Some climate
  else if has ql SEASON then Some season
  else if has ql FERT then Some fertilizer
  else None.

Definition _as_bullets (bn_lines : list string) : string :=
  Str.join newline
    ((fun b => "• " ++ b)
       <$> List.filter (fun b => negb (String.eqb b "") && negb (String.eqb (Str.strip b) ""))
                       bn_lines).

(** [enumerate(passages, i)] mapped to the numbered lines. *)
Fixpoint context_lines (i : Z) (passages : list (row F)) : list string :=
  match passages with
  | [] => []
  | p :: rest =>
      ("[" ++ py_str W (VInt i) ++ "] " ++ py_str W (get_default p "text" (VStr ""))
         ++ newline ++ "(Source: " ++ py_str W (get_default p "source" (VStr "")) ++ ")")
      :: context_lines (i + 1) rest
  end.

Definition _format_vector_context (question : string) (passages : list (row F)) : string :=
  match passages with
  | [] => ""
  | _ =>
      let block := Str.join (newline ++ newline) (context_lines 1 passages) in
      VEC_USER_format W question block
  end.

(** The keyword string appended to the question, [""] without intent. *)
Definition aug (i : option intent) : string :=
  match i with
  | Some disease => " রোগ পোকা কীট disease pest"
  | Some climate => " জলবায়ু তাপমাত্রা আর্দ্রতা climate temperature humidity"
  | Some season => " মৌসুম season transplant harvest কাটা রোপণ"
  | Some fertilizer => " সার fertilizer NPK ডোজ মাত্রা"
  | None => ""
  end.

Definition apology : string := "মাফ করবেন, আমার কাছে সেই তথ্য নেই।".

(** [res.get("ok") and res.get("bullets_bn")]: the bullets when the test
    holds. *)
Definition usable_bullets (r : graph_res F) : option (list string) :=
  if ok r then
    match bullets_bn r with
    | Some (b :: bs) => Some (b :: bs)
    | _ => None
    end
  else None.

Definition passage (h : row F) : row F :=
  {[ "id" := get_default h "chunk_id" (VStr "");
     "text" := get_default h "text" (VStr "");
     "source" := get_default h "source" (VStr "") ]}.

(** Part 2 of [answer]: the vector fallback. *)
Definition vector_fallback (question : string) (k : Z) (i : option intent) : M F string :=
  let q2 := Str.strip (question ++ " " ++ aug i) in
  do! hits := search W q2 k (Z.max 32 (k * 8)) VNone (VStr "bn") true f_default_lambda in
  let passages := passage <$> hits in
  match passages with
  | [] => ret apology
  | _ =>
      let user_prompt := _format_vector_context question passages in
      gen_from_passages W question user_prompt (VEC_SYS W)
  end.

(** Part 1(b): the overview of the crop, then the fallback. *)
Definition overview_then_fallback (question : string) (k : Z) (i : option intent) : M F string :=
  do! r := graph_answer_for_crop W question in
  match usable_bullets r with
  | Some bullets => ret (_as_bullets bullets)
  | None => vector_fallback question k i
  end.

(** [answer], for the object bound to the module variable
    [graph_diseases_for_crop] ([None] or a callable). *)
Definition answer_with (graph_diseases_for_crop : option (string -> M F (graph_res F)))
    (question : string) (k : Z) : M F string :=
  let i := _detect_intent question in
  do! crop := resolve_crop W question in
  if dict_truthy crop then
    match graph_diseases_for_crop with
    | Some f =>
        if bool_decide (i = Some disease) then
          do! r := f question in
          match usable_bullets r with
          | Some bullets => ret (_as_bullets bullets)
          | None => overview_then_fallback question k i
          end
        else overview_then_fallback question k i
    | None => overview_then_fallback question k i
    end
  else vector_fallback question k i.

Fixpoint attribute {A} (name : string) (defs : list (string * A)) : option A :=
  match defs with
  | [] => None
  | (n, a) :: rest => if String.eqb n name then Some a else attribute name rest
  end.

(** [try: from rag.retriever_graph import graph_diseases_for_crop /
    except Exception: graph_diseases_for_crop = None]: the name is bound to
    the module's attribute when the module defines it. *)
Definition graph_diseases_for_crop : option (string -> M F (graph_res F)) :=
  if bool_decide ("graph_diseases_for_crop" ∈ module_names)
  then attribute "graph_diseases_for_crop" (answer_functions W)
  else None.

Definition answer (question : string) (k : Z) : M F string :=
  answer_with graph_diseases_for_crop question k.

End Router.

(** ** api/schemas.py and api/main.py *)

Record AskResponse : Type := {
  resp_answer : string;
  resp_mode : string;
  resp_sources : list string;
}.

(** What a request handler gives: the response model, or the
    [HTTPException] it raises, with the exception it reports as detail. *)
Inductive http (A : Type) : Type :=
  | Http200 (body : A)
  | HTTPException (status_code : Z) (detail : exn).

Arguments Http200 {A} body.
Arguments HTTPException {A} status_code detail.

Section Api.
Context {F : Type} `{PyFloat F} (W : World F).

(** [POST /api/ask] *)
Definition ask (question : string) : list (event F) * http AskResponse :=
  match answer W question 5 with
  | (log, inr out) =>
      (log, Http200 {| resp_answer := out; resp_mode := "GraphRAG or VectorRAG";
                       resp_sources := ["neo4j"; "pgvector"] |})
  | (log, inl e) => (log, HTTPException 500 e)
  end.

End Api.

(** ** ui/app.py: the badge shown beside an answer *)

Inductive badge : Type := GraphBadge | VectorBadge.

(** [mode = (data.get("mode") or "").lower()], then the test
    [mode == "graphrag"]. *)
Definition answer_badge {F} (W : World F) (data_mode : option string) : badge :=
  let mode := str_lower W (default "" data_mode) in
  if String.eqb mode "graphrag" then GraphBadge else VectorBadge.

(** ** A small concrete world, for running the definitions *)

Module Scenario.

(** ASCII lower-casing, standing for [str.lower] and Cypher's [toLower]. *)
Definition lower_ascii (c : ascii) : ascii :=
  let n := N_of_ascii c in
  if ((65 <=? n) && (n <=? 90))%N then ascii_of_N (n + 32) else c.

Fixpoint lower (s : string) : string :=
  match s with
  | "" => ""
  | String c r => String (lower_ascii c) (lower r)
  end.

(** Integral rationals print as Python prints integral floats. *)
Definition q_str (x : Q) : string :=
  NilZero.string_of_int (Z.to_int (Qnum x / Zpos (Qden x))) ++ ".0".

Definition aman : Crop Q :=
  {| c_id := Some "aman"; c_name_bn := Some "আমন ধান"; c_name_en := Some "Aman";
     c_slug := Some "aman"; c_min_temp_c := Some (20 # 1)%Q; c_max_temp_c := None;
     c_min_rh := None; c_max_rh := None |}.

Definition boro : Crop Q :=
  {| c_id := Some "boro"; c_name_bn := Some "বোরো ধান"; c_name_en := Some "Boro";
     c_slug := Some "boro"; c_min_temp_c := None; c_max_temp_c := None;
     c_min_rh := None; c_max_rh := None |}.

Definition kharif2 : Season := {| s_id := Some "kharif-2"; s_name_bn := Some "Kharif 2" |}.

Definition district (name : string) : Location :=
  {| l_id := Some name; l_name_bn := Some name; l_level := Some "district" |}.

Definition grown (production : option Z) : Cultivation Q :=
  {| r_season := Some "Kharif 2"; r_transplant := None; r_harvest := None;
     r_avg_temp_c := None; r_avg_humidity := None; r_production := production |}.

Definition farm : Graph Q :=
  {| crops := [aman; boro];
     alias_of := [(Some "ধান", aman)];
     suitable_in := [(aman, kharif2)];
     cultivated_in := [(aman, grown (Some 10%Z), district "Dinajpur");
                       (aman, grown None, district "Bogura");
                       (aman, grown (Some 30%Z), district "Rangpur")];
     suffer_from := [];
     fulltext := fun _ => [];
     toLower := lower;
     collate_le := String.leb |}.

(** Everything is up; the vector store holds nothing. *)
Definition up : World Q :=
  {| str_lower := lower; normalize_NFC := fun s => s; float_str := q_str;
     VEC_USER_format := fun question passages => question ++ newline ++ passages;
     VEC_SYS := "system";
     graph := farm;
     run_fails := fun _ _ => false;
     HAS_DB := true; connect_fails := false;
     execute := fun _ _ _ _ => Ok [];
     encode := fun _ => Ok [];
     pipe_load_fails := false;
     pipe := fun prompt => inr prompt |}.

(** The same world with the graph store down. *)
Definition graph_down : World Q :=
  {| str_lower := lower; normalize_NFC := fun s => s; float_str := q_str;
     VEC_USER_format := fun question passages => question ++ newline ++ passages;
     VEC_SYS := "system";
     graph := farm;
     run_fails := fun _ _ => true;
     HAS_DB := true; connect_fails := false;
     execute := fun _ _ _ _ => Ok [];
     encode := fun _ => Ok [];
     pipe_load_fails := false;
     pipe := fun prompt => inr prompt |}.

(** The answer dictionary for the question "Aman". *)
Definition aman_answer : graph_res Q :=
  match snd (graph_answer_for_crop up "Aman") with
  | inr r => r
  | inl _ => crop_not_found
  end.

Definition candidate {F} (text : string) (sim : F) : row F :=
  {[ "text" := VStr text; "cosine_sim" := VFloat sim ]}.

(** The candidates of the end-to-end scenario, over both arithmetics. *)
Definition c1 : row Q := candidate "a b c" (9 # 10)%Q.
Definition c2 : row Q := candidate "a b d" (85 # 100)%Q.
Definition c3 : row Q := candidate "x y z" (5 # 10)%Q.

Definition c1_f64 : row float := candidate "a b c" 0x1.ccccccccccccdp-1%float.   (* 0.9 *)
Definition c2_f64 : row float := candidate "a b d" 0x1.b333333333333p-1%float.   (* 0.85 *)
Definition c3_f64 : row float := candidate "x y z" 0.5%float.

(** Candidates whose similarity lies below the sentinel. *)
Definition far (text : string) : row Q := candidate text (-2000000000 # 1)%Q.

End Scenario.

(** ** A second concrete world: a stocked vector store, a crop with
    humidity bounds, seasons and diseases *)

Module Sample.

Definition wheat : Crop Q :=
  {| c_id := Some "wheat"; c_name_bn := Some "গম"; c_name_en := None;
     c_slug := None; c_min_temp_c := Some (15 # 1)%Q; c_max_temp_c := Some (25 # 1)%Q;
     c_min_rh := None; c_max_rh := Some (70 # 1)%Q |}.

Definition rabi : Season := {| s_id := Some "rabi"; s_name_bn := Some "Rabi" |}.
Definition nameless : Season := {| s_id := Some "s0"; s_name_bn := None |}.

Definition rust : Disease :=
  {| d_id := Some "dis:rust"; d_name_bn := None; d_name_en := Some "Rust";
     d_notes := None |}.
Definition blast : Disease :=
  {| d_id := Some "dis:blast"; d_name_bn := Some "ব্লাস্ট"; d_name_en := Some "Blast";
     d_notes := None |}.

Definition farm : Graph Q :=
  {| crops := [wheat];
     alias_of := [];
     suitable_in := [(wheat, nameless); (wheat, rabi)];
     cultivated_in := [];
     suffer_from := [(wheat, rust); (wheat, blast)];
     fulltext := fun _ => [];
     toLower := Scenario.lower;
     collate_le := String.leb |}.

(** A row of the vector store. *)
Definition chunk (id text : string) (sim : Q) : row Q :=
  {[ "chunk_id" := VStr id; "source" := VStr "handbook"; "text" := VStr text;
     "cosine_sim" := VFloat sim ]}.

Definition shelf : list (row Q) :=
  [chunk "c1" "a b c" (9 # 10)%Q; chunk "c2" "a b d" (85 # 100)%Q;
   chunk "c3" "x y z" (5 # 10)%Q].

(** The vector store holds three chunks; the generator fails at each call. *)
Definition stocked : World Q :=
  {| str_lower := Scenario.lower; normalize_NFC := fun s => s; float_str := Scenario.q_str;
     VEC_USER_format := fun question passages => question ++ newline ++ passages;
     VEC_SYS := "system";
     graph := farm;
     run_fails := fun _ _ => false;
     HAS_DB := true; connect_fails := false;
     execute := fun _ _ _ _ => Ok shelf;
     encode := fun _ => Ok [];
     pipe_load_fails := false;
     pipe := fun _ => inl "out of memory" |}.

(** The same world without the driver modules of the vector store. *)
Definition offline : World Q :=
  {| str_lower := Scenario.lower; normalize_NFC := fun s => s; float_str := Scenario.q_str;
     VEC_USER_format := fun question passages => question ++ newline ++ passages;
     VEC_SYS := "system";
     graph := farm;
     run_fails := fun _ _ => false;
     HAS_DB := false; connect_fails := false;
     execute := fun _ _ _ _ => Ok shelf;
     encode := fun _ => Ok [];
     pipe_load_fails := false;
     pipe := fun _ => inl "out of memory" |}.

(** The same world with an embedding model that fails. *)
Definition mute : World Q :=
  {| str_lower := Scenario.lower; normalize_NFC := fun s => s; float_str := Scenario.q_str;
     VEC_USER_format := fun question passages => question ++ newline ++ passages;
     VEC_SYS := "system";
     graph := farm;
     run_fails := fun _ _ => false;
     HAS_DB := true; connect_fails := false;
     execute := fun _ _ _ _ => Ok shelf;
     encode := fun _ => Raise ModelError;
     pipe_load_fails := false;
     pipe := fun _ => inl "out of memory" |}.

(** The same world without the full-text index: its query fails. *)
Definition no_index : World Q :=
  {| str_lower := Scenario.lower; normalize_NFC := fun s => s; float_str := Scenario.q_str;
     VEC_USER_format := fun question passages => question ++ newline ++ passages;
     VEC_SYS := "system";
     graph := farm;
     run_fails := fun c _ => bool_decide (c = cy_ft);
     HAS_DB := true; connect_fails := false;
     execute := fun _ _ _ _ => Ok shelf;
     encode := fun _ => Ok [];
     pipe_load_fails := false;
     pipe := fun _ => inl "out of memory" |}.

(** A candidate without a text. *)
Definition textless : row Q := {[ "cosine_sim" := VFloat (1 # 2)%Q ]}.

(** The answer dictionary for the question "wheat". *)
Definition wheat_answer : graph_res Q :=
  match snd (graph_answer_for_crop stocked "wheat") with
  | inr r => r
  | inl _ => crop_not_found
  end.

(** Three candidates without a common word.  The similarities of the second
    and the third differ by one unit in the last place, and their products
    with the weight 0.7 round to the same binary64 value. *)
Definition near_s : row float := Scenario.candidate "s" 0x1.ccccccccccccdp-1%float.
Definition near_a : row float := Scenario.candidate "a" 0x1.999999999999dp-1%float.
Definition near_b : row float := Scenario.candidate "b" 0x1.999999999999ep-1%float.

(** The same candidates and the same weight as exact rationals. *)
Definition exact_s : row Q := Scenario.candidate "s" (0x1ccccccccccccd # 0x20000000000000)%Q.
Definition exact_a : row Q := Scenario.candidate "a" (0x1999999999999d # 0x20000000000000)%Q.
Definition exact_b : row Q := Scenario.candidate "b" (0x1999999999999e # 0x20000000000000)%Q.
Definition exact_lambda : Q := (0x16666666666666 # 0x20000000000000)%Q.

End Sample.


(** ** Predicates used in the statements *)

Definition unit_interval (x : Q) : Prop := (0 <= x <= 1)%Q.

(** A candidate as the vector store delivers it: a text and a similarity
    of absolute value at most [B] (1 for a cosine similarity). *)
Definition bounded_candidate (B : Q) (h : row Q) : bool :=
  match h !! "text", h !! "cosine_sim" with
  | Some (VStr _), Some (VFloat x) => Qle_bool (- B) x && Qle_bool x B
  | Some (VStr _), Some (VInt z) => Qle_bool (- B) (inject_Z z) && Qle_bool (inject_Z z) B
  | _, _ => false
  end.

(** [x] occurs in [s] as a contiguous substring. *)
Definition occurs_in (x s : string) : Prop := exists l r, s = l ++ x ++ r.

(** Some keyword of the set occurs in the lower-cased question. *)
Definition matches {F} (W : World F) (keywords : list string) (q : string) : Prop :=
  exists x, x ∈ keywords /\ occurs_in x (str_lower W q).

(** The classifier in the words of the specification: an ordered list of
    (category, keyword set), evaluated first-match-wins. *)
Definition priority : list (intent * list string) :=
  [(disease, DISEASE); (climate, CLIMATE); (season, SEASON); (fertilizer, FERT)].

Definition classify {F} (W : World F) (q : string) : option intent :=
  fst <$> List.find (fun e => has (str_lower W q) (snd e)) priority.

(** The router with the disease branch removed. *)
Definition answer_without_disease_branch {F} `{PyFloat F} (W : World F)
    (question : string) (k : Z) : M F string :=
  let i := _detect_intent W question in
  bind (resolve_crop W question) (fun crop =>
    if dict_truthy crop then overview_then_fallback W question k i
    else vector_fallback W question k i).

(** A call into the text-generation collaborator. *)
Definition is_generate {F} (ev : event F) : bool :=
  match ev with
  | EvGenerate _ => true
  | _ => false
  end.

(** The computation never calls the text-generation collaborator. *)
Definition no_generate {F A} (m : M F A) : Prop :=
  Forall (fun ev => is_generate ev = false) (fst m).

(** The text that opens the temperature bullet, and the bullets it opens. *)
Definition temperature_label : string := "তাপমাত্রা: ".

Definition is_temperature_bullet (b : string) : bool := String.prefix temperature_label b.

(** The climate row holds a lower or an upper temperature bound. *)
Definition has_temperature {F} (climate : option (row F)) : Prop :=
  exists cl, climate = Some cl
    /\ (get cl "min_temp_c" <> VNone \/ get cl "max_temp_c" <> VNone).

(** The shapes of the values and rows that the graph queries return. *)
Definition is_VStr {F} (v : value F) : Prop := exists s, v = VStr s.
Definition is_crop_row {F} (r : row F) : Prop := exists c, r = crop_row c.
Definition is_season_row {F} (r : row F) : Prop := exists s, r = season_row s.
Definition is_disease_row {F} (r : row F) : Prop := exists d, r = disease_row d.

(** A bullet that does not open with the temperature label. *)
Definition not_temperature (b : string) : Prop := is_temperature_bullet b = false.

(** The store answers every query. *)
Definition store_up {F} (W : World F) : Prop :=
  forall c p, run_fails W c p = false.

(** *** The resolver in the words of the specification

    Each tier is a computation that yields a crop row or nothing; the tiers
    are tried in order by a small combinator that stops at the first hit. *)

Section Tiers.
Context {F : Type} `{PyFloat F} (W : World F).

Definition exact_tier (q : string) : M F (option (row F)) :=
  bind (_run W cy_exact (VStr q)) (fun rows => ret (head rows)).

Definition ft_tier (q : string) : M F (option (row F)) :=
  bind (_run W cy_ft (VStr q)) (fun rows => ret (head rows)).

Definition contains_tier (q : string) : M F (option (row F)) :=
  bind (_run W cy_contains (VStr q)) (fun rows => ret (head rows)).

Definition manual_tier (q : string) : M F (option (row F)) :=
  manual_alias_loop W q _MANUAL_ALIASES.

Fixpoint first_hit (tiers : list (M F (option (row F)))) : M F (option (row F)) :=
  match tiers with
  | [] => ret None
  | t :: rest =>
      bind t (fun hit =>
        match hit with
        | Some r => ret (Some r)
        | None => first_hit rest
        end)
  end.

Definition tiers (q : string) : list (M F (option (row F))) :=
  [exact_tier q; alias_tier W q; ft_tier q; contains_tier q; manual_tier q].

End Tiers.

(** *** Selections and scores of the reranker *)

(** [out] lists the candidates found at the positions [idx], in that order. *)
Definition selection {A} (hits : list A) (idx : list nat) (out : list A) : Prop :=
  Forall2 (fun i h => hits !! i = Some h) idx out.

(** The score that one pass of the selection loop gives candidate [j]:
    [lambda_mult*rel - (1-lambda_mult)*red]. *)
Definition score_at {F} `{PyFloat F} (lambda_mult : F) (toks : list (gset string))
    (selected_idx : list nat) (j : nat) (h : row F) : res F :=
  rbind (getitem h "cosine_sim") (fun relv =>
  rbind (redundancy toks selected_idx j) (fun red =>
  rbind (as_number relv) (fun rel =>
  Ok (mmr_score lambda_mult rel red)))).

(** [j] is the pick of a pass over the candidates outside [sel]: its score is
    above the sentinel, no candidate outside [sel] scores higher, and none
    before [j] scores as high. *)
Definition greedy_pick (lam : Q) (toks : list (gset string)) (hits : list (row Q))
    (sel : list nat) (j : nat) : Prop :=
  (j ∉ sel)
  /\ exists h s, hits !! j = Some h /\ score_at lam toks sel j h = Ok s
       /\ (f_sentinel < s)%Q
       /\ forall j' h', hits !! j' = Some h' -> j' ∉ sel ->
            exists s', score_at lam toks sel j' h' = Ok s'
              /\ (s' <= s)%Q /\ (j' < j -> (s' < s)%Q).

(** [i] is the position that [np.argmax] returns for [xs]: the first one
    holding the maximum. *)
Definition first_maximum (xs : list Q) (i : nat) : Prop :=
  exists x, xs !! i = Some x
    /\ forall j y, xs !! j = Some y -> (y <= x)%Q /\ (j < i -> (y < x)%Q).

(** *** Comparisons of computed scores *)

(** The numbers of an arithmetic are the values that equal themselves: every
    rational, and every binary64 value except NaN. *)
Definition number {F} `{PyFloat F} (x : F) : Prop := f_eqb x x = true.

(** What the selection loop needs of [<]: on numbers it is a strict weak
    order, and the sentinel is a number. *)
Class FloatOrder (F : Type) `{PyFloat F} := {
  f_ltb_asym : forall a b : F, f_ltb a b = true -> f_ltb b a = false;
  f_ltb_between : forall a b c : F,
    number b -> f_ltb a c = true -> f_ltb a b = true \/ f_ltb b c = true;
  f_sentinel_number : number f_sentinel;
}.

(** A binary64 value of the specification that is not NaN. *)
Definition sf_number (x : SpecFloat.spec_float) : bool :=
  match x with
  | SpecFloat.S754_nan => false
  | _ => true
  end.

(** The scores that a pass of the selection loop computes: one for every
    candidate outside [sel]. *)
Definition pass_scores {F} `{PyFloat F} (lambda_mult : F) (toks : list (gset string))
    (hits : list (row F)) (selected_idx : list nat) : list F :=
  omap (fun jh : nat * row F =>
          if bool_decide (fst jh ∈ selected_idx) then None
          else match score_at lambda_mult toks selected_idx (fst jh) (snd jh) with
               | inr s => Some s
               | inl _ => None
               end)
       (imap pair hits).

(** [j] is the pick of a pass over the candidates outside [sel], in the
    arithmetic of the run: its computed score compares above the sentinel, no
    computed score of a candidate outside [sel] compares above it, and the
    score of every such candidate before [j] compares below it. *)
Definition pass_pick {F} `{PyFloat F} (lam : F) (toks : list (gset string))
    (hits : list (row F)) (sel : list nat) (j : nat) : Prop :=
  (j ∉ sel)
  /\ exists h s, hits !! j = Some h /\ score_at lam toks sel j h = Ok s
       /\ f_ltb f_sentinel s = true
       /\ forall j' h', hits !! j' = Some h' -> j' ∉ sel ->
            exists s', score_at lam toks sel j' h' = Ok s'
              /\ f_ltb s s' = false /\ (j' < j -> f_ltb s' s = true).

(** A candidate as the vector store returns it: its similarity is a float
    and a number. *)
Definition scored_row {F} `{PyFloat F} (h : row F) : Prop :=
  exists x, h !! "cosine_sim" = Some (VFloat x) /\ number x.

(** *** Calls *)

(** A query sent to the graph store. *)
Definition is_cypher {F} (ev : event F) : bool :=
  match ev with
  | EvCypher _ _ => true
  | _ => false
  end.

(** Every call of the computation satisfies [p]. *)
Definition calls_all {F A} (p : event F -> bool) (m : M F A) : Prop :=
  Forall (fun ev => p ev = true) (fst m).

(** The calls of the vector fallback of [answer], when it runs to its end
    with the prompt [prompt]. *)
Definition fallback_calls {F} (W : World F) (question : string) (k : Z)
    (i : option intent) (prompt : string) : list (event F) :=
  [EvEncode ("query: " ++ Str.strip (question ++ " " ++ aug i))]
  ++ (if HAS_DB W then [EvConnect] else [])
  ++ [EvSql (Z.max 32 (k * 8)) VNone (VStr "bn"); EvGenerate prompt].

(** *** Bullets *)

(** The texts that open the other bullets. *)
Definition season_label : string := "উপযোগী মৌসুম: ".
Definition humidity_label : string := "আপেক্ষিক আর্দ্রতা: ".
Definition disease_label : string := "রোগ: ".
Definition location_label : string := "চাষের জেলা (উদাহরণ): ".

Definition opens_with (label b : string) : Prop := String.prefix label b = true.

(** The climate row holds a lower or an upper bound of the relative
    humidity. *)
Definition has_humidity {F} (climate : option (row F)) : Prop :=
  exists cl, climate = Some cl
    /\ (get cl "min_rh" <> VNone \/ get cl "max_rh" <> VNone).

(** The name under which a disease is listed: the Bangla name, else the
    English one; diseases with neither are not listed. *)
Definition disease_display (d : Disease) : option string :=
  match d_name_bn d with
  | Some n => if String.eqb n "" then
                match d_name_en d with
                | Some e => if String.eqb e "" then None else Some e
                | None => None
                end
              else Some n
  | None => match d_name_en d with
            | Some e => if String.eqb e "" then None else Some e
            | None => None
            end
  end.

(** The name under which a season is listed, if it has one, and its label. *)
Definition season_display (s : Season) : option string :=
  match s_name_bn s with
  | Some n => if String.eqb n "" then None else Some (default n (Str.assoc n _SEASON_MAP))
  | None => None
  end.

(** An entry that [_as_bullets] drops: empty, or made of whitespace. *)
Definition blank (b : string) : Prop := b = "" \/ Str.strip b = "".

(** *** Locations *)





(** *** Bytes and digits *)

(** The bytes of a text; a text of ASCII characters; an ASCII digit. *)
Definition bytes (s : string) : list ascii := list_ascii_of_string s.

Definition ascii_only (s : string) : Prop :=
  Forall (fun c => (N_of_ascii c < 128)%N) (bytes s).

Definition is_ascii_digit (c : ascii) : bool :=
  ((48 <=? N_of_ascii c) && (N_of_ascii c <=? 57))%N.

(** The text made of one byte. *)
Definition one (c : ascii) : string := String c "".

(** The number of line breaks in a text. *)
Definition line_breaks (s : string) : nat :=
  length (List.filter (Ascii.eqb (ascii_of_N 10)) (bytes s)).

(** *** The passages block *)

(** The text of a field of a hit in the prompt: empty when the hit has no
    such column. *)
Definition field {F} (W : World F) (h : row F) (k : string) : string :=
  py_str W (default (VStr "") (h !! k)).

(** The line of the passages block for the hit [h], numbered [n]. *)
Definition passage_line {F} (W : World F) (n : Z) (h : row F) : string :=
  "[" ++ py_str W (VInt n) ++ "] " ++ field W h "text" ++ newline
    ++ "(Source: " ++ field W h "source" ++ ")".

(** * Properties *)

(** ** Results *)

Lemma rmapM_length {A B} (f : A -> res B) (l : list A) (ys : list B) :
  rmapM f l = Ok ys -> length ys = length l.
Proof.
  revert ys. induction l as [|x l IH]; intros ys; simpl.
  - intros [= <-]. reflexivity.
  - destruct (f x) as [e|y]; simpl; [discriminate|].
    destruct (rmapM f l) as [e|zs]; simpl; [discriminate|].
    intros [= <-]. simpl. f_equal. apply IH. reflexivity.
Qed.

Lemma rmapM_lookup {A B} (f : A -> res B) (l : list A) (ys : list B) (i : nat) (y : B) :
  rmapM f l = Ok ys -> ys !! i = Some y -> exists x, l !! i = Some x /\ f x = Ok y.
Proof.
  revert ys i. induction l as [|x l IH]; intros ys i; simpl.
  - intros [= <-]. rewrite lookup_nil. discriminate.
  - destruct (f x) as [e|y0] eqn:Hx; simpl; [discriminate|].
    destruct (rmapM f l) as [e|zs]; simpl; [discriminate|].
    intros [= <-]. destruct i as [|i]; simpl.
    + intros [= <-]. exists x. split; [reflexivity|exact Hx].
    + intros Hi. apply (IH zs i); [reflexivity|exact Hi].
Qed.

Lemma rmapM_total {A B} (f : A -> res B) (l : list A) :
  Forall (fun x => exists y, f x = Ok y) l -> exists ys, rmapM f l = Ok ys.
Proof.
  induction 1 as [|x l [y Hy] _ [ys Hys]]; simpl.
  - exists []. reflexivity.
  - exists (y :: ys). rewrite Hy. simpl. rewrite Hys. reflexivity.
Qed.

Lemma index_lt {A} (l : list A) (i : nat) :
  i < length l -> exists x, index l i = Ok x /\ l !! i = Some x.
Proof.
  intros Hi. destruct (lookup_lt_is_Some_2 l i Hi) as [x Hx].
  exists x. unfold index. rewrite Hx. split; reflexivity.
Qed.

(** Fewer than [n] indices cannot cover [0 .. n-1]. *)
Lemma unselected_exists (n : nat) (l : list nat) :
  length l < n -> exists i, i < n /\ i ∉ l.
Proof.
  intros Hlen.
  destruct (decide (Forall (fun i => i ∈ l) (seq 0 n))) as [Hall|Hnot].
  - exfalso.
    assert (length (seq 0 n) <= length l) as Hle.
    { apply NoDup_incl_length; [apply List.seq_NoDup|].
      intros i Hi. rewrite Forall_forall in Hall.
      apply list_elem_of_In. apply Hall. apply list_elem_of_In. exact Hi. }
    rewrite length_seq in Hle. lia.
  - apply not_Forall_Exists in Hnot; [|intros i; apply _].
    apply Exists_exists in Hnot as (i & Hi & Hni).
    exists i. split; [|exact Hni].
    apply list_elem_of_In, in_seq in Hi. lia.
Qed.

(** ** Maximal marginal relevance over exact rationals *)

Lemma Qltb_lt (a b : Q) : Qltb a b = true <-> (a < b)%Q.
Proof.
  unfold Qltb. rewrite negb_true_iff, <- not_true_iff_false, Qle_bool_iff.
  split; [apply Qnot_le_lt|apply Qlt_not_le].
Qed.

Lemma Qltb_ge (a b : Q) : Qltb a b = false <-> (b <= a)%Q.
Proof.
  unfold Qltb. rewrite negb_false_iff, Qle_bool_iff. reflexivity.
Qed.

Lemma or_1_pos (n : nat) : 1 <= or_1 n.
Proof. destruct n; simpl; lia. Qed.

Lemma or_1_ge (n : nat) : n <= or_1 n.
Proof. destruct n; simpl; lia. Qed.

Lemma ratio_unit (i u : nat) :
  i <= u -> 1 <= u -> unit_interval (inject_Z (Z.of_nat i) / inject_Z (Z.of_nat u))%Q.
Proof.
  intros Hiu Hu. unfold unit_interval.
  assert (0 < inject_Z (Z.of_nat u))%Q as Hpos.
  { change 0%Q with (inject_Z 0). rewrite <- Zlt_Qlt. lia. }
  split.
  - apply Qle_shift_div_l; [exact Hpos|]. rewrite Qmult_0_l.
    change 0%Q with (inject_Z 0). rewrite <- Zle_Qle. lia.
  - apply Qle_shift_div_r; [exact Hpos|]. rewrite Qmult_1_l.
    rewrite <- Zle_Qle. lia.
Qed.

Lemma jaccard_unit (a b : gset string) : unit_interval (jaccard (F:=Q) a b).
Proof.
  unfold jaccard. simpl. apply ratio_unit; [|apply or_1_pos].
  etransitivity; [|apply or_1_ge].
  apply subseteq_size. etransitivity; [apply intersection_subseteq_l|apply union_subseteq_l].
Qed.

Lemma jaccard_empty_union (a b : gset string) :
  size (a ∪ b) = 0 -> (jaccard (F:=Q) a b == 0)%Q.
Proof.
  intros Hu. unfold jaccard. simpl.
  assert (size (a ∩ b) = 0) as ->.
  { assert (size (a ∩ b) <= size (a ∪ b)) as Hle.
    { apply subseteq_size.
      etransitivity; [apply intersection_subseteq_l|apply union_subseteq_l]. }
    lia. }
  rewrite Hu. reflexivity.
Qed.

Lemma max_from_elem (P : Q -> Prop) (best : Q) (xs : list Q) :
  P best -> Forall P xs -> P (max_from best xs).
Proof.
  revert best. induction xs as [|x xs IH]; intros best Hb Hxs; simpl; [exact Hb|].
  inversion Hxs; subst. apply IH; [|assumption].
  destruct (Qltb best x); assumption.
Qed.

Lemma max_default_elem (P : Q -> Prop) (d : Q) (xs : list Q) :
  P d -> Forall P xs -> P (max_default xs d).
Proof.
  intros Hd Hxs. destruct xs as [|x xs]; simpl; [exact Hd|].
  inversion Hxs; subst. apply max_from_elem; assumption.
Qed.

Lemma redundancy_unit (toks : list (gset string)) (selected_idx : list nat) (j : nat) :
  j < length toks -> Forall (fun i => i < length toks) selected_idx ->
  exists red, redundancy (F:=Q) toks selected_idx j = Ok red /\ unit_interval red.
Proof.
  intros Hj Hsel. unfold redundancy.
  destruct (index_lt toks j Hj) as (tj & -> & _). cbn [rbind].
  assert (exists js, rmapM (fun si => rbind (index toks si) (fun tsi => Ok (jaccard (F:=Q) tj tsi)))
                       selected_idx = Ok js /\ Forall unit_interval js) as (js & -> & Hjs).
  { clear Hj. induction Hsel as [|si sel Hsi _ (js & IH & Hjs)]; cbn [rmapM rbind].
    - exists []. split; [reflexivity|constructor].
    - destruct (index_lt toks si Hsi) as (tsi & -> & _). cbn [rbind]. rewrite IH. cbn [rbind].
      eexists. split; [reflexivity|]. constructor; [apply jaccard_unit|exact Hjs]. }
  cbn [rbind]. eexists. split; [reflexivity|].
  apply max_default_elem; [|exact Hjs]. unfold unit_interval. cbn. unfold inject_Z. lra.
Qed.

Lemma argmax_from_lt (xs : list Q) (best_i i : nat) (best : Q) :
  best_i < i -> argmax_from best_i best i xs < i + length xs.
Proof.
  revert best_i i best. induction xs as [|x xs IH]; intros best_i i best Hlt; simpl; [lia|].
  destruct (Qltb best x).
  - specialize (IH i (S i) x ltac:(lia)). lia.
  - specialize (IH best_i (S i) best ltac:(lia)). lia.
Qed.

Lemma np_argmax_lt (xs : list Q) :
  xs <> [] -> exists idx, np_argmax xs = Ok idx /\ idx < length xs.
Proof.
  destruct xs as [|x xs]; [congruence|]. intros _.
  eexists. split; [reflexivity|]. simpl.
  pose proof (argmax_from_lt xs 0 1 x ltac:(lia)). lia.
Qed.

Lemma mmr_rerank_noop (qvec : list Q) (hits : list (row Q)) (lam : Q) (k : Z) :
  (Z.of_nat (length hits) <= k)%Z -> mmr_rerank qvec hits lam k = Ok hits.
Proof.
  intros Hle. unfold mmr_rerank. apply Z.leb_le in Hle. rewrite Hle. reflexivity.
Qed.

(** The selection loop, for a weight [lam] in [0, 1] and similarities of
    absolute value at most [B], where [B] is below the sentinel's 1e9. *)
Section Rerank.
Variables lam B : Q.
Hypothesis Hlam : (0 <= lam <= 1)%Q.
Hypothesis HB : (B < 1000000000)%Q.

Lemma score_above_sentinel (rel red : Q) :
  (- B <= rel <= B)%Q -> unit_interval red ->
  Qltb f_sentinel (mmr_score lam rel red) = true.
Proof.
  destruct Hlam as [Hl0 Hl1]. intros [Hr0 Hr1] [Hd0 Hd1]. apply Qltb_lt.
  unfold mmr_score. simpl. change (inject_Z 1) with 1%Q.
  assert (- (lam * B) <= lam * rel)%Q by nra.
  assert ((1 - lam) * red <= 1 - lam)%Q by nra.
  assert (0 <= lam * (1000000000 - B))%Q by nra.
  destruct (Qlt_le_dec lam 1) as [Hlt|Hge]; [lra|].
  assert (0 < lam * (1000000000 - B))%Q by nra.
  lra.
Qed.

Lemma bounded_candidate_sim (h : row Q) :
  bounded_candidate B h = true ->
  exists v x, getitem h "cosine_sim" = Ok v /\ as_number v = Ok x /\ (- B <= x <= B)%Q.
Proof.
  unfold bounded_candidate, getitem.
  destruct (h !! "text") as [[| | |t]|]; try discriminate.
  destruct (h !! "cosine_sim") as [[|z|x|]|]; try discriminate.
  - rewrite andb_true_iff, !Qle_bool_iff. intros [H1 H2].
    exists (VInt z), (inject_Z z). repeat split; assumption.
  - rewrite andb_true_iff, !Qle_bool_iff. intros [H1 H2].
    exists (VFloat x), x. repeat split; assumption.
Qed.

Lemma bounded_candidate_tokens (h : row Q) :
  bounded_candidate B h = true -> exists t, token_set h = Ok t.
Proof.
  unfold bounded_candidate, token_set, getitem.
  destruct (h !! "text") as [[| | |t]|]; try discriminate.
  intros _. simpl. eexists. reflexivity.
Qed.

Lemma bounded_candidate_cosine (h : row Q) :
  bounded_candidate B h = true -> exists x, cosine_sim (F:=Q) h = Ok x.
Proof.
  intros Hh. destruct (bounded_candidate_sim h Hh) as (v & x & Hv & Hx & _).
  exists x. unfold cosine_sim. rewrite Hv. simpl. exact Hx.
Qed.

(** One scan of the candidates: it cannot fail, and it picks an unselected
    index as soon as one is in range. *)
Lemma mmr_scan_total (toks : list (gset string)) (selected_idx : list nat)
    (hs : list (row Q)) (j : nat) (best_j : option nat) (best_score : Q) :
  forallb (bounded_candidate B) hs = true ->
  j + length hs <= length toks ->
  Forall (fun i => i < length toks) selected_idx ->
  (best_j = None -> best_score = f_sentinel) ->
  exists r, mmr_scan lam toks selected_idx j hs best_j best_score = Ok r
    /\ (is_Some best_j -> is_Some r)
    /\ ((exists i, j <= i < j + length hs /\ i ∉ selected_idx) -> is_Some r)
    /\ (forall b, r = Some b ->
          best_j = Some b \/ (j <= b < j + length hs /\ b ∉ selected_idx)).
Proof.
  revert j best_j best_score.
  induction hs as [|h hs IH]; intros j best_j best_score Hwf Hlen Hsel Hbest; cbn [mmr_scan].
  - exists best_j. split; [reflexivity|]. split; [tauto|]. split.
    + intros (i & Hi & _). simpl in Hi. lia.
    + intros b ->. left. reflexivity.
  - simpl in Hwf, Hlen. cbn [length]. apply andb_true_iff in Hwf as [Hh Hwf].
    case_bool_decide as Hin.
    + destruct (IH (S j) best_j best_score Hwf ltac:(lia) Hsel Hbest)
        as (r & Hr & H1 & H2 & H3).
      exists r. split; [exact Hr|]. split; [exact H1|]. split.
      * intros (i & Hi & Hni). apply H2. exists i. split; [|exact Hni].
        assert (i <> j) by (intros ->; contradiction). lia.
      * intros b Hb. destruct (H3 b Hb) as [?|[? ?]]; [left; assumption|right; split; [lia|assumption]].
    + destruct (bounded_candidate_sim h Hh) as (v & rel & -> & Hrel & Hbound). cbn [rbind].
      destruct (redundancy_unit toks selected_idx j ltac:(lia) Hsel) as (red & -> & Hred).
      cbn [rbind]. rewrite Hrel. cbn [rbind].
      change (f_ltb best_score (mmr_score lam rel red)) with
        (Qltb best_score (mmr_score lam rel red)).
      pose proof (score_above_sentinel rel red Hbound Hred) as Hscore.
      destruct (Qltb best_score (mmr_score lam rel red)) eqn:Hcmp.
      * destruct (IH (S j) (Some j) (mmr_score lam rel red) Hwf ltac:(lia) Hsel ltac:(discriminate))
          as (r & Hr & H1 & H2 & H3).
        exists r. split; [exact Hr|].
        assert (is_Some r) as Hsome by (apply H1; eexists; reflexivity).
        split; [intros _; exact Hsome|]. split; [intros _; exact Hsome|].
        intros b Hb. right. destruct (H3 b Hb) as [Heq|[Hrange Hnb]].
        -- injection Heq as <-. split; [lia|exact Hin].
        -- split; [lia|exact Hnb].
      * destruct best_j as [b0|].
        ++ destruct (IH (S j) (Some b0) best_score Hwf ltac:(lia) Hsel ltac:(discriminate))
             as (r & Hr & H1 & H2 & H3).
           exists r. split; [exact Hr|].
           assert (is_Some r) as Hsome by (apply H1; eexists; reflexivity).
           split; [intros _; exact Hsome|]. split; [intros _; exact Hsome|].
           intros b Hb. destruct (H3 b Hb) as [?|[? ?]]; [left; assumption|right; split; [lia|assumption]].
        ++ rewrite (Hbest eq_refl) in Hcmp. congruence.
Qed.

Lemma mmr_while_total (room : nat) (k : Z) (hits : list (row Q))
    (toks : list (gset string)) (selected : list (row Q)) (selected_idx : list nat) :
  forallb (bounded_candidate B) hits = true ->
  length toks = length hits ->
  length selected = length selected_idx ->
  Forall (fun i => i < length toks) selected_idx ->
  length selected + room = length hits ->
  (Z.of_nat (length selected) <= k)%Z ->
  exists out, mmr_while room lam k hits toks selected selected_idx = Ok out
    /\ Z.of_nat (length out) = Z.min k (Z.of_nat (length hits)).
Proof.
  intros Hwf Htoks. revert selected selected_idx.
  induction room as [|room IH]; intros selected selected_idx Hlen Hsel Hroom Hk; cbn [mmr_while].
  - exists selected. split; [reflexivity|]. lia.
  - destruct (Z.of_nat (length selected) <? k)%Z eqn:Hlt.
    + apply Z.ltb_lt in Hlt.
      destruct (mmr_scan_total toks selected_idx hits 0 None f_sentinel Hwf
                  ltac:(lia) Hsel ltac:(reflexivity)) as (r & -> & _ & Hfound & Hwhere).
      cbn [rbind].
      destruct (unselected_exists (length hits) selected_idx ltac:(lia)) as (i & Hi & Hni).
      destruct Hfound as [j ->]; [exists i; split; [lia|exact Hni]|].
      destruct (Hwhere j eq_refl) as [?|[Hj Hnj]]; [discriminate|].
      destruct (index_lt hits j ltac:(lia)) as (h & -> & _). cbn [rbind].
      apply IH.
      * rewrite !length_app. simpl. lia.
      * apply Forall_app. split; [exact Hsel|]. constructor; [lia|constructor].
      * rewrite length_app. simpl. lia.
      * rewrite length_app. simpl. lia.
    + apply Z.ltb_ge in Hlt. exists selected. split; [reflexivity|]. lia.
Qed.

Lemma mmr_rerank_total (qvec : list Q) (hits : list (row Q)) (k : Z) :
  (1 <= k)%Z -> forallb (bounded_candidate B) hits = true ->
  exists out, mmr_rerank qvec hits lam k = Ok out
    /\ Z.of_nat (length out) = Z.min k (Z.of_nat (length hits)).
Proof.
  intros Hk Hwf. unfold mmr_rerank.
  destruct (Z.of_nat (length hits) <=? k)%Z eqn:Hle.
  - apply Z.leb_le in Hle. exists hits. split; [reflexivity|lia].
  - apply Z.leb_gt in Hle.
    assert (Forall (fun h => bounded_candidate B h = true) hits) as Hall.
    { apply Forall_forall. intros h Hh. rewrite forallb_forall in Hwf.
      apply Hwf. apply list_elem_of_In. exact Hh. }
    destruct (rmapM_total token_set hits) as (toks & Htoks).
    { eapply Forall_impl; [exact Hall|]. intros h Hh. apply bounded_candidate_tokens. exact Hh. }
    destruct (rmapM_total cosine_sim hits) as (sims & Hsims).
    { eapply Forall_impl; [exact Hall|]. intros h Hh. apply bounded_candidate_cosine. exact Hh. }
    rewrite Htoks. cbn [rbind]. rewrite Hsims. cbn [rbind].
    apply rmapM_length in Htoks, Hsims.
    destruct (np_argmax_lt sims) as (idx & -> & Hidx).
    { intros ->. simpl in Hsims. lia. }
    cbn [rbind].
    destruct (index_lt hits idx ltac:(lia)) as (h0 & -> & _). cbn [rbind].
    apply mmr_while_total; try assumption; simpl; try lia.
    constructor; [lia|constructor].
Qed.

End Rerank.

(** C1, as stated: in the scenario the second selection is candidate 3.
    The code selects candidate 2, which is another candidate. *)
Lemma C1_second_pick_is_candidate_2 :
  rbind (mmr_rerank [] [Scenario.c1; Scenario.c2; Scenario.c3] (7 # 10)%Q 2)
        (fun out => index out 1) = Ok Scenario.c2
  /\ Scenario.c2 !! "text" <> Scenario.c3 !! "text".
Proof.
  split; [vm_compute; reflexivity|].
  vm_compute. discriminate.
Qed.

(** C1, amended: with k = 2 and lambda = 0.7 the scenario selects candidate 1
    and then candidate 2, in exact and in binary64 arithmetic.  Candidate 2
    shares 2 of 4 tokens with candidate 1 and candidate 3 shares none, and the
    penalised score of candidate 2, 0.445, still exceeds the 0.35 of
    candidate 3. *)
Theorem C1_scenario_selects_candidate_2 :
  mmr_rerank [] [Scenario.c1; Scenario.c2; Scenario.c3] (7 # 10)%Q 2
    = Ok [Scenario.c1; Scenario.c2]
  /\ mmr_rerank [] [Scenario.c1_f64; Scenario.c2_f64; Scenario.c3_f64] f_default_lambda 2
    = Ok [Scenario.c1_f64; Scenario.c2_f64]
  /\ (jaccard (F:=Q) (list_to_set (Str.split "a b d")) (list_to_set (Str.split "a b c")) == 2 # 4)%Q
  /\ (jaccard (F:=Q) (list_to_set (Str.split "x y z")) (list_to_set (Str.split "a b c")) == 0 # 6)%Q
  /\ (mmr_score (7 # 10) (85 # 100) (2 # 4) == 445 # 1000)%Q
  /\ (mmr_score (7 # 10) (5 # 10) (0 # 6) == 35 # 100)%Q.
Proof.
  repeat split; vm_compute; reflexivity.
Qed.

(** C3, as stated: for every candidate list and every k >= 1 the result has
    min(k, n) items.  Three candidates whose similarity lies below the
    sentinel make the selection loop find no candidate: with k = 2 the call
    raises instead of returning two items. *)
Lemma C3_no_result_below_sentinel :
  mmr_rerank [] [Scenario.far "a"; Scenario.far "b"; Scenario.far "c"] (7 # 10)%Q 2
  = Raise TypeError.
Proof. vm_compute. reflexivity. Qed.

(** C3, amended: for every k >= 1, a candidate list with at most k entries is
    returned unchanged, in its order; and for candidates that carry a text and
    a similarity of absolute value at most B < 1e9 (B = 1 for cosine
    similarities), with lambda in [0, 1], the result has exactly min(k, n)
    items. *)
Theorem C3_rerank_size (qvec : list Q) (hits : list (row Q)) (lam B : Q) (k : Z) :
  (1 <= k)%Z ->
  ((Z.of_nat (length hits) <= k)%Z -> mmr_rerank qvec hits lam k = Ok hits)
  /\ ((0 <= lam <= 1)%Q -> (B < 1000000000)%Q ->
      forallb (bounded_candidate B) hits = true ->
      exists out, mmr_rerank qvec hits lam k = Ok out
        /\ Z.of_nat (length out) = Z.min k (Z.of_nat (length hits))).
Proof.
  intros Hk. split.
  - apply mmr_rerank_noop.
  - intros Hlam HB Hwf. apply (mmr_rerank_total lam B); assumption.
Qed.

(** The two halves of C3 on the scenario: two candidates with k = 2 come back
    unchanged, three candidates with k = 2 give two items. *)
Lemma C3_rerank_size_witness :
  mmr_rerank [] [Scenario.c1; Scenario.c2] (7 # 10)%Q 2 = Ok [Scenario.c1; Scenario.c2]
  /\ exists out,
       mmr_rerank [] [Scenario.c1; Scenario.c2; Scenario.c3] (7 # 10)%Q 2 = Ok out
       /\ Z.of_nat (length out) = Z.min 2 3.
Proof.
  split.
  - apply (C3_rerank_size [] [Scenario.c1; Scenario.c2] (7 # 10)%Q 1 2); vm_compute; congruence.
  - apply (C3_rerank_size [] [Scenario.c1; Scenario.c2; Scenario.c3] (7 # 10)%Q 1 2).
    + vm_compute; congruence.
    + split; vm_compute; congruence.
    + reflexivity.
    + vm_compute; reflexivity.
Defined.

(** C10: on candidates that carry a text and a similarity of absolute value
    at most B < 1e9 (B = 1 for cosine similarities), with lambda in [0, 1]
    and top_k >= 1, [mmr_rerank] cannot fail: the divisor of
    the Jaccard ratio is at least 1, an empty union gives redundancy 0, every
    score lies above the sentinel, every pass over the candidates picks an
    index that is in range and not yet selected, and the call returns. *)
Theorem C10_rerank_total (qvec : list Q) (hits : list (row Q)) (lam B : Q) (k : Z) :
  (1 <= k)%Z -> (0 <= lam <= 1)%Q -> (B < 1000000000)%Q ->
  forallb (bounded_candidate B) hits = true ->
  (forall a b : gset string,
      1 <= or_1 (size (a ∪ b))
      /\ (size (a ∪ b) = 0 -> (jaccard (F:=Q) a b == 0)%Q)
      /\ unit_interval (jaccard a b))
  /\ (forall rel red : Q,
        (- B <= rel <= B)%Q -> unit_interval red ->
        (f_sentinel < mmr_score lam rel red)%Q)
  /\ (forall (toks : list (gset string)) (selected_idx : list nat),
        length toks = length hits ->
        Forall (fun i => i < length hits) selected_idx ->
        length selected_idx < length hits ->
        exists j, mmr_scan lam toks selected_idx 0 hits None f_sentinel = Ok (Some j)
          /\ j < length hits /\ j ∉ selected_idx)
  /\ exists out, mmr_rerank qvec hits lam k = Ok out.
Proof.
  intros Hk Hlam HB Hwf. repeat apply conj.
  - intros a b. split; [apply or_1_pos|]. split; [apply jaccard_empty_union|apply jaccard_unit].
  - intros rel red Hrel Hred. apply Qltb_lt. apply (score_above_sentinel lam B); assumption.
  - intros toks selected_idx Htoks Hsel Hlen.
    destruct (mmr_scan_total lam B Hlam HB toks selected_idx hits 0 None f_sentinel Hwf
                ltac:(lia) ltac:(rewrite Htoks; exact Hsel) ltac:(reflexivity))
      as (r & Hr & _ & Hfound & Hwhere).
    destruct (unselected_exists (length hits) selected_idx Hlen) as (i & Hi & Hni).
    destruct Hfound as [j ->]; [exists i; split; [lia|exact Hni]|].
    exists j. split; [exact Hr|].
    destruct (Hwhere j eq_refl) as [?|[Hj Hnj]]; [discriminate|]. split; [lia|exact Hnj].
  - destruct (mmr_rerank_total lam B Hlam HB qvec hits k Hk Hwf) as (out & Hout & _).
    exists out. exact Hout.
Qed.

(** C10 on the three candidates of the scenario. *)
Lemma C10_rerank_total_witness :
  exists out, mmr_rerank [] [Scenario.c1; Scenario.c2; Scenario.c3] (7 # 10)%Q 2 = Ok out.
Proof.
  apply (C10_rerank_total [] [Scenario.c1; Scenario.c2; Scenario.c3] (7 # 10)%Q 1 2).
  - vm_compute; congruence.
  - split; vm_compute; congruence.
  - reflexivity.
  - vm_compute; reflexivity.
Defined.

(** ** The intent classifier *)

Lemma append_cons (c : ascii) (x r : string) : String c x ++ r = String c (x ++ r).
Proof. reflexivity. Qed.

Lemma append_nil (r : string) : "" ++ r = r.
Proof. reflexivity. Qed.

Lemma prefix_app (x s : string) : String.prefix x s = true <-> exists r, s = x ++ r.
Proof.
  revert s. induction x as [|c x IH]; intros s.
  - split; [intros _; exists s; reflexivity|intros _; destruct s; reflexivity].
  - destruct s as [|d s]; simpl.
    + split; [discriminate|intros [r Hr]; rewrite append_cons in Hr; discriminate].
    + destruct (Ascii.ascii_dec c d) as [->|Hne].
      * rewrite IH. split; intros [r Hr]; exists r; rewrite append_cons in *; congruence.
      * split; [discriminate|intros [r Hr]; rewrite append_cons in Hr; congruence].
Qed.

Lemma contains_occurs (x s : string) : Str.contains x s = true <-> occurs_in x s.
Proof.
  unfold occurs_in. induction s as [|c s IH]; cbn [Str.contains].
  - rewrite orb_false_r, prefix_app. split.
    + intros [r Hr]. exists "", r. exact Hr.
    + intros (l & r & Hlr). destruct l as [|d l]; [exists r; exact Hlr|].
      rewrite append_cons in Hlr. discriminate.
  - rewrite orb_true_iff, prefix_app, IH. split.
    + intros [[r Hr]|(l & r & Hlr)].
      * exists "", r. exact Hr.
      * exists (String c l), r. rewrite append_cons. congruence.
    + intros (l & r & Hlr). destruct l as [|d l].
      * left. exists r. exact Hlr.
      * right. rewrite append_cons in Hlr. exists l, r. congruence.
Qed.

Lemma has_matches {F} (W : World F) (keywords : list string) (q : string) :
  has (str_lower W q) keywords = true <-> matches W keywords q.
Proof.
  unfold has, matches. rewrite existsb_exists. split.
  - intros (x & Hx & Hc). exists x. split; [apply list_elem_of_In; exact Hx|].
    apply contains_occurs. exact Hc.
  - intros (x & Hx & Hc). exists x. split; [apply list_elem_of_In; exact Hx|].
    apply contains_occurs. exact Hc.
Qed.

(** C5: [_detect_intent] maps every question to one of the five outcomes; it
    is the first-match-wins evaluation of the keyword sets in the order
    disease, climate, season, fertilizer; each outcome is decided by keyword
    containment in the lower-cased question, an earlier set winning over a
    later one; no match gives none; and two questions with the same
    lower-case form get the same outcome. *)
Theorem C5_detect_intent {F} (W : World F) (q : string) :
  _detect_intent W q ∈ [Some disease; Some climate; Some season; Some fertilizer; None]
  /\ _detect_intent W q = classify W q
  /\ (_detect_intent W q = Some disease <-> matches W DISEASE q)
  /\ (_detect_intent W q = Some climate <->
        ~ matches W DISEASE q /\ matches W CLIMATE q)
  /\ (_detect_intent W q = Some season <->
        ~ matches W DISEASE q /\ ~ matches W CLIMATE q /\ matches W SEASON q)
  /\ (_detect_intent W q = Some fertilizer <->
        ~ matches W DISEASE q /\ ~ matches W CLIMATE q /\ ~ matches W SEASON q
        /\ matches W FERT q)
  /\ (_detect_intent W q = None <->
        ~ matches W DISEASE q /\ ~ matches W CLIMATE q /\ ~ matches W SEASON q
        /\ ~ matches W FERT q)
  /\ (forall q', str_lower W q' = str_lower W q -> _detect_intent W q' = _detect_intent W q).
Proof.
  pose proof (has_matches W DISEASE q) as HD.
  pose proof (has_matches W CLIMATE q) as HC.
  pose proof (has_matches W SEASON q) as HS.
  pose proof (has_matches W FERT q) as HF.
  unfold _detect_intent, classify, priority.
  cbn [List.find snd fst fmap option_fmap option_map].
  destruct (has (str_lower W q) DISEASE) eqn:ED, (has (str_lower W q) CLIMATE) eqn:EC,
    (has (str_lower W q) SEASON) eqn:ES, (has (str_lower W q) FERT) eqn:EF;
    (split; [rewrite !elem_of_cons; tauto|]); (split; [reflexivity|]);
    repeat apply conj;
    try (intros q' Hq'; rewrite Hq', ?ED, ?EC, ?ES, ?EF; reflexivity);
    intuition congruence.
Qed.

(** ** The event log *)

Section Log.
Context {F : Type}.

Lemma bind_ret_l {A B} (a : A) (f : A -> M F B) : bind (ret a) f = f a.
Proof. unfold bind, ret. destruct (f a) as [log r]. reflexivity. Qed.

Lemma bind_Ok {A B} (log : list (event F)) (a : A) (f : A -> M F B) :
  bind (log, Ok a) f = ((log ++ fst (f a))%list, snd (f a)).
Proof. unfold bind. destruct (f a) as [log' r]. reflexivity. Qed.

Lemma bind_Raise {A B} (log : list (event F)) (e : exn) (f : A -> M F B) :
  bind (log, Raise e) f = (log, Raise e).
Proof. reflexivity. Qed.

Lemma no_generate_ret {A} (a : A) : no_generate (ret (F:=F) a).
Proof. constructor. Qed.

Lemma no_generate_raise {A} (e : exn) : no_generate (raise (F:=F) (A:=A) e).
Proof. constructor. Qed.

Lemma no_generate_lift {A} (r : res A) : no_generate (lift (F:=F) r).
Proof. constructor. Qed.

Lemma no_generate_emit (ev : event F) : is_generate ev = false -> no_generate (emit ev).
Proof. intros Hev. constructor; [exact Hev|constructor]. Qed.

Lemma no_generate_bind {A B} (m : M F A) (f : A -> M F B) :
  no_generate m -> (forall a, no_generate (f a)) -> no_generate (bind m f).
Proof.
  unfold no_generate. destruct m as [log [e|a]]; simpl; intros Hm Hf; [exact Hm|].
  specialize (Hf a). destruct (f a) as [log' r]. simpl in *.
  apply Forall_app. split; assumption.
Qed.

Lemma no_generate_try_except {A} (m : M F A) (h : exn -> M F A) :
  no_generate m -> (forall e, no_generate (h e)) -> no_generate (try_except m h).
Proof.
  unfold no_generate. destruct m as [log [e|a]]; simpl; intros Hm Hh; [|exact Hm].
  specialize (Hh e). destruct (h e) as [log' r]. simpl in *.
  apply Forall_app. split; assumption.
Qed.

End Log.

Ltac no_generate :=
  repeat first
    [ apply no_generate_bind; [|intros ?]
    | apply no_generate_try_except; [|intros ?]
    | apply no_generate_ret
    | apply no_generate_raise
    | apply no_generate_lift
    | apply no_generate_emit; reflexivity
    | match goal with
      | |- no_generate (match ?x with _ => _ end) => destruct x
      | |- no_generate (if ?b then _ else _) => destruct b
      end ].

Section GraphLog.
Context {F : Type} `{PyFloat F} (W : World F).

Lemma no_generate_run (c : cypher) (p : value F) : no_generate (_run W c p).
Proof. unfold _run. no_generate. Qed.

Lemma no_generate_manual (q : string) (items : list (string * list string)) :
  no_generate (manual_alias_loop W q items).
Proof.
  induction items as [|[key targets] items IH]; cbn [manual_alias_loop].
  - no_generate.
  - destruct (Str.contains _ q); [|exact IH].
    apply no_generate_bind; [no_generate|intros t].
    apply no_generate_bind; [apply no_generate_run|intros hit].
    destruct hit; [exact IH|no_generate].
Qed.

Lemma no_generate_resolve_crop (q : string) : no_generate (resolve_crop W q).
Proof.
  unfold resolve_crop, alias_tier.
  apply no_generate_bind; [apply no_generate_run|intros rows].
  destruct rows; [|no_generate].
  apply no_generate_bind.
  { apply no_generate_try_except; [|intros e; no_generate].
    apply no_generate_bind; [apply no_generate_run|intros; no_generate]. }
  intros [r|]; [no_generate|].
  apply no_generate_bind; [apply no_generate_run|intros rows].
  destruct rows; [|no_generate].
  apply no_generate_bind; [apply no_generate_run|intros rows].
  destruct rows; [|no_generate].
  apply no_generate_manual.
Qed.

Lemma no_generate_graph_answer (text : string) : no_generate (graph_answer_for_crop W text).
Proof.
  unfold graph_answer_for_crop, crop_seasons, crop_locations, crop_climate, crop_diseases.
  apply no_generate_bind; [apply no_generate_resolve_crop|intros crop].
  destruct crop as [c|]; [|no_generate].
  destruct (dict_truthy (Some c)); [|no_generate].
  repeat first
    [ apply no_generate_run
    | apply no_generate_bind; [|intros ?]
    | apply no_generate_try_except; [|intros ?]
    | apply no_generate_ret
    | apply no_generate_lift ].
Qed.

Lemma no_generate_search (query : string) (k fetch_k : Z) (source language : value F)
    (use_mmr : bool) (lambda_mult : F) :
  no_generate (search W query k fetch_k source language use_mmr lambda_mult).
Proof.
  unfold search, embed_query, fetch_knn, _conn. no_generate.
Qed.

End GraphLog.

(** ** The router *)

Lemma import_fails : "graph_diseases_for_crop" ∉ module_names.
Proof.
  apply (bool_decide_unpack _). vm_compute. exact I.
Qed.

Lemma graph_diseases_for_crop_None {F} `{PyFloat F} (W : World F) :
  graph_diseases_for_crop W = None.
Proof.
  unfold graph_diseases_for_crop. case_bool_decide as Hin; [|reflexivity].
  exfalso. exact (import_fails Hin).
Qed.

Lemma answer_unfold {F} `{PyFloat F} (W : World F) (q : string) (k : Z) :
  answer W q k =
  bind (resolve_crop W q) (fun crop =>
    if dict_truthy crop then overview_then_fallback W q k (_detect_intent W q)
    else vector_fallback W q k (_detect_intent W q)).
Proof.
  unfold answer, answer_with. rewrite graph_diseases_for_crop_None. reflexivity.
Qed.

(** C9: the module [retriever_graph] binds no name [graph_diseases_for_crop],
    so the optional import leaves the router's variable at [None]; [answer] is
    then the router without the disease branch, and a disease question about a
    resolved crop goes to the general overview and, failing that, to the
    vector fallback. *)
Theorem C9_disease_branch_unreachable {F} `{PyFloat F} (W : World F) (q : string) (k : Z) :
  ("graph_diseases_for_crop" ∉ module_names)
  /\ graph_diseases_for_crop W = None
  /\ answer W q k = answer_without_disease_branch W q k
  /\ (forall log crop,
        resolve_crop W q = (log, Ok crop) -> dict_truthy crop = true ->
        _detect_intent W q = Some disease ->
        answer W q k = bind (log, Ok crop)
                            (fun _ => overview_then_fallback W q k (Some disease))).
Proof.
  split; [exact import_fails|]. split; [apply graph_diseases_for_crop_None|].
  split; [apply answer_unfold|].
  intros log crop Hres Htruthy Hintent. rewrite answer_unfold, Hres, Hintent.
  unfold bind. rewrite Htruthy. reflexivity.
Qed.

(** C6: when the graph paths give no bullets (the crop is not resolved, or the
    answer for the resolved crop has none) and the vector search returns no
    passage, [answer] returns the apology and its log holds no call to the
    text generator. *)
Theorem C6_apology_without_generation {F} `{PyFloat F} (W : World F) (q : string) (k : Z)
    (crop : option (row F)) (log1 log3 : list (event F)) :
  resolve_crop W q = (log1, Ok crop) ->
  (dict_truthy crop = false
   \/ exists log2 r, graph_answer_for_crop W q = (log2, Ok r) /\ usable_bullets r = None) ->
  search W (Str.strip (q ++ " " ++ aug (_detect_intent W q))) k (Z.max 32 (k * 8))
         VNone (VStr "bn") true f_default_lambda = (log3, Ok []) ->
  exists log, answer W q k = (log, Ok apology)
    /\ Forall (fun ev => is_generate ev = false) log.
Proof.
  intros Hres Hgraph Hsearch.
  pose proof (no_generate_resolve_crop W q) as N1. rewrite Hres in N1.
  pose proof (no_generate_search W (Str.strip (q ++ " " ++ aug (_detect_intent W q))) k
                (Z.max 32 (k * 8)) VNone (VStr "bn") true f_default_lambda) as N3.
  rewrite Hsearch in N3. unfold no_generate in N1, N3. simpl in N1, N3.
  assert (vector_fallback W q k (_detect_intent W q) = ((log3 ++ [])%list, Ok apology)) as Hvec.
  { unfold vector_fallback. rewrite Hsearch. reflexivity. }
  rewrite answer_unfold, Hres.
  destruct (dict_truthy crop) eqn:Htruthy.
  - destruct Hgraph as [Hno|(log2 & r & Hanswer & Hnone)]; [discriminate|].
    pose proof (no_generate_graph_answer W q) as N2. rewrite Hanswer in N2.
    unfold no_generate in N2. simpl in N2.
    unfold bind at 1. rewrite Htruthy. unfold overview_then_fallback.
    rewrite Hanswer. unfold bind. rewrite Hnone, Hvec.
    eexists. split; [reflexivity|].
    repeat (apply Forall_app; split); try assumption. constructor.
  - unfold bind. rewrite Htruthy, Hvec.
    eexists. split; [reflexivity|].
    repeat (apply Forall_app; split); try assumption. constructor.
Qed.

(** C6 in the sample world, whose vector store is empty: a question that
    names no crop, and the crop "Boro", which has no facts. *)
Lemma C6_apology_without_generation_witness :
  (exists log, answer Scenario.up "xyz" 5 = (log, Ok apology)
     /\ Forall (fun ev => is_generate ev = false) log)
  /\ (exists log, answer Scenario.up "Boro" 5 = (log, Ok apology)
     /\ Forall (fun ev => is_generate ev = false) log).
Proof.
  split.
  - eapply (C6_apology_without_generation Scenario.up "xyz" 5).
    + vm_compute. reflexivity.
    + left. reflexivity.
    + vm_compute. reflexivity.
  - eapply (C6_apology_without_generation Scenario.up "Boro" 5).
    + vm_compute. reflexivity.
    + right. eexists _, _. split; vm_compute; reflexivity.
    + vm_compute. reflexivity.
Defined.

(** ** Store failures *)

Lemma run_fails_raise {F} `{PyFloat F} (W : World F) (c : cypher) (p : value F) :
  run_fails W c p = true -> _run W c p = ([EvCypher c p], Raise StoreError).
Proof. intros Hf. unfold _run, bind, emit. rewrite Hf. reflexivity. Qed.

Lemma run_ok {F} `{PyFloat F} (W : World F) (c : cypher) (p : value F) :
  run_fails W c p = false -> _run W c p = ([EvCypher c p], eval_cypher W c p).
Proof. intros Hf. unfold _run, bind, emit. rewrite Hf. reflexivity. Qed.

(** C2, as stated: a store failure at any stage degrades to the next stage
    and no exception leaves [answer].  With the graph store down, the first
    query of [resolve_crop] raises and the exception leaves [answer]. *)
Lemma C2_exact_query_failure_leaves_answer :
  answer Scenario.graph_down "Aman" 5
  = ([EvCypher cy_exact (VStr "Aman")], Raise StoreError).
Proof. vm_compute. reflexivity. Qed.

(** C2, amended: three call sites are guarded.  A failure of the alias query
    of [resolve_crop], of the disease query of [crop_diseases], or of opening
    the vector-store connection in [fetch_knn] is caught where it happens and
    gives exactly the result of a miss (no alias hit, no disease row, no
    passage).  The other store calls are not guarded: a failure of the exact
    query leaves [answer] as an exception, and a failure of the SQL query
    leaves [fetch_knn] as one. *)
Theorem C2_guarded_call_sites {F} `{PyFloat F} (W : World F) :
  (forall q,
      exists hit, alias_tier W q = ([EvCypher cy_alias (VStr q)], Ok hit)
        /\ (run_fails W cy_alias (VStr q) = true -> hit = None)
        /\ (run_fails W cy_alias (VStr q) = false -> hit = head (alias_rows W q)))
  /\ (forall crop_id,
        exists rows, crop_diseases W crop_id = ([EvCypher cy_diseases crop_id], Ok rows)
          /\ (run_fails W cy_diseases crop_id = true -> rows = [])
          /\ (run_fails W cy_diseases crop_id = false -> rows = disease_rows W crop_id))
  /\ (forall qvec fetch_k source language,
        HAS_DB W = false \/ connect_fails W = true ->
        snd (fetch_knn W qvec fetch_k source language) = Ok [])
  /\ (forall q k,
        run_fails W cy_exact (VStr (_normalize_bn W q)) = true ->
        answer W q k = ([EvCypher cy_exact (VStr (_normalize_bn W q))], Raise StoreError))
  /\ (forall qvec fetch_k source language e,
        HAS_DB W = true -> connect_fails W = false ->
        execute W qvec fetch_k (sql_filter source) (sql_filter language) = Raise e ->
        snd (fetch_knn W qvec fetch_k source language) = Raise e).
Proof.
  repeat apply conj.
  - intros q. unfold alias_tier.
    destruct (run_fails W cy_alias (VStr q)) eqn:Hf.
    + rewrite (run_fails_raise W _ _ Hf). exists None.
      split; [reflexivity|]. split; [reflexivity|discriminate].
    + rewrite (run_ok W _ _ Hf). exists (head (alias_rows W q)).
      split; [reflexivity|]. split; [discriminate|reflexivity].
  - intros crop_id. unfold crop_diseases.
    destruct (run_fails W cy_diseases crop_id) eqn:Hf.
    + rewrite (run_fails_raise W _ _ Hf). exists [].
      split; [reflexivity|]. split; [reflexivity|discriminate].
    + rewrite (run_ok W _ _ Hf). exists (disease_rows W crop_id).
      split; [reflexivity|]. split; [discriminate|reflexivity].
  - intros qvec fetch_k source language Hdown. unfold fetch_knn, _conn.
    destruct (HAS_DB W); [|reflexivity].
    destruct Hdown as [Hdb|Hconn]; [discriminate|]. rewrite Hconn. reflexivity.
  - intros q k Hf. rewrite answer_unfold. unfold resolve_crop.
    rewrite (run_fails_raise W _ _ Hf). reflexivity.
  - intros qvec fetch_k source language e Hdb Hconn Hexec. unfold fetch_knn, _conn.
    rewrite Hdb, Hconn. unfold bind, emit, ret, lift. simpl. rewrite Hexec. reflexivity.
Qed.

(** ** Inversion of successful computations *)

Lemma bind_inv {F A B} (m : M F A) (f : A -> M F B) (log : list (event F)) (b : B) :
  bind m f = (log, Ok b) ->
  exists l1 a l2, m = (l1, Ok a) /\ f a = (l2, Ok b) /\ log = (l1 ++ l2)%list.
Proof.
  unfold bind. destruct m as [l1 [e|a]]; [discriminate|].
  destruct (f a) as [l2 r] eqn:Hf. intros [= <- ->].
  exists l1, a, l2. repeat split. exact Hf.
Qed.

Lemma ret_inv {F A} (a b : A) (log : list (event F)) :
  ret a = (log, Ok b) -> a = b /\ log = [].
Proof. unfold ret. intros [= <- <-]. split; reflexivity. Qed.

Lemma lift_inv {F A} (r : res A) (b : A) (log : list (event F)) :
  lift r = (log, Ok b) -> r = Ok b /\ log = [].
Proof. unfold lift. intros [= <- ->]. split; reflexivity. Qed.

Lemma run_inv {F} `{PyFloat F} (W : World F) (c : cypher) (p : value F)
    (log : list (event F)) (rows : list (row F)) :
  _run W c p = (log, Ok rows) ->
  run_fails W c p = false /\ eval_cypher W c p = Ok rows /\ log = [EvCypher c p].
Proof.
  unfold _run, bind, emit. destruct (run_fails W c p); [discriminate|].
  unfold lift. intros [= <- ->]. repeat split.
Qed.

Lemma crop_diseases_inv {F} `{PyFloat F} (W : World F) (p : value F)
    (log : list (event F)) (rows : list (row F)) :
  crop_diseases W p = (log, Ok rows) -> rows = disease_rows W p \/ rows = [].
Proof.
  unfold crop_diseases.
  destruct (run_fails W cy_diseases p) eqn:Hf.
  - rewrite (run_fails_raise W _ _ Hf). cbn. intros [= _ <-]. right. reflexivity.
  - rewrite (run_ok W _ _ Hf). cbn. intros [= _ <-]. left. reflexivity.
Qed.

(** What a successful [graph_answer_for_crop] holds. *)
Lemma graph_answer_inv {F} `{PyFloat F} (W : World F) (q : string)
    (log : list (event F)) (r : graph_res F) :
  graph_answer_for_crop W q = (log, Ok r) -> ok r = true ->
  exists c crop_id bullets,
    res_crop r = Some c /\ getitem c "id" = Ok crop_id
    /\ facts_seasons r = season_rows W crop_id
    /\ facts_locations r = location_rows W 10 crop_id
    /\ facts_climate r = head (climate_rows W crop_id)
    /\ (facts_diseases r = disease_rows W crop_id \/ facts_diseases r = [])
    /\ render_bullets W (facts_seasons r) (facts_locations r) (facts_climate r)
                      (facts_diseases r) = Ok bullets
    /\ bullets_bn r = Some bullets.
Proof.
  unfold graph_answer_for_crop. intros Hrun Hok.
  apply bind_inv in Hrun as (l1 & crop & l2 & _ & Hrun & _).
  destruct crop as [c|]; [|apply ret_inv in Hrun as [<- _]; discriminate].
  destruct (dict_truthy (Some c)); [|apply ret_inv in Hrun as [<- _]; discriminate].
  apply bind_inv in Hrun as (? & crop_id & ? & Hid%lift_inv & Hrun & _).
  destruct Hid as [Hid _].
  apply bind_inv in Hrun as (? & seasons & ? & Hs%run_inv & Hrun & _).
  apply bind_inv in Hrun as (? & locs & ? & Hl%run_inv & Hrun & _).
  apply bind_inv in Hrun as (? & climate & ? & Hc & Hrun & _).
  apply bind_inv in Hrun as (? & diseases & ? & Hd%crop_diseases_inv & Hrun & _).
  apply bind_inv in Hrun as (? & bullets & ? & Hb%lift_inv & Hrun & _).
  apply ret_inv in Hrun as [<- _]. cbn.
  unfold crop_climate in Hc.
  apply bind_inv in Hc as (? & rows & ? & Hc%run_inv & Hret & _).
  apply ret_inv in Hret as [<- _].
  destruct Hs as (_ & [= <-] & _), Hl as (_ & [= <-] & _), Hc as (_ & [= <-] & _),
    Hb as [Hb _].
  exists c, crop_id, bullets. repeat split; assumption.
Qed.

(** ** The rows of the graph queries *)

Section Rows.
Context {F : Type} `{PyFloat F} (W : World F).

Lemma str_join_total (sep : string) (vs : list (value F)) :
  Forall is_VStr vs -> exists j, str_join sep vs = Ok j.
Proof.
  intros Hvs. unfold str_join.
  destruct (rmapM_total (fun v : value F => match v with
                                            | VStr s => Ok s
                                            | _ => Raise TypeError
                                            end) vs) as (ss & ->).
  - eapply Forall_impl; [exact Hvs|]. intros v [s ->]. exists s. reflexivity.
  - eexists. reflexivity.
Qed.

Lemma truthy_opt_str (o : option string) :
  truthy (opt_str (F:=F) o) = true -> is_VStr (opt_str (F:=F) o).
Proof. destruct o as [s|]; [exists s; reflexivity|discriminate]. Qed.

Lemma bn_season_VStr (v : value F) : is_VStr v -> truthy v = true -> is_VStr (_bn_season v).
Proof.
  intros [s ->] Ht. unfold _bn_season. rewrite Ht. simpl. eexists. reflexivity.
Qed.

Lemma get_season_name (s : Season) :
  get (season_row (F:=F) s) "season_name" = opt_str (s_name_bn s)
  /\ get_default (season_row (F:=F) s) "season_name" (VStr "") = opt_str (s_name_bn s).
Proof. split; reflexivity. Qed.

Lemma get_disease_names (d : Disease) :
  get (disease_row (F:=F) d) "name_bn" = opt_str (d_name_bn d)
  /\ get (disease_row (F:=F) d) "name_en" = opt_str (d_name_en d)
  /\ get_default (disease_row (F:=F) d) "name_en" (VStr "") = opt_str (d_name_en d).
Proof. repeat split; reflexivity. Qed.

Lemma get_climate (c : Crop F) :
  get (climate_row c) "min_temp_c" = opt_float (c_min_temp_c c)
  /\ get (climate_row c) "max_temp_c" = opt_float (c_max_temp_c c)
  /\ get (climate_row c) "min_rh" = opt_float (c_min_rh c)
  /\ get (climate_row c) "max_rh" = opt_float (c_max_rh c).
Proof. repeat split; reflexivity. Qed.

Lemma get_crop_id (c : Crop F) : getitem (crop_row c) "id" = Ok (opt_str (c_id c)).
Proof. reflexivity. Qed.

Lemma crop_row_truthy (c : Crop F) : dict_truthy (Some (crop_row c)) = true.
Proof. reflexivity. Qed.

Lemma season_name_VStr (s : Season) :
  truthy (get (season_row (F:=F) s) "season_name") = true ->
  is_VStr (_bn_season (get_default (season_row (F:=F) s) "season_name" (VStr ""))).
Proof.
  destruct (get_season_name s) as [-> ->]. intros Ht.
  apply bn_season_VStr; [apply truthy_opt_str|]; exact Ht.
Qed.

Lemma disease_name_VStr (d : Disease) :
  truthy (py_or (get (disease_row (F:=F) d) "name_bn") (get (disease_row d) "name_en")) = true ->
  is_VStr (py_or (get (disease_row (F:=F) d) "name_bn")
                 (get_default (disease_row d) "name_en" (VStr ""))).
Proof.
  destruct (get_disease_names d) as (-> & -> & ->). unfold py_or.
  destruct (truthy (opt_str (d_name_bn d))) eqn:Hbn; intros Ht;
    apply truthy_opt_str; assumption.
Qed.

Lemma filter_map_Forall {A B} (P : B -> Prop) (f : A -> B) (p : A -> bool) (l : list A) :
  (forall x, p x = true -> P (f x)) -> Forall P (f <$> List.filter p l).
Proof.
  intros Hp. induction l as [|x l IH]; [constructor|].
  cbn [List.filter]. destruct (p x) eqn:Hx; [|exact IH].
  cbn [fmap list_fmap]. constructor; [apply Hp; exact Hx|exact IH].
Qed.

Lemma Forall_fmap_intro {A B} (P : B -> Prop) (f : A -> B) (l : list A) :
  (forall x, P (f x)) -> Forall P (f <$> l).
Proof. intros Hf. apply Forall_fmap, Forall_forall. intros x _. apply Hf. Qed.

Lemma season_bullet_total (rows : list (row F)) :
  Forall is_season_row rows -> exists b, season_bullet rows = Ok b.
Proof.
  intros Hrows. unfold season_bullet.
  destruct rows as [|r0 rows0] eqn:Hr; [eexists; reflexivity|].
  rewrite <- Hr in *. clear Hr r0 rows0.
  set (names := _ <$> List.filter _ _).
  assert (Forall is_VStr names) as Hnames.
  { subst names. induction Hrows as [|r rows [s ->] _ IH]; [constructor|].
    cbn [List.filter].
    destruct (truthy (get (season_row s) "season_name")) eqn:Ht; [|exact IH].
    cbn [fmap list_fmap]. constructor; [|exact IH].
    apply season_name_VStr. exact Ht. }
  destruct names as [|n names]; [eexists; reflexivity|].
  destruct (str_join_total " / " (n :: names) Hnames) as (j & ->).
  eexists. reflexivity.
Qed.

Lemma disease_bullet_total (rows : list (row F)) :
  Forall is_disease_row rows -> exists b, disease_bullet rows = Ok b.
Proof.
  intros Hrows. unfold disease_bullet.
  destruct rows as [|r0 rows0] eqn:Hr; [eexists; reflexivity|].
  rewrite <- Hr in *. clear Hr r0 rows0.
  set (names := _ <$> List.filter _ _).
  assert (Forall is_VStr names) as Hnames.
  { subst names. induction Hrows as [|r rows [d ->] _ IH]; [constructor|].
    cbn [List.filter].
    destruct (truthy (py_or (get (disease_row d) "name_bn") (get (disease_row d) "name_en")))
      eqn:Ht; [|exact IH].
    cbn [fmap list_fmap]. constructor; [|exact IH].
    apply disease_name_VStr. exact Ht. }
  destruct (str_join_total " / " names Hnames) as (j & ->).
  eexists. reflexivity.
Qed.

Lemma render_bullets_total (seasons locs : list (row F)) (climate : option (row F))
    (diseases : list (row F)) :
  Forall is_season_row seasons -> Forall is_disease_row diseases ->
  exists bullets, render_bullets W seasons locs climate diseases = Ok bullets.
Proof.
  intros Hs Hd. unfold render_bullets.
  destruct (season_bullet_total seasons Hs) as (b1 & ->).
  destruct (disease_bullet_total diseases Hd) as (b4 & ->).
  eexists. reflexivity.
Qed.

End Rows.

(** ** Crop resolution *)

Section Resolve.
Context {F : Type} `{PyFloat F} (W : World F).

(** A query step followed by "first row or next" is a tier followed by
    "hit or next". *)
Lemma bind_head_tier (m : M F (list (row F))) (next : M F (option (row F))) :
  bind m (fun rows => match rows with
                      | r :: _ => ret (Some r)
                      | [] => next
                      end)
  = bind (bind m (fun rows => ret (head rows)))
         (fun hit => match hit with
                     | Some r => ret (Some r)
                     | None => next
                     end).
Proof.
  destruct m as [log [e|[|r rows]]]; cbn; [reflexivity| |].
  - destruct next as [log' o]. rewrite app_nil_r. reflexivity.
  - rewrite !app_nil_r. reflexivity.
Qed.

Lemma bind_hit_id (m : M F (option (row F))) :
  bind m (fun hit => match hit with
                     | Some r => ret (Some r)
                     | None => ret None
                     end) = m.
Proof. destruct m as [log [e|[r|]]]; cbn; rewrite ?app_nil_r; reflexivity. Qed.

Lemma resolve_crop_first_hit (q : string) :
  resolve_crop W q = first_hit (tiers W (_normalize_bn W q)).
Proof.
  unfold resolve_crop, tiers, exact_tier, ft_tier, contains_tier, manual_tier.
  cbn [first_hit]. rewrite bind_hit_id, <- !bind_head_tier. reflexivity.
Qed.

(** The combinator stops at the first hit. *)
Lemma first_hit_Some (ts : list (M F (option (row F)))) (log : list (event F)) (r : row F) :
  first_hit ts = (log, Ok (Some r)) ->
  exists i t, ts !! i = Some t /\ snd t = Ok (Some r)
    /\ forall j, j < i -> exists t', ts !! j = Some t' /\ snd t' = Ok None.
Proof.
  revert log. induction ts as [|t ts IH]; intros log; cbn [first_hit].
  - intros [Heq _]%ret_inv. discriminate Heq.
  - intros (l1 & hit & l2 & Ht & Hrest & _)%bind_inv. destruct hit as [r'|].
    + apply ret_inv in Hrest as [[= ->] _]. exists 0, t.
      split; [reflexivity|]. split; [rewrite Ht; reflexivity|]. intros j Hj. lia.
    + destruct (IH _ Hrest) as (i & t' & Hi & Ht' & Hbefore).
      exists (S i), t'. split; [exact Hi|]. split; [exact Ht'|].
      intros [|j] Hj.
      * exists t. split; [reflexivity|]. rewrite Ht. reflexivity.
      * apply Hbefore. lia.
Qed.

Lemma first_hit_None (ts : list (M F (option (row F)))) (log : list (event F)) :
  first_hit ts = (log, Ok None) -> Forall (fun t => snd t = Ok None) ts.
Proof.
  revert log. induction ts as [|t ts IH]; intros log; cbn [first_hit]; [constructor|].
  intros (l1 & hit & l2 & Ht & Hrest & _)%bind_inv. destruct hit as [r'|].
  - apply ret_inv in Hrest as [Heq _]. discriminate Heq.
  - constructor; [rewrite Ht; reflexivity|]. eapply IH. exact Hrest.
Qed.

(** The first row of a filtered and projected scan. *)
Lemma head_take_1 {A} (l : list A) : head (take 1 l) = head l.
Proof. destruct l; reflexivity. Qed.

Lemma head_fmap_filter {A B} (f : A -> B) (p : A -> bool) (l : list A) :
  head (f <$> List.filter p l) = f <$> List.find p l.
Proof.
  induction l as [|x l IH]; [reflexivity|]. cbn [List.filter List.find].
  destruct (p x); [reflexivity|exact IH].
Qed.

Lemma exact_rows_head (q : string) :
  head (exact_rows W q) = crop_row <$> List.find (exact_match W q) (crops (graph W)).
Proof. unfold exact_rows. rewrite head_take_1. apply head_fmap_filter. Qed.

Lemma alias_rows_head (q : string) :
  head (alias_rows W q)
  = crop_row ∘ snd <$> List.find (fun a => lower_eq W (fst a) q) (alias_of (graph W)).
Proof. unfold alias_rows. rewrite head_take_1. apply head_fmap_filter. Qed.

Lemma contains_rows_head (q : string) :
  head (contains_rows W q) = crop_row <$> List.find (contains_match W q) (crops (graph W)).
Proof. unfold contains_rows. rewrite head_take_1. apply head_fmap_filter. Qed.

(** The WHERE clauses, read as propositions. *)
Lemma lower_eq_spec (p : option string) (q : string) :
  lower_eq W p q = true <-> toLower (graph W) (default "" p) = toLower (graph W) q.
Proof. unfold lower_eq. apply String.eqb_eq. Qed.

Lemma lower_contains_spec (p : option string) (q : string) :
  lower_contains W p q = true
  <-> occurs_in (toLower (graph W) q) (toLower (graph W) (default "" p)).
Proof. unfold lower_contains. apply contains_occurs. Qed.

(** [c.slug IS NOT NULL AND P(coalesce(c.slug, ''))] *)
Lemma slug_clause (o : option string) (P : string -> Prop) :
  is_some o = true /\ P (default "" o) <-> exists s, o = Some s /\ P s.
Proof.
  destruct o as [s|]; cbn [is_some default]; split.
  - intros [_ HP]. exists s. split; [reflexivity|exact HP].
  - intros (s' & [= <-] & HP). split; [reflexivity|exact HP].
  - intros [Hf _]. discriminate Hf.
  - intros (s' & Hs & _). discriminate Hs.
Qed.

Lemma exact_match_spec (q : string) (c : Crop F) :
  exact_match W q c = true <->
  toLower (graph W) (default "" (c_id c)) = toLower (graph W) q
  \/ toLower (graph W) (default "" (c_name_bn c)) = toLower (graph W) q
  \/ toLower (graph W) (default "" (c_name_en c)) = toLower (graph W) q
  \/ (exists s, c_slug c = Some s /\ toLower (graph W) s = toLower (graph W) q).
Proof.
  unfold exact_match. rewrite !orb_true_iff, andb_true_iff, !lower_eq_spec.
  pose proof (slug_clause (c_slug c)
                (fun s => toLower (graph W) s = toLower (graph W) q)) as Hslug.
  cbn beta in Hslug. tauto.
Qed.

Lemma contains_match_spec (q : string) (c : Crop F) :
  contains_match W q c = true <->
  occurs_in (toLower (graph W) q) (toLower (graph W) (default "" (c_name_bn c)))
  \/ occurs_in (toLower (graph W) q) (toLower (graph W) (default "" (c_name_en c)))
  \/ (exists s, c_slug c = Some s
        /\ occurs_in (toLower (graph W) q) (toLower (graph W) s)).
Proof.
  unfold contains_match. rewrite !orb_true_iff, andb_true_iff, !lower_contains_spec.
  pose proof (slug_clause (c_slug c)
                (fun s => occurs_in (toLower (graph W) q) (toLower (graph W) s))) as Hslug.
  cbn beta in Hslug. tauto.
Qed.

(** The tiers when the store answers. *)
Lemma exact_tier_up (q : string) :
  run_fails W cy_exact (VStr q) = false ->
  exact_tier W q = ([EvCypher cy_exact (VStr q)], Ok (head (exact_rows W q))).
Proof. intros Hf. unfold exact_tier. rewrite (run_ok W _ _ Hf). reflexivity. Qed.

Lemma alias_tier_value (q : string) :
  alias_tier W q = ([EvCypher cy_alias (VStr q)],
                    Ok (if run_fails W cy_alias (VStr q) then None
                        else head (alias_rows W q))).
Proof.
  unfold alias_tier. destruct (run_fails W cy_alias (VStr q)) eqn:Hf.
  - rewrite (run_fails_raise W _ _ Hf). reflexivity.
  - rewrite (run_ok W _ _ Hf). reflexivity.
Qed.

Lemma ft_tier_up (q : string) :
  run_fails W cy_ft (VStr q) = false ->
  ft_tier W q = ([EvCypher cy_ft (VStr q)], Ok (head (ft_rows W q))).
Proof. intros Hf. unfold ft_tier. rewrite (run_ok W _ _ Hf). reflexivity. Qed.

Lemma contains_tier_up (q : string) :
  run_fails W cy_contains (VStr q) = false ->
  contains_tier W q = ([EvCypher cy_contains (VStr q)], Ok (head (contains_rows W q))).
Proof. intros Hf. unfold contains_tier. rewrite (run_ok W _ _ Hf). reflexivity. Qed.

(** The manual alias loop when the store answers. *)
Lemma manual_loop_up (q : string) (items : list (string * list string)) :
  store_up W -> Forall (fun e => snd e <> []) items ->
  exists log o, manual_alias_loop W q items = (log, Ok o)
    /\ (forall r, o = Some r ->
          exists key t ts, (key, t :: ts) ∈ items
            /\ occurs_in (_normalize_bn W key) q
            /\ head (contains_rows W t) = Some r)
    /\ (o = None ->
          forall key t ts, (key, t :: ts) ∈ items ->
            occurs_in (_normalize_bn W key) q -> contains_rows W t = []).
Proof.
  intros Hup. induction 1 as [|[key targets] items Hne _ (log & o & IH & Hsome & Hnone)];
    cbn [manual_alias_loop].
  - exists [], None. split; [reflexivity|]. split; [discriminate|].
    intros _ key t ts Hin. apply elem_of_nil in Hin. contradiction.
  - destruct targets as [|t ts]; [contradiction Hne; reflexivity|].
    destruct (Str.contains (_normalize_bn W key) q) eqn:Hc.
    + change (lift (index (t :: ts) 0)) with (ret (F:=F) t). rewrite bind_ret_l.
      rewrite (run_ok W _ _ (Hup _ _)). cbn [eval_cypher text_query].
      destruct (contains_rows W t) as [|r rows] eqn:Hrows.
      * unfold bind. rewrite IH. eexists _, o. split; [reflexivity|]. split.
        -- intros r Hr. destruct (Hsome r Hr) as (key' & t' & ts' & Hin & Hocc & Hhead).
           exists key', t', ts'. split; [apply list_elem_of_further; exact Hin|].
           split; assumption.
        -- intros Ho key' t' ts' Hin Hocc. apply elem_of_cons in Hin as [[= -> -> ->]|Hin].
           ++ exact Hrows.
           ++ eapply Hnone; eassumption.
      * unfold bind, ret. eexists _, (Some r). split; [reflexivity|]. split.
        -- intros r' [= <-]. exists key, t, ts. split; [apply list_elem_of_here|].
           split; [apply contains_occurs; exact Hc|]. rewrite Hrows. reflexivity.
        -- discriminate.
    + exists log, o. split; [exact IH|]. split.
      * intros r Hr. destruct (Hsome r Hr) as (key' & t' & ts' & Hin & Hocc & Hhead).
        exists key', t', ts'. split; [apply list_elem_of_further; exact Hin|].
        split; assumption.
      * intros Ho key' t' ts' Hin Hocc. apply elem_of_cons in Hin as [[= -> -> ->]|Hin].
        -- apply contains_occurs in Hocc. congruence.
        -- eapply Hnone; eassumption.
Qed.

End Resolve.

(** ** ORDER BY *)

Section OrderBy.
Context {A : Type} (R : relation A) `{forall x y, Decision (R x y)}
        `{!Transitive R, !Total R}.

(** The first row of a sorted result is in the input and dominates it. *)
Lemma merge_sort_head (l : list A) (x : A) :
  head (merge_sort R l) = Some x -> x ∈ l /\ forall y, y ∈ l -> R x y.
Proof.
  intros Hhead.
  pose proof (StronglySorted_merge_sort R l) as Hsorted.
  pose proof (merge_sort_Permutation R l) as Hperm.
  destruct (merge_sort R l) as [|x' sorted]; [discriminate|].
  injection Hhead as ->. split.
  - rewrite <- Hperm. apply list_elem_of_here.
  - intros y Hy. rewrite <- Hperm in Hy. apply elem_of_cons in Hy as [->|Hy].
    + destruct (total R x x); assumption.
    + apply StronglySorted_inv in Hsorted as [_ Hall].
      rewrite Forall_forall in Hall. apply Hall. exact Hy.
Qed.

Lemma merge_sort_head_None (l : list A) : head (merge_sort R l) = None <-> l = [].
Proof.
  pose proof (merge_sort_Permutation R l) as Hperm. split.
  - destruct (merge_sort R l); [|discriminate]. intros _.
    apply Permutation_nil. exact Hperm.
  - intros ->. reflexivity.
Qed.

(** In a sorted result an earlier row dominates a later one. *)
Lemma StronglySorted_lookup_lt (l : list A) (i j : nat) (x y : A) :
  StronglySorted R l -> i < j -> l !! i = Some x -> l !! j = Some y -> R x y.
Proof.
  intros Hsorted. revert i j. induction Hsorted as [|z l _ IH Hall]; intros i j Hij Hi Hj.
  - rewrite lookup_nil in Hi. discriminate.
  - destruct j as [|j]; [lia|]. destruct i as [|i]; cbn in Hi, Hj.
    + injection Hi as <-. rewrite Forall_forall in Hall. apply Hall.
      eapply list_elem_of_lookup_2. exact Hj.
    + apply (IH i j); [lia|assumption|assumption].
Qed.

End OrderBy.

#[global] Instance by_production_desc_trans {F} : Transitive (by_production_desc (F:=F)).
Proof. intros x y z. unfold by_production_desc. lia. Qed.

#[global] Instance by_production_desc_total {F} : Total (by_production_desc (F:=F)).
Proof. intros x y. unfold by_production_desc. lia. Qed.

Lemma by_score_desc_le (x y : Crop Q * Q) : by_score_desc x y <-> (snd y <= snd x)%Q.
Proof.
  unfold by_score_desc. change (f_ltb (snd x) (snd y)) with (Qltb (snd x) (snd y)).
  destruct (Qltb (snd x) (snd y)) eqn:Hc; cbn.
  - apply Qltb_lt in Hc. split; [contradiction|]. intros Hle. apply (Qlt_not_le _ _ Hc Hle).
  - apply Qltb_ge in Hc. split; [intros _; exact Hc|intros _; exact I].
Qed.

#[global] Instance by_score_desc_trans : Transitive (by_score_desc (F:=Q)).
Proof. intros x y z. rewrite !by_score_desc_le. intros Hxy Hyz. exact (Qle_trans _ _ _ Hyz Hxy). Qed.

#[global] Instance by_score_desc_total : Total (by_score_desc (F:=Q)).
Proof.
  intros x y. rewrite !by_score_desc_le.
  destruct (Qlt_le_dec (snd x) (snd y)) as [Hlt|Hle]; [right; apply Qlt_le_weak; exact Hlt|left; exact Hle].
Qed.

(** The full-text tier returns the crop of a highest score. *)
Lemma ft_rows_head (W : World Q) (q : string) :
  (forall r, head (ft_rows W q) = Some r ->
     exists c s, (c, s) ∈ fulltext (graph W) q /\ r = crop_row c
       /\ forall c' s', (c', s') ∈ fulltext (graph W) q -> (s' <= s)%Q)
  /\ (head (ft_rows W q) = None <-> fulltext (graph W) q = []).
Proof.
  unfold ft_rows. rewrite head_take_1.
  set (sorted := merge_sort by_score_desc (fulltext (graph W) q)).
  assert (head (crop_row ∘ fst <$> sorted) = crop_row ∘ fst <$> head sorted) as ->
    by (destruct sorted; reflexivity).
  split.
  - intros r Hr. destruct (head sorted) as [[c s]|] eqn:Hhead; [|discriminate].
    injection Hr as <-.
    destruct (merge_sort_head by_score_desc _ _ Hhead) as [Hin Hmax].
    exists c, s. split; [exact Hin|]. split; [reflexivity|].
    intros c' s' Hin'. apply (by_score_desc_le (c, s) (c', s')). apply Hmax. exact Hin'.
  - rewrite <- (merge_sort_head_None by_score_desc). fold sorted.
    destruct (head sorted); cbn; split; intros; congruence.
Qed.

Lemma manual_aliases_targets : Forall (fun e : string * list string => snd e <> []) _MANUAL_ALIASES.
Proof. repeat constructor; discriminate. Qed.

(** C4: [resolve_crop] normalises the query and runs five tiers in the fixed
    order exact, alias, full-text, substring, manual alias table; it returns
    the hit of the first tier that has one, every earlier tier having missed,
    and it returns [None] only when all five miss.  When the store answers,
    the exact tier takes the first crop whose identifier, primary name,
    secondary name or (non-null) slug equals the query up to case, the alias
    tier the first alias whose name equals it up to case, the full-text tier
    a crop of the highest score, the substring tier the first crop one of
    whose names or slug contains the query up to case, and the manual tier
    retries the substring query with the term mapped to a key that the query
    contains. *)
Theorem C4_resolve_crop_tiers (W : World Q) (q0 : string) :
  resolve_crop W q0 = first_hit (tiers W (_normalize_bn W q0))
  /\ (forall log r,
        resolve_crop W q0 = (log, Ok (Some r)) ->
        exists i t, tiers W (_normalize_bn W q0) !! i = Some t /\ snd t = Ok (Some r)
          /\ forall j, j < i ->
               exists t', tiers W (_normalize_bn W q0) !! j = Some t' /\ snd t' = Ok None)
  /\ (forall log,
        resolve_crop W q0 = (log, Ok None) ->
        Forall (fun t => snd t = Ok None) (tiers W (_normalize_bn W q0)))
  /\ (store_up W -> forall q,
        exact_tier W q
          = ([EvCypher cy_exact (VStr q)],
             Ok (crop_row <$> List.find (exact_match W q) (crops (graph W))))
        /\ alias_tier W q
          = ([EvCypher cy_alias (VStr q)],
             Ok (crop_row ∘ snd
                   <$> List.find (fun a => lower_eq W (fst a) q) (alias_of (graph W))))
        /\ ft_tier W q = ([EvCypher cy_ft (VStr q)], Ok (head (ft_rows W q)))
        /\ contains_tier W q
          = ([EvCypher cy_contains (VStr q)],
             Ok (crop_row <$> List.find (contains_match W q) (crops (graph W))))
        /\ exists log o, manual_tier W q = (log, Ok o)
             /\ (forall r, o = Some r ->
                   exists key t ts, (key, t :: ts) ∈ _MANUAL_ALIASES
                     /\ occurs_in (_normalize_bn W key) q
                     /\ head (contains_rows W t) = Some r)
             /\ (o = None ->
                   forall key t ts, (key, t :: ts) ∈ _MANUAL_ALIASES ->
                     occurs_in (_normalize_bn W key) q -> contains_rows W t = []))
  /\ (forall q c,
        exact_match W q c = true <->
        toLower (graph W) (default "" (c_id c)) = toLower (graph W) q
        \/ toLower (graph W) (default "" (c_name_bn c)) = toLower (graph W) q
        \/ toLower (graph W) (default "" (c_name_en c)) = toLower (graph W) q
        \/ (exists s, c_slug c = Some s /\ toLower (graph W) s = toLower (graph W) q))
  /\ (forall q name,
        lower_eq W name q = true <->
        toLower (graph W) (default "" name) = toLower (graph W) q)
  /\ (forall q,
        (forall r, head (ft_rows W q) = Some r ->
           exists c s, (c, s) ∈ fulltext (graph W) q /\ r = crop_row c
             /\ forall c' s', (c', s') ∈ fulltext (graph W) q -> (s' <= s)%Q)
        /\ (head (ft_rows W q) = None <-> fulltext (graph W) q = []))
  /\ (forall q c,
        contains_match W q c = true <->
        occurs_in (toLower (graph W) q) (toLower (graph W) (default "" (c_name_bn c)))
        \/ occurs_in (toLower (graph W) q) (toLower (graph W) (default "" (c_name_en c)))
        \/ (exists s, c_slug c = Some s
              /\ occurs_in (toLower (graph W) q) (toLower (graph W) s))).
Proof.
  split; [apply resolve_crop_first_hit|].
  split; [intros log r Hres; rewrite resolve_crop_first_hit in Hres;
          eapply first_hit_Some; exact Hres|].
  split; [intros log Hres; rewrite resolve_crop_first_hit in Hres;
          eapply first_hit_None; exact Hres|].
  split.
  { intros Hup q.
    split; [rewrite (exact_tier_up W q (Hup _ _)), exact_rows_head; reflexivity|].
    split; [rewrite alias_tier_value, (Hup _ _), alias_rows_head; reflexivity|].
    split; [apply ft_tier_up, Hup|].
    split; [rewrite (contains_tier_up W q (Hup _ _)), contains_rows_head; reflexivity|].
    apply manual_loop_up; [exact Hup|exact manual_aliases_targets]. }
  split; [intros q c; apply exact_match_spec|].
  split; [intros q name; apply lower_eq_spec|].
  split; [intros q; apply ft_rows_head|].
  intros q c. apply contains_match_spec.
Qed.

(** ** Totality of the graph answer when the store answers *)

Section GraphAnswerUp.
Context {F : Type} `{PyFloat F} (W : World F).

Lemma head_fmap_shape {A B} (f : A -> B) (l : list A) (y : B) :
  head (take 1 (f <$> l)) = Some y -> exists x, y = f x.
Proof.
  rewrite head_take_1. destruct l as [|x l]; [discriminate|].
  cbn. intros [= <-]. exists x. reflexivity.
Qed.

Lemma resolve_crop_up (q : string) :
  store_up W ->
  exists log o, resolve_crop W q = (log, Ok o) /\ forall r, o = Some r -> is_crop_row r.
Proof.
  intros Hup. rewrite resolve_crop_first_hit. unfold tiers. cbn [first_hit].
  set (nq := _normalize_bn W q).
  rewrite (exact_tier_up W nq (Hup _ _)), alias_tier_value, (Hup cy_alias),
    (ft_tier_up W nq (Hup _ _)), (contains_tier_up W nq (Hup _ _)).
  destruct (manual_loop_up W nq _MANUAL_ALIASES Hup manual_aliases_targets)
    as (logm & om & Hm & Hsome & _).
  unfold manual_tier. rewrite Hm.
  assert (forall r, om = Some r -> is_crop_row r) as Hmshape.
  { intros r Hr. destruct (Hsome r Hr) as (key & t & ts & _ & _ & Hhead).
    unfold contains_rows in Hhead. apply head_fmap_shape in Hhead. exact Hhead. }
  destruct (head (exact_rows W nq)) as [r1|] eqn:H1.
  { eexists _, (Some r1). split; [reflexivity|]. intros r [= <-].
    unfold exact_rows in H1. apply head_fmap_shape in H1. exact H1. }
  destruct (head (alias_rows W nq)) as [r2|] eqn:H2.
  { eexists _, (Some r2). split; [reflexivity|]. intros r [= <-].
    unfold alias_rows in H2. apply head_fmap_shape in H2 as [a ->].
    exists (snd a). reflexivity. }
  destruct (head (ft_rows W nq)) as [r3|] eqn:H3.
  { eexists _, (Some r3). split; [reflexivity|]. intros r [= <-].
    unfold ft_rows in H3. apply head_fmap_shape in H3 as [a ->].
    exists (fst a). reflexivity. }
  destruct (head (contains_rows W nq)) as [r4|] eqn:H4.
  { eexists _, (Some r4). split; [reflexivity|]. intros r [= <-].
    unfold contains_rows in H4. apply head_fmap_shape in H4. exact H4. }
  destruct om as [r5|].
  - eexists _, (Some r5). split; [reflexivity|]. intros r [= <-]. apply Hmshape. reflexivity.
  - eexists _, None. split; [reflexivity|]. discriminate.
Qed.

Lemma graph_answer_up (q : string) :
  store_up W -> exists log r, graph_answer_for_crop W q = (log, Ok r).
Proof.
  intros Hup. unfold graph_answer_for_crop.
  destruct (resolve_crop_up q Hup) as (log & o & -> & Hshape).
  destruct o as [r|]; [|eexists _, _; reflexivity].
  destruct (Hshape r eq_refl) as [c ->].
  unfold bind at 1. rewrite crop_row_truthy, get_crop_id.
  change (lift (Ok (opt_str (c_id c)))) with (ret (F:=F) (opt_str (F:=F) (c_id c))).
  rewrite bind_ret_l.
  unfold crop_seasons, crop_locations, crop_climate, crop_diseases.
  rewrite !(run_ok W _ _ (Hup _ _)). cbn [eval_cypher].
  destruct (render_bullets_total W (season_rows W (opt_str (c_id c)))
              (location_rows W 10 (opt_str (c_id c)))
              (head (climate_rows W (opt_str (c_id c))))
              (disease_rows W (opt_str (c_id c)))) as (bullets & Hb).
  { apply Forall_fmap_intro. intros s. exists s. reflexivity. }
  { apply Forall_fmap_intro. intros d. exists d. reflexivity. }
  cbn. rewrite Hb. cbn. eexists _, _. reflexivity.
Qed.

End GraphAnswerUp.

(** ** The bullets *)

Section Bullets.
Context {F : Type} `{PyFloat F} (W : World F).

Lemma season_bullet_label (rows : list (row F)) (b : list string) :
  season_bullet rows = Ok b -> Forall not_temperature b.
Proof.
  unfold season_bullet. destruct rows as [|r rows]; [intros [= <-]; constructor|].
  destruct (_ <$> List.filter _ _) as [|n names]; [intros [= <-]; constructor|].
  destruct (str_join " / " (n :: names)) as [e|j]; [discriminate|].
  intros [= <-]. constructor; [reflexivity|constructor].
Qed.

Lemma disease_bullet_label (rows : list (row F)) (b : list string) :
  disease_bullet rows = Ok b -> Forall not_temperature b.
Proof.
  unfold disease_bullet. destruct rows as [|r rows]; [intros [= <-]; constructor|].
  destruct (str_join " / " _) as [e|j]; [discriminate|].
  intros [= <-]. constructor; [reflexivity|constructor].
Qed.

Lemma humidity_bullet_label (climate : option (row F)) :
  Forall not_temperature (humidity_bullet W climate).
Proof.
  unfold humidity_bullet. destruct climate as [cl|]; [|constructor].
  destruct (_ && _); [|constructor]. constructor; [reflexivity|constructor].
Qed.

Lemma location_bullet_label (locs : list (row F)) :
  Forall not_temperature (location_bullet W locs).
Proof.
  unfold location_bullet. destruct locs as [|r locs]; [constructor|].
  destruct (negb _); [|constructor]. constructor; [reflexivity|constructor].
Qed.

Lemma get_not_None_truthy (cl : row F) (k : string) :
  get cl k <> VNone -> dict_truthy (Some cl) = true.
Proof.
  unfold get, get_default, dict_truthy. intros Hk.
  destruct (cl !! k) as [v|] eqn:Hlook; [|contradiction Hk; reflexivity].
  apply negb_true_iff, Nat.eqb_neq. intros Hsize.
  apply map_size_empty_inv in Hsize. rewrite Hsize, lookup_empty in Hlook. discriminate.
Qed.

Lemma is_not_None_spec (v : value F) : is_not_None v = true <-> v <> VNone.
Proof. destruct v; cbn; split; congruence. Qed.

(** The temperature bullet is there exactly when a bound is. *)
Lemma temperature_bullet_spec (climate : option (row F)) :
  (has_temperature climate ->
     exists cl, climate = Some cl
       /\ temperature_bullet W climate
          = [temperature_label ++ bound_text W (get cl "min_temp_c") ++ "–"
               ++ bound_text W (get cl "max_temp_c") ++ "°C"])
  /\ (~ has_temperature climate -> temperature_bullet W climate = []).
Proof.
  unfold temperature_bullet. split.
  - intros (cl & -> & Hbound). exists cl. split; [reflexivity|].
    assert (dict_truthy (Some cl) = true) as ->
      by (destruct Hbound; eapply get_not_None_truthy; eassumption).
    assert (is_not_None (get cl "min_temp_c") || is_not_None (get cl "max_temp_c") = true) as ->
      by (rewrite orb_true_iff, !is_not_None_spec; exact Hbound).
    reflexivity.
  - intros Hno. destruct climate as [cl|]; [|reflexivity].
    destruct (dict_truthy (Some cl)); [|reflexivity]. cbn [andb].
    destruct (is_not_None (get cl "min_temp_c") || is_not_None (get cl "max_temp_c")) eqn:Hb;
      [|reflexivity].
    exfalso. apply Hno. exists cl. split; [reflexivity|].
    rewrite orb_true_iff, !is_not_None_spec in Hb. exact Hb.
Qed.

Lemma has_temperature_dec (climate : option (row F)) :
  has_temperature climate \/ ~ has_temperature climate.
Proof.
  destruct climate as [cl|]; [|right; intros (cl & [=] & _)].
  destruct (is_not_None (get cl "min_temp_c") || is_not_None (get cl "max_temp_c")) eqn:Hb.
  - left. exists cl. split; [reflexivity|].
    rewrite orb_true_iff, !is_not_None_spec in Hb. exact Hb.
  - right. intros (cl' & [= <-] & Hbound).
    rewrite <- !is_not_None_spec, <- orb_true_iff in Hbound. congruence.
Qed.

Lemma temperature_label_prefix (rest : string) :
  is_temperature_bullet (temperature_label ++ rest) = true.
Proof. apply prefix_app. exists rest. reflexivity. Qed.

Lemma render_bullets_inv (seasons locs : list (row F)) (climate : option (row F))
    (diseases : list (row F)) (bullets : list string) :
  render_bullets W seasons locs climate diseases = Ok bullets ->
  exists b1 b4,
    Forall not_temperature b1 /\ Forall not_temperature b4
    /\ bullets = (b1 ++ temperature_bullet W climate ++ humidity_bullet W climate
                     ++ b4 ++ location_bullet W locs)%list.
Proof.
  unfold render_bullets.
  destruct (season_bullet seasons) as [e|b1] eqn:H1; [discriminate|].
  destruct (disease_bullet diseases) as [e|b4] eqn:H4; [discriminate|].
  intros [= <-]. exists b1, b4.
  split; [eapply season_bullet_label; exact H1|].
  split; [eapply disease_bullet_label; exact H4|reflexivity].
Qed.

Lemma render_bullets_temperature (seasons locs : list (row F)) (climate : option (row F))
    (diseases : list (row F)) (bullets : list string) :
  render_bullets W seasons locs climate diseases = Ok bullets ->
  (Exists (fun b => is_temperature_bullet b = true) bullets <-> has_temperature climate)
  /\ (~ has_temperature climate -> Forall not_temperature bullets)
  /\ (forall cl, climate = Some cl -> has_temperature climate ->
        (temperature_label ++ bound_text W (get cl "min_temp_c") ++ "–"
           ++ bound_text W (get cl "max_temp_c") ++ "°C") ∈ bullets).
Proof.
  intros (b1 & b4 & Hb1 & Hb4 & ->)%render_bullets_inv.
  destruct (temperature_bullet_spec climate) as [Hyes Hno].
  pose proof (humidity_bullet_label climate) as Hb3.
  pose proof (location_bullet_label locs) as Hb5.
  assert (~ has_temperature climate ->
          Forall not_temperature
            (b1 ++ temperature_bullet W climate ++ humidity_bullet W climate
                ++ b4 ++ location_bullet W locs)%list) as Hnone.
  { intros Hn. rewrite (Hno Hn). repeat (apply Forall_app; split); try assumption.
    constructor. }
  split; [split|split].
  - intros Hex. destruct (has_temperature_dec climate) as [Hh|Hn]; [exact Hh|].
    exfalso. apply Exists_exists in Hex as (b & Hin & Htemp).
    specialize (Hnone Hn). rewrite Forall_forall in Hnone.
    rewrite (Hnone b Hin) in Htemp. discriminate.
  - intros Hh. destruct (Hyes Hh) as (cl & _ & ->).
    apply Exists_app. right. apply Exists_cons_hd. apply temperature_label_prefix.
  - exact Hnone.
  - intros cl -> Hh. destruct (Hyes Hh) as (cl' & [= <-] & ->).
    apply elem_of_app. right. apply list_elem_of_here.
Qed.

End Bullets.

(** C7: in the answer for a resolved crop, a bullet opening with the
    temperature label is present exactly when the climate row holds
    [min_temp_c] or [max_temp_c]; without climate data (no row, or a row with
    neither bound) no bullet opens with that label; with only [min_temp_c]
    the bullet is the label, the minimum in Bangla digits, the en dash, the
    placeholder dash and the unit.  When the store answers, the aggregator
    returns for every question. *)
Theorem C7_temperature_bullet {F} `{PyFloat F} (W : World F) (q : string) :
  (forall log r,
      graph_answer_for_crop W q = (log, Ok r) -> ok r = true ->
      exists bullets, bullets_bn r = Some bullets
        /\ (Exists (fun b => is_temperature_bullet b = true) bullets
            <-> has_temperature (facts_climate r))
        /\ (facts_climate r = None
            \/ (exists c, facts_climate r = Some (climate_row c)
                  /\ c_min_temp_c c = None /\ c_max_temp_c c = None) ->
            Forall (fun b => is_temperature_bullet b = false) bullets)
        /\ (forall c x,
              facts_climate r = Some (climate_row c) ->
              c_min_temp_c c = Some x -> c_max_temp_c c = None ->
              (temperature_label ++ _bn_num W (VFloat x) ++ "–" ++ "—" ++ "°C") ∈ bullets))
  /\ (store_up W -> exists log r, graph_answer_for_crop W q = (log, Ok r)).
Proof.
  split; [|apply graph_answer_up].
  intros log r Hrun Hok.
  destruct (graph_answer_inv W q log r Hrun Hok)
    as (c0 & crop_id & bullets & _ & _ & _ & _ & _ & _ & Hrender & Hbullets).
  destruct (render_bullets_temperature W _ _ _ _ _ Hrender) as (Hiff & Hnone & Hin).
  exists bullets. split; [exact Hbullets|]. split; [exact Hiff|]. split.
  - intros Hno. apply Hnone. intros (cl & Hcl & Hbound).
    destruct Hno as [Hno|(c & Hc & Hmin & Hmax)]; [congruence|].
    rewrite Hc in Hcl. injection Hcl as <-.
    destruct (get_climate c) as (Hgmin & Hgmax & _).
    rewrite Hgmin, Hgmax, Hmin, Hmax in Hbound. destruct Hbound as [Hb|Hb]; apply Hb; reflexivity.
  - intros c x Hc Hmin Hmax.
    destruct (get_climate c) as (Hgmin & Hgmax & _).
    assert (has_temperature (facts_climate r)) as Hh.
    { exists (climate_row c). split; [exact Hc|]. left. rewrite Hgmin, Hmin. discriminate. }
    specialize (Hin (climate_row c) Hc Hh).
    rewrite Hgmin, Hgmax, Hmin, Hmax in Hin. exact Hin.
Qed.

(** C7 for the crop "Aman" of the sample world, which has a minimum of 20
    degrees and no maximum. *)
Lemma C7_temperature_bullet_witness :
  exists bullets,
    bullets_bn Scenario.aman_answer = Some bullets
    /\ "তাপমাত্রা: ২০–—°C" ∈ bullets.
Proof.
  destruct (C7_temperature_bullet Scenario.up "Aman") as [Hbullet _].
  destruct (Hbullet (fst (graph_answer_for_crop Scenario.up "Aman")) Scenario.aman_answer)
    as (bullets & Hb & _ & _ & Hmin).
  - vm_compute. reflexivity.
  - vm_compute. reflexivity.
  - exists bullets. split; [exact Hb|].
    apply (Hmin Scenario.aman (20 # 1)%Q); [vm_compute; reflexivity|reflexivity|reflexivity].
Defined.

(** ** The shape of the bullets *)

Section Anatomy.
Context {F : Type} `{PyFloat F} (W : World F).

Lemma opens_with_app (label rest : string) : opens_with label (label ++ rest).
Proof. apply prefix_app. exists rest. reflexivity. Qed.

Lemma season_bullet_shape (rows : list (row F)) (b : list string) :
  season_bullet rows = Ok b -> length b <= 1 /\ Forall (opens_with season_label) b.
Proof.
  unfold season_bullet. destruct rows as [|r rows].
  { intros [= <-]. split; [simpl; lia|constructor]. }
  destruct (_ <$> List.filter _ _) as [|n names].
  { intros [= <-]. split; [simpl; lia|constructor]. }
  destruct (str_join " / " (n :: names)) as [e|j]; [discriminate|].
  intros [= <-]. split; [simpl; lia|].
  constructor; [apply (opens_with_app season_label)|constructor].
Qed.

Lemma disease_bullet_shape (rows : list (row F)) (b : list string) :
  disease_bullet rows = Ok b -> length b <= 1 /\ Forall (opens_with disease_label) b.
Proof.
  unfold disease_bullet. destruct rows as [|r rows].
  { intros [= <-]. split; [simpl; lia|constructor]. }
  destruct (str_join " / " _) as [e|j]; [discriminate|].
  intros [= <-]. split; [simpl; lia|].
  constructor; [apply (opens_with_app disease_label)|constructor].
Qed.

Lemma temperature_bullet_shape (climate : option (row F)) :
  length (temperature_bullet W climate) <= 1
  /\ Forall (opens_with temperature_label) (temperature_bullet W climate).
Proof.
  unfold temperature_bullet. destruct climate as [cl|]; [|split; [simpl; lia|constructor]].
  destruct (_ && _); [|split; [simpl; lia|constructor]].
  split; [simpl; lia|]. constructor; [apply (opens_with_app temperature_label)|constructor].
Qed.

Lemma humidity_bullet_shape (climate : option (row F)) :
  length (humidity_bullet W climate) <= 1
  /\ Forall (opens_with humidity_label) (humidity_bullet W climate).
Proof.
  unfold humidity_bullet. destruct climate as [cl|]; [|split; [simpl; lia|constructor]].
  destruct (_ && _); [|split; [simpl; lia|constructor]].
  split; [simpl; lia|]. constructor; [apply (opens_with_app humidity_label)|constructor].
Qed.

Lemma location_bullet_shape (locs : list (row F)) :
  length (location_bullet W locs) <= 1
  /\ Forall (opens_with location_label) (location_bullet W locs).
Proof.
  unfold location_bullet. destruct locs as [|r locs]; [split; [simpl; lia|constructor]|].
  destruct (negb _); [|split; [simpl; lia|constructor]].
  split; [simpl; lia|]. constructor; [apply (opens_with_app location_label)|constructor].
Qed.

Lemma render_bullets_parts (seasons locs : list (row F)) (climate : option (row F))
    (diseases : list (row F)) (bullets : list string) :
  render_bullets W seasons locs climate diseases = Ok bullets ->
  exists b1 b4,
    season_bullet seasons = Ok b1 /\ disease_bullet diseases = Ok b4
    /\ bullets = (b1 ++ temperature_bullet W climate ++ humidity_bullet W climate
                     ++ b4 ++ location_bullet W locs)%list.
Proof.
  unfold render_bullets.
  destruct (season_bullet seasons) as [e|b1]; [discriminate|].
  destruct (disease_bullet diseases) as [e|b4]; [discriminate|].
  intros [= <-]. exists b1, b4. auto.
Qed.

End Anatomy.

(** ** Locations *)

Lemma bytes_app (a b : string) : bytes (a ++ b) = (bytes a ++ bytes b)%list.
Proof.
  unfold bytes. induction a as [|c a IH]; [reflexivity|].
  rewrite append_cons. cbn [list_ascii_of_string app]. f_equal. exact IH.
Qed.

Lemma bytes_of_chars (l : list string) :
  bytes (Str.of_chars l) = concat (bytes <$> l).
Proof.
  unfold Str.of_chars, Str.join. induction l as [|a l IH]; [reflexivity|].
  rewrite fmap_cons. cbn [concat]. rewrite <- IH.
  destruct l as [|b l]; cbn [String.concat].
  - rewrite app_nil_r. reflexivity.
  - rewrite bytes_app, append_nil. reflexivity.
Qed.
Section Locations.
Context {F : Type} `{PyFloat F} (W : World F).

Lemma filter_length_le {A} (p : A -> bool) (l : list A) :
  length (List.filter p l) <= length l.
Proof.
  induction l as [|x l IH]; [reflexivity|]. cbn [List.filter].
  destruct (p x); cbn [length]; lia.
Qed.





End Locations.





Section LocationBullet.
Context {F : Type} `{PyFloat F} (W : World F).













End LocationBullet.



(** * Further properties *)

(** ** The reranker *)

Section RerankShape.
Context {F : Type} `{PyFloat F}.

Lemma mmr_scan_unfold (lam : F) (toks : list (gset string)) (sel : list nat) (j : nat)
    (h : row F) (rest : list (row F)) (best_j : option nat) (best : F) :
  mmr_scan lam toks sel j (h :: rest) best_j best
  = if bool_decide (j ∈ sel) then mmr_scan lam toks sel (S j) rest best_j best
    else rbind (score_at lam toks sel j h) (fun score =>
           if f_ltb best score then mmr_scan lam toks sel (S j) rest (Some j) score
           else mmr_scan lam toks sel (S j) rest best_j best).
Proof.
  cbn [mmr_scan]. case_bool_decide; [reflexivity|].
  unfold score_at.
  destruct (getitem h "cosine_sim") as [e|relv]; [reflexivity|]. cbn [rbind].
  destruct (redundancy toks sel j) as [e|red]; [reflexivity|]. cbn [rbind].
  destruct (as_number relv) as [e|rel]; reflexivity.
Qed.

Lemma mmr_scan_where (lam : F) (toks : list (gset string)) (sel : list nat)
    (hs : list (row F)) (j : nat) (best_j : option nat) (best : F) (r : option nat) :
  mmr_scan lam toks sel j hs best_j best = Ok r ->
  forall b, r = Some b -> best_j = Some b \/ (j <= b < j + length hs /\ b ∉ sel).
Proof.
  revert j best_j best. induction hs as [|h hs IH]; intros j best_j best.
  - cbn [mmr_scan]. intros [= <-] b ->. left. reflexivity.
  - rewrite mmr_scan_unfold. cbn [length]. case_bool_decide as Hin.
    + intros Hr b Hb. destruct (IH _ _ _ Hr b Hb) as [?|[? ?]]; [left; assumption|].
      right. split; [lia|assumption].
    + destruct (score_at lam toks sel j h) as [e|score]; [discriminate|]. cbn [rbind].
      destruct (f_ltb best score).
      * intros Hr b Hb. right. destruct (IH _ _ _ Hr b Hb) as [[= <-]|[? ?]].
        -- split; [lia|exact Hin].
        -- split; [lia|assumption].
      * intros Hr b Hb. destruct (IH _ _ _ Hr b Hb) as [?|[? ?]]; [left; assumption|].
        right. split; [lia|assumption].
Qed.

Lemma selection_snoc {A} (hits : list A) (idx : list nat) (out : list A) (j : nat) (h : A) :
  selection hits idx out -> hits !! j = Some h -> selection hits (idx ++ [j]) (out ++ [h]).
Proof.
  intros Hs Hj. apply Forall2_app; [exact Hs|]. constructor; [exact Hj|constructor].
Qed.

Lemma index_inv {A} (l : list A) (i : nat) (x : A) : index l i = Ok x -> l !! i = Some x.
Proof. unfold index. destruct (l !! i); [intros [= ->]; reflexivity|discriminate]. Qed.

Lemma mmr_while_shape (room : nat) (lam : F) (k : Z) (hits : list (row F))
    (toks : list (gset string)) (selected : list (row F)) (sel : list nat)
    (out : list (row F)) :
  mmr_while room lam k hits toks selected sel = Ok out ->
  NoDup sel -> selection hits sel selected ->
  exists idx, NoDup idx /\ selection hits idx out /\ sel `prefix_of` idx
    /\ selected `prefix_of` out
    /\ (Z.of_nat (length out) <= Z.max (Z.of_nat (length selected)) k)%Z.
Proof.
  revert selected sel. induction room as [|room IH]; intros selected sel; cbn [mmr_while].
  - intros [= <-] Hnd Hs. exists sel. repeat split; try assumption; try reflexivity. lia.
  - destruct (Z.of_nat (length selected) <? k)%Z eqn:Hlt.
    + destruct (mmr_scan lam toks sel 0 hits None f_sentinel) as [e|[j|]] eqn:Hscan;
        cbn [rbind]; try discriminate.
      destruct (index hits j) as [e|h] eqn:Hh; cbn [rbind]; [discriminate|].
      intros Hout Hnd Hs.
      destruct (mmr_scan_where _ _ _ _ _ _ _ _ Hscan j eq_refl) as [?|[_ Hnj]]; [discriminate|].
      apply index_inv in Hh.
      destruct (IH _ _ Hout) as (idx & Hnd' & Hs' & Hp & Hp' & Hlen).
      * apply NoDup_app. split; [exact Hnd|]. split.
        -- intros x Hx Hx'. apply list_elem_of_singleton in Hx'. subst x. contradiction.
        -- apply NoDup_singleton.
      * apply selection_snoc; assumption.
      * exists idx. split; [exact Hnd'|]. split; [exact Hs'|]. split.
        -- etransitivity; [|exact Hp]. apply prefix_app_r. reflexivity.
        -- split; [etransitivity; [|exact Hp']; apply prefix_app_r; reflexivity|].
           rewrite length_app in Hlen. simpl in Hlen. apply Z.ltb_lt in Hlt. lia.
    + intros [= <-] Hnd Hs. exists sel. repeat split; try assumption; try reflexivity. lia.
Qed.

Lemma selection_all {A} (hits : list A) : selection hits (seq 0 (length hits)) hits.
Proof.
  unfold selection. apply Forall2_lookup. intros i.
  destruct (hits !! i) as [h|] eqn:Hi.
  - rewrite lookup_seq_lt by (apply lookup_lt_Some in Hi; exact Hi).
    constructor. exact Hi.
  - rewrite lookup_seq_ge by (apply lookup_ge_None in Hi; exact Hi). constructor.
Qed.

Lemma mmr_rerank_shape (qvec : list F) (hits : list (row F)) (lam : F) (k : Z)
    (out : list (row F)) :
  mmr_rerank qvec hits lam k = Ok out ->
  exists idx, NoDup idx /\ selection hits idx out
    /\ (Z.of_nat (length out) <= Z.max 1 k)%Z.
Proof.
  unfold mmr_rerank. destruct (Z.of_nat (length hits) <=? k)%Z eqn:Hle.
  - intros [= <-]. exists (seq 0 (length hits)). split; [apply NoDup_seq|].
    split; [apply selection_all|]. apply Z.leb_le in Hle. lia.
  - destruct (rmapM token_set hits) as [e|toks]; cbn [rbind]; [discriminate|].
    destruct (rmapM cosine_sim hits) as [e|sims]; cbn [rbind]; [discriminate|].
    destruct (np_argmax sims) as [e|i0]; cbn [rbind]; [discriminate|].
    destruct (index hits i0) as [e|h0] eqn:Hh0; cbn [rbind]; [discriminate|].
    intros Hout. apply index_inv in Hh0.
    destruct (mmr_while_shape _ _ _ _ _ _ _ _ Hout) as (idx & Hnd & Hs & _ & _ & Hlen).
    + apply NoDup_singleton.
    + constructor; [exact Hh0|constructor].
    + exists idx. split; [exact Hnd|]. split; [exact Hs|]. simpl in Hlen. lia.
Qed.

End RerankShape.

(** X1: whatever the arithmetic, a result of [mmr_rerank] lists candidates of
    the input at pairwise distinct positions, each position being in range;
    it has at most max(1, top_k) items and never more than there are
    candidates. *)
Theorem mmr_rerank_selects_distinct_candidates {F} `{PyFloat F}
    (qvec : list F) (hits : list (row F)) (lam : F) (k : Z) (out : list (row F)) :
  mmr_rerank qvec hits lam k = Ok out ->
  exists idx, NoDup idx /\ selection hits idx out
    /\ Forall (fun i => i < length hits) idx
    /\ length out <= length hits
    /\ (Z.of_nat (length out) <= Z.max 1 k)%Z.
Proof.
  intros Hout. destruct (mmr_rerank_shape _ _ _ _ _ Hout) as (idx & Hnd & Hs & Hlen).
  assert (Forall (fun i => i < length hits) idx) as Hrange.
  { apply Forall_forall. intros i Hi.
    apply list_elem_of_lookup in Hi as [n Hn].
    destruct (Forall2_lookup_l _ _ _ _ _ Hs Hn) as (h & _ & Hh).
    apply lookup_lt_Some in Hh. exact Hh. }
  exists idx. split; [exact Hnd|]. split; [exact Hs|]. split; [exact Hrange|].
  split; [|exact Hlen].
  rewrite <- (Forall2_length _ _ _ Hs).
  assert (length idx <= length (seq 0 (length hits))) as Hle.
  { apply NoDup_incl_length; [apply NoDup_ListNoDup; exact Hnd|].
    intros i Hi. apply in_seq. apply list_elem_of_In in Hi.
    rewrite Forall_forall in Hrange. specialize (Hrange i Hi). lia. }
  rewrite length_seq in Hle. exact Hle.
Qed.

Lemma argmax_from_spec (pre xs : list Q) (best_i : nat) (best : Q) :
  pre !! best_i = Some best ->
  (forall j y, pre !! j = Some y -> (y <= best)%Q /\ (j < best_i -> (y < best)%Q)) ->
  first_maximum (pre ++ xs)%list (argmax_from best_i best (length pre) xs).
Proof.
  revert pre best_i best. induction xs as [|x xs IH]; intros pre best_i best Hb Hall.
  - cbn [argmax_from]. rewrite app_nil_r. exists best. split; [exact Hb|exact Hall].
  - cbn [argmax_from]. change (f_ltb best x) with (Qltb best x).
    replace (pre ++ x :: xs)%list with ((pre ++ [x]) ++ xs)%list by (rewrite <- app_assoc; reflexivity).
    replace (S (length pre)) with (length (pre ++ [x])%list) by (rewrite length_app; simpl; lia).
    destruct (Qltb best x) eqn:Hcmp.
    + apply Qltb_lt in Hcmp. apply IH.
      * rewrite lookup_app_r by lia. rewrite Nat.sub_diag. reflexivity.
      * intros j y Hj. apply lookup_app_Some in Hj as [Hj|[Hge Hj]].
        -- destruct (Hall j y Hj) as [Hle _]. split; [lra|intros _; lra].
        -- apply list_lookup_singleton_Some in Hj as [Hz ->].
           split; [lra|]. intros Hlt. lia.
    + apply Qltb_ge in Hcmp. apply IH.
      * apply lookup_app_l_Some. exact Hb.
      * intros j y Hj. apply lookup_app_Some in Hj as [Hj|[Hge Hj]].
        -- apply Hall. exact Hj.
        -- apply list_lookup_singleton_Some in Hj as [Hz ->].
           split; [exact Hcmp|]. intros Hlt. apply lookup_lt_Some in Hb. lia.
Qed.

Lemma np_argmax_spec (xs : list Q) (i : nat) :
  np_argmax xs = Ok i -> first_maximum xs i.
Proof.
  destruct xs as [|x xs]; [discriminate|]. cbn [np_argmax]. intros [= <-].
  apply (argmax_from_spec [x] xs 0 x); [reflexivity|].
  intros j y Hj. apply list_lookup_singleton_Some in Hj as [-> ->].
  split; [lra|lia].
Qed.

Lemma rmapM_lookup_l {A B} (f : A -> res B) (l : list A) (ys : list B) (i : nat) (x : A) :
  rmapM f l = Ok ys -> l !! i = Some x -> exists y, ys !! i = Some y /\ f x = Ok y.
Proof.
  intros Hm Hx. pose proof (rmapM_length _ _ _ Hm) as Hlen.
  destruct (lookup_lt_is_Some_2 ys i) as [y Hy].
  { rewrite Hlen. apply lookup_lt_Some in Hx. exact Hx. }
  exists y. split; [exact Hy|].
  destruct (rmapM_lookup _ _ _ _ _ Hm Hy) as (x' & Hx' & Hf). congruence.
Qed.

(** One pass over the candidates, started at position [length pre] with the
    best candidate so far: the passes of the loop keep the first candidate of
    maximal score above the sentinel. *)
Lemma mmr_scan_greedy (lam : Q) (toks : list (gset string)) (sel : list nat)
    (pre hs : list (row Q)) (best_j : option nat) (best : Q) (r : option nat) :
  (f_sentinel <= best)%Q ->
  match best_j with
  | None => best = f_sentinel
  | Some b => (b ∉ sel) /\ (f_sentinel < best)%Q
              /\ exists h, pre !! b = Some h /\ score_at lam toks sel b h = Ok best
  end ->
  (forall j' h', pre !! j' = Some h' -> j' ∉ sel ->
     exists s', score_at lam toks sel j' h' = Ok s' /\ (s' <= best)%Q
       /\ match best_j with
          | Some b => j' < b -> (s' < best)%Q
          | None => True
          end) ->
  mmr_scan lam toks sel (length pre) hs best_j best = Ok r ->
  match r with
  | Some b => greedy_pick lam toks (pre ++ hs)%list sel b
  | None => forall j' h', (pre ++ hs)%list !! j' = Some h' -> j' ∉ sel ->
              exists s', score_at lam toks sel j' h' = Ok s' /\ (s' <= f_sentinel)%Q
  end.
Proof.
  revert pre best_j best. induction hs as [|h hs IH]; intros pre best_j best Hsent Hbest Hall.
  - cbn [mmr_scan]. intros [= <-]. rewrite app_nil_r. destruct best_j as [b|].
    + destruct Hbest as (Hnb & Hlt & h & Hh & Hscore).
      split; [exact Hnb|]. exists h, best. split; [exact Hh|]. split; [exact Hscore|].
      split; [exact Hlt|]. intros j' h' Hj' Hnj'. apply Hall; assumption.
    + subst best. intros j' h' Hj' Hnj'.
      destruct (Hall j' h' Hj' Hnj') as (s' & Hs' & Hle & _). exists s'. split; assumption.
  - rewrite mmr_scan_unfold.
    replace (pre ++ h :: hs)%list with ((pre ++ [h]) ++ hs)%list
      by (rewrite <- app_assoc; reflexivity).
    replace (S (length pre)) with (length (pre ++ [h])%list)
      by (rewrite length_app; simpl; lia).
    case_bool_decide as Hin.
    + apply IH; [exact Hsent| |].
      * destruct best_j as [b|]; [|exact Hbest].
        destruct Hbest as (Hnb & Hlt & h0 & Hh0 & Hscore).
        split; [exact Hnb|]. split; [exact Hlt|]. exists h0. split; [|exact Hscore].
        apply lookup_app_l_Some. exact Hh0.
      * intros j' h' Hj' Hnj'. apply lookup_app_Some in Hj' as [Hj'|[Hge Hj']].
        -- apply Hall; assumption.
        -- apply list_lookup_singleton_Some in Hj' as [Hz ->].
           assert (j' = length pre) by lia. subst j'. contradiction.
    + destruct (score_at lam toks sel (length pre) h) as [e|score] eqn:Hscore;
        cbn [rbind]; [discriminate|].
      change (f_ltb best score) with (Qltb best score).
      destruct (Qltb best score) eqn:Hcmp.
      * apply Qltb_lt in Hcmp. apply IH.
        -- lra.
        -- split; [exact Hin|]. split; [lra|]. exists h. split; [|exact Hscore].
           rewrite lookup_app_r by lia. rewrite Nat.sub_diag. reflexivity.
        -- intros j' h' Hj' Hnj'. apply lookup_app_Some in Hj' as [Hj'|[Hge Hj']].
           ++ destruct (Hall j' h' Hj' Hnj') as (s' & Hs' & Hle & _).
              exists s'. split; [exact Hs'|]. split; [lra|intros _; lra].
           ++ apply list_lookup_singleton_Some in Hj' as [Hz ->].
              assert (j' = length pre) by lia. subst j'.
              exists score. split; [exact Hscore|]. split; [lra|lia].
      * apply Qltb_ge in Hcmp. apply IH; [exact Hsent| |].
        -- destruct best_j as [b|]; [|exact Hbest].
           destruct Hbest as (Hnb & Hlt & h0 & Hh0 & Hscore0).
           split; [exact Hnb|]. split; [exact Hlt|]. exists h0. split; [|exact Hscore0].
           apply lookup_app_l_Some. exact Hh0.
        -- intros j' h' Hj' Hnj'. apply lookup_app_Some in Hj' as [Hj'|[Hge Hj']].
           ++ apply Hall; assumption.
           ++ apply list_lookup_singleton_Some in Hj' as [Hz ->].
              assert (j' = length pre) by lia. subst j'.
              exists score. split; [exact Hscore|]. split; [exact Hcmp|].
              destruct best_j as [b|]; [|exact I].
              destruct Hbest as (_ & _ & h0 & Hh0 & _).
              apply lookup_lt_Some in Hh0. intros ?. lia.
Qed.

Lemma mmr_scan_pick (lam : Q) (toks : list (gset string)) (sel : list nat)
    (hits : list (row Q)) (r : option nat) :
  mmr_scan lam toks sel 0 hits None f_sentinel = Ok r ->
  match r with
  | Some b => greedy_pick lam toks hits sel b
  | None => forall j' h', hits !! j' = Some h' -> j' ∉ sel ->
              exists s', score_at lam toks sel j' h' = Ok s' /\ (s' <= f_sentinel)%Q
  end.
Proof.
  intros Hr. apply (mmr_scan_greedy lam toks sel [] hits None f_sentinel r).
  - apply Qle_refl.
  - reflexivity.
  - intros j' h' Hj'. rewrite lookup_nil in Hj'. discriminate.
  - exact Hr.
Qed.

Lemma mmr_while_greedy (room : nat) (lam : Q) (k : Z) (hits : list (row Q))
    (toks : list (gset string)) (selected : list (row Q)) (sel : list nat)
    (out : list (row Q)) :
  mmr_while room lam k hits toks selected sel = Ok out ->
  selection hits sel selected ->
  exists idx, selection hits idx out /\ sel `prefix_of` idx
    /\ forall n j, length sel <= n -> idx !! n = Some j ->
         greedy_pick lam toks hits (take n idx) j.
Proof.
  revert selected sel. induction room as [|room IH]; intros selected sel; cbn [mmr_while].
  - intros [= <-] Hs. exists sel. split; [exact Hs|]. split; [reflexivity|].
    intros n j Hn Hj. apply lookup_lt_Some in Hj. lia.
  - destruct (Z.of_nat (length selected) <? k)%Z.
    + destruct (mmr_scan lam toks sel 0 hits None f_sentinel) as [e|[j|]] eqn:Hscan;
        cbn [rbind]; try discriminate.
      destruct (index hits j) as [e|h] eqn:Hh; cbn [rbind]; [discriminate|].
      intros Hout Hs. apply index_inv in Hh.
      pose proof (mmr_scan_pick _ _ _ _ _ Hscan) as Hpick. cbn beta iota in Hpick.
      destruct (IH _ _ Hout (selection_snoc _ _ _ _ _ Hs Hh)) as (idx & Hs' & Hp & Hg).
      exists idx. split; [exact Hs'|]. split.
      * etransitivity; [|exact Hp]. apply prefix_app_r. reflexivity.
      * intros n j' Hn Hj'. destruct (decide (n = length sel)) as [->|Hne].
        -- destruct Hp as [tl ->].
           rewrite <- app_assoc in Hj' |- *.
           rewrite lookup_app_r in Hj' by lia. rewrite Nat.sub_diag in Hj'.
           simpl in Hj'. injection Hj' as <-.
           rewrite take_app_length. exact Hpick.
        -- apply Hg; [|exact Hj']. rewrite length_app. simpl. lia.
    + intros [= <-] Hs. exists sel. split; [exact Hs|]. split; [reflexivity|].
      intros n j Hn Hj. apply lookup_lt_Some in Hj. lia.
Qed.

Lemma mmr_rerank_greedy_inv (qvec : list Q) (hits : list (row Q)) (lam : Q) (k : Z)
    (out : list (row Q)) :
  (k < Z.of_nat (length hits))%Z ->
  mmr_rerank qvec hits lam k = Ok out ->
  exists toks sims i0 idx,
    rmapM token_set hits = Ok toks /\ rmapM cosine_sim hits = Ok sims
    /\ first_maximum sims i0
    /\ selection hits (i0 :: idx) out
    /\ forall n j, (i0 :: idx) !! S n = Some j ->
         greedy_pick lam toks hits (take (S n) (i0 :: idx)) j.
Proof.
  intros Hk. unfold mmr_rerank. apply Z.leb_gt in Hk. rewrite Hk.
  destruct (rmapM token_set hits) as [e|toks]; cbn [rbind]; [discriminate|].
  destruct (rmapM cosine_sim hits) as [e|sims]; cbn [rbind]; [discriminate|].
  destruct (np_argmax sims) as [e|i0] eqn:Hmax; cbn [rbind]; [discriminate|].
  destruct (index hits i0) as [e|h0] eqn:Hh0; cbn [rbind]; [discriminate|].
  intros Hout. apply index_inv in Hh0.
  destruct (mmr_while_greedy _ _ _ _ _ _ _ _ Hout) as (idx & Hs & Hp & Hg).
  { constructor; [exact Hh0|constructor]. }
  destruct Hp as [tl ->]. exists toks, sims, i0, tl.
  split; [reflexivity|]. split; [reflexivity|].
  split; [apply np_argmax_spec; exact Hmax|]. split; [exact Hs|].
  intros n j Hj. apply Hg; [simpl; lia|exact Hj].
Qed.

(** X2: above the short-circuit, the first item of the result is the first
    candidate of maximal similarity, whatever the weight. *)
Theorem mmr_rerank_first_is_most_similar (qvec : list Q) (hits : list (row Q)) (lam : Q)
    (k : Z) (out : list (row Q)) :
  (k < Z.of_nat (length hits))%Z ->
  mmr_rerank qvec hits lam k = Ok out ->
  exists i0 h0 s0 rest,
    out = h0 :: rest /\ hits !! i0 = Some h0 /\ cosine_sim h0 = Ok s0
    /\ forall j h, hits !! j = Some h ->
         exists s, cosine_sim h = Ok s /\ (s <= s0)%Q /\ (j < i0 -> (s < s0)%Q).
Proof.
  intros Hk Hout.
  destruct (mmr_rerank_greedy_inv _ _ _ _ _ Hk Hout)
    as (toks & sims & i0 & idx & _ & Hsims & (s0 & Hs0 & Hmax) & Hsel & _).
  inversion Hsel as [|i h0 idx' rest Hh0 Hrest]; subst.
  destruct (rmapM_lookup _ _ _ _ _ Hsims Hs0) as (h0' & Hh0' & Hc0).
  assert (h0' = h0) by congruence. subst h0'.
  exists i0, h0, s0, rest. split; [reflexivity|]. split; [exact Hh0|]. split; [exact Hc0|].
  intros j h Hj. destruct (rmapM_lookup_l _ _ _ _ _ Hsims Hj) as (s & Hs & Hc).
  exists s. split; [exact Hc|]. apply (Hmax j s Hs).
Qed.

(** ** The order of computed scores *)

#[global] Instance Q_FloatOrder : FloatOrder Q.
Proof.
  split.
  - intros a b Hab. apply Qltb_lt in Hab. apply Qltb_ge. lra.
  - intros a b c _ Hac. apply Qltb_lt in Hac.
    destruct (Qltb a b) eqn:Hab; [left; exact Hab|right].
    apply Qltb_ge in Hab. apply Qltb_lt. lra.
  - reflexivity.
Qed.

Ltac sf_cases :=
  repeat match goal with
         | s : bool |- _ => destruct s
         end;
  cbn; change (Pos.compare_cont Eq) with Pos.compare;
  repeat match goal with
         | |- context [Z.compare ?x ?y] => destruct (Z.compare_spec x y); cbn
         | |- context [Pos.compare ?x ?y] => destruct (Pos.compare_spec x y); cbn
         end;
  try (intros; subst;
       first [reflexivity | discriminate | lia | (left; reflexivity) | (right; reflexivity)]).

Lemma SFltb_asym (a b : SpecFloat.spec_float) :
  SpecFloat.SFltb a b = true -> SpecFloat.SFltb b a = false.
Proof.
  unfold SpecFloat.SFltb. destruct a as [sa|sa| |sa ma ea], b as [sb|sb| |sb mb eb]; sf_cases.
Qed.

Lemma SFltb_between (a b c : SpecFloat.spec_float) :
  sf_number b = true -> SpecFloat.SFltb a c = true ->
  SpecFloat.SFltb a b = true \/ SpecFloat.SFltb b c = true.
Proof.
  unfold SpecFloat.SFltb.
  destruct a as [sa|sa| |sa ma ea], b as [sb|sb| |sb mb eb], c as [sc|sc| |sc mc ec];
    sf_cases.
Qed.

Lemma SFeqb_number (a : SpecFloat.spec_float) :
  SpecFloat.SFeqb a a = true -> sf_number a = true.
Proof. destruct a; [reflexivity..|discriminate|reflexivity]. Qed.

#[global] Instance binary64_FloatOrder : FloatOrder float.
Proof.
  split.
  - intros a b. cbn [f_ltb binary64_PyFloat]. rewrite !FloatAxioms.ltb_spec. apply SFltb_asym.
  - intros a b c Hb. unfold number in Hb. cbn [f_ltb f_eqb binary64_PyFloat] in *.
    rewrite FloatAxioms.eqb_spec in Hb. rewrite !FloatAxioms.ltb_spec.
    apply SFltb_between. apply SFeqb_number. exact Hb.
  - reflexivity.
Qed.

Section PassPick.
Context {F : Type} `{FloatOrder F}.

Lemma f_ltb_irrefl (a : F) : f_ltb a a = false.
Proof.
  destruct (f_ltb a a) eqn:Ha; [|reflexivity].
  pose proof (f_ltb_asym a a Ha). congruence.
Qed.

(** A number that is not above [a] is below everything [a] is below. *)
Lemma f_ltb_step (a b c : F) :
  number b -> f_ltb a b = false -> f_ltb a c = true ->
  f_ltb b c = true /\ f_ltb c b = false.
Proof.
  intros Hb Hab Hac. destruct (f_ltb_between a b c Hb Hac) as [Hlt|Hlt]; [congruence|].
  split; [exact Hlt|apply f_ltb_asym; exact Hlt].
Qed.

Lemma f_ltb_above_sentinel (best score : F) :
  f_ltb f_sentinel best = true -> f_ltb best score = true -> f_ltb f_sentinel score = true.
Proof.
  intros Hs Hb. destruct (f_ltb_between best f_sentinel score f_sentinel_number Hb) as [Hlt|Hlt];
    [|exact Hlt].
  pose proof (f_ltb_asym _ _ Hs). congruence.
Qed.

Lemma pass_scores_elem (lam : F) (toks : list (gset string)) (hits : list (row F))
    (sel : list nat) (j : nat) (h : row F) (s : F) :
  hits !! j = Some h -> j ∉ sel -> score_at lam toks sel j h = Ok s ->
  s ∈ pass_scores lam toks hits sel.
Proof.
  intros Hj Hn Hs. unfold pass_scores. apply list_elem_of_omap.
  exists (j, h). split.
  - apply (list_elem_of_lookup_2 _ j). rewrite list_lookup_imap, Hj. reflexivity.
  - cbn [fst snd]. rewrite bool_decide_eq_false_2 by exact Hn. rewrite Hs. reflexivity.
Qed.

(** One pass over the candidates, started at position [length pre] with the
    best candidate so far. *)
Lemma mmr_scan_pass (lam : F) (toks : list (gset string)) (sel : list nat)
    (pre hs : list (row F)) (best_j : option nat) (best : F) (b : nat) :
  (forall j' h' s', (pre ++ hs)%list !! j' = Some h' -> j' ∉ sel ->
     score_at lam toks sel j' h' = Ok s' -> number s') ->
  match best_j with
  | None => best = f_sentinel
  | Some b0 => (b0 ∉ sel) /\ f_ltb f_sentinel best = true
               /\ exists h, pre !! b0 = Some h /\ score_at lam toks sel b0 h = Ok best
  end ->
  (forall j' h', pre !! j' = Some h' -> j' ∉ sel ->
     exists s', score_at lam toks sel j' h' = Ok s' /\ f_ltb best s' = false
       /\ match best_j with
          | Some b0 => j' < b0 -> f_ltb s' best = true
          | None => True
          end) ->
  mmr_scan lam toks sel (length pre) hs best_j best = Ok (Some b) ->
  pass_pick lam toks (pre ++ hs)%list sel b.
Proof.
  revert pre best_j best. induction hs as [|h hs IH]; intros pre best_j best Hnum Hbest Hall.
  - cbn [mmr_scan]. intros [= ->]. rewrite app_nil_r.
    destruct Hbest as (Hnb & Hlt & h & Hh & Hscore).
    split; [exact Hnb|]. exists h, best. split; [exact Hh|]. split; [exact Hscore|].
    split; [exact Hlt|]. intros j' h' Hj' Hnj'. apply Hall; assumption.
  - rewrite mmr_scan_unfold.
    replace (pre ++ h :: hs)%list with ((pre ++ [h]) ++ hs)%list in *
      by (rewrite <- app_assoc; reflexivity).
    replace (S (length pre)) with (length (pre ++ [h])%list)
      by (rewrite length_app; simpl; lia).
    assert (forall h0 b0, pre !! b0 = Some h0 -> (pre ++ [h])%list !! b0 = Some h0) as Hpre
      by (intros; apply lookup_app_l_Some; assumption).
    assert ((pre ++ [h])%list !! length pre = Some h) as Hhere
      by (rewrite lookup_app_r by lia; rewrite Nat.sub_diag; reflexivity).
    case_bool_decide as Hin.
    + apply IH; [exact Hnum| |].
      * destruct best_j as [b0|]; [|exact Hbest].
        destruct Hbest as (Hnb & Hlt & h0 & Hh0 & Hscore).
        split; [exact Hnb|]. split; [exact Hlt|]. exists h0. split; [|exact Hscore].
        apply Hpre. exact Hh0.
      * intros j' h' Hj' Hnj'. apply lookup_app_Some in Hj' as [Hj'|[Hge Hj'] ].
        -- apply Hall; assumption.
        -- apply list_lookup_singleton_Some in Hj' as [Hz ->].
           assert (j' = length pre) by lia. subst j'. contradiction.
    + destruct (score_at lam toks sel (length pre) h) as [e|score] eqn:Hscore;
        cbn [rbind]; [discriminate|].
      destruct (f_ltb best score) eqn:Hcmp.
      * apply IH; [exact Hnum| |].
        -- split; [exact Hin|]. split; [|exists h; split; [exact Hhere|exact Hscore] ].
           destruct best_j as [b0|]; [|subst best; exact Hcmp].
           destruct Hbest as (_ & Hlt & _). exact (f_ltb_above_sentinel _ _ Hlt Hcmp).
        -- intros j' h' Hj' Hnj'. apply lookup_app_Some in Hj' as [Hj'|[Hge Hj'] ].
           ++ destruct (Hall j' h' Hj' Hnj') as (s' & Hs' & Hle & _).
              exists s'. split; [exact Hs'|].
              assert (number s') as Hn'.
              { apply (Hnum j' h' s'); [|exact Hnj'|exact Hs'].
                apply lookup_app_l_Some, Hpre. exact Hj'. }
              destruct (f_ltb_step best s' score Hn' Hle Hcmp) as [Hlt Hge].
              split; [exact Hge|intros _; exact Hlt].
           ++ apply list_lookup_singleton_Some in Hj' as [Hz ->].
              assert (j' = length pre) by lia. subst j'.
              exists score. split; [exact Hscore|]. split; [apply f_ltb_irrefl|lia].
      * apply IH; [exact Hnum| |].
        -- destruct best_j as [b0|]; [|exact Hbest].
           destruct Hbest as (Hnb & Hlt & h0 & Hh0 & Hscore0).
           split; [exact Hnb|]. split; [exact Hlt|]. exists h0. split; [|exact Hscore0].
           apply Hpre. exact Hh0.
        -- intros j' h' Hj' Hnj'. apply lookup_app_Some in Hj' as [Hj'|[Hge Hj'] ].
           ++ apply Hall; assumption.
           ++ apply list_lookup_singleton_Some in Hj' as [Hz ->].
              assert (j' = length pre) by lia. subst j'.
              exists score. split; [exact Hscore|]. split; [exact Hcmp|].
              destruct best_j as [b0|]; [|exact I].
              destruct Hbest as (_ & _ & h0 & Hh0 & _).
              apply lookup_lt_Some in Hh0. intros ?. lia.
Qed.

Lemma mmr_scan_pass_pick (lam : F) (toks : list (gset string)) (sel : list nat)
    (hits : list (row F)) (b : nat) :
  Forall number (pass_scores lam toks hits sel) ->
  mmr_scan lam toks sel 0 hits None f_sentinel = Ok (Some b) ->
  pass_pick lam toks hits sel b.
Proof.
  intros Hnum Hr. apply (mmr_scan_pass lam toks sel [] hits None f_sentinel b).
  - intros j' h' s' Hj' Hn' Hs'. rewrite Forall_forall in Hnum. apply Hnum.
    eapply pass_scores_elem; eassumption.
  - reflexivity.
  - intros j' h' Hj'. rewrite lookup_nil in Hj'. discriminate.
  - exact Hr.
Qed.

Lemma mmr_while_passes (room : nat) (lam : F) (k : Z) (hits : list (row F))
    (toks : list (gset string)) (selected : list (row F)) (sel : list nat)
    (out : list (row F)) :
  mmr_while room lam k hits toks selected sel = Ok out ->
  selection hits sel selected ->
  exists idx, selection hits idx out /\ sel `prefix_of` idx
    /\ forall n j, length sel <= n -> idx !! n = Some j ->
         Forall number (pass_scores lam toks hits (take n idx)) ->
         pass_pick lam toks hits (take n idx) j.
Proof.
  revert selected sel. induction room as [|room IH]; intros selected sel; cbn [mmr_while].
  - intros [= <-] Hs. exists sel. split; [exact Hs|]. split; [reflexivity|].
    intros n j Hn Hj. apply lookup_lt_Some in Hj. lia.
  - destruct (Z.of_nat (length selected) <? k)%Z.
    + destruct (mmr_scan lam toks sel 0 hits None f_sentinel) as [e|[j|] ] eqn:Hscan;
        cbn [rbind]; try discriminate.
      destruct (index hits j) as [e|h] eqn:Hh; cbn [rbind]; [discriminate|].
      intros Hout Hs. apply index_inv in Hh.
      destruct (IH _ _ Hout (selection_snoc _ _ _ _ _ Hs Hh)) as (idx & Hs' & Hp & Hg).
      exists idx. split; [exact Hs'|]. split.
      * etransitivity; [|exact Hp]. apply prefix_app_r. reflexivity.
      * intros n j' Hn Hj'. destruct (decide (n = length sel)) as [->|Hne].
        -- destruct Hp as [tl ->].
           rewrite <- app_assoc in Hj' |- *.
           rewrite lookup_app_r in Hj' by lia. rewrite Nat.sub_diag in Hj'.
           simpl in Hj'. injection Hj' as <-.
           rewrite take_app_length. intros Hnum.
           apply mmr_scan_pass_pick; assumption.
        -- apply Hg; [|exact Hj']. rewrite length_app. simpl. lia.
    + intros [= <-] Hs. exists sel. split; [exact Hs|]. split; [reflexivity|].
      intros n j Hn Hj. apply lookup_lt_Some in Hj. lia.
Qed.

Lemma mmr_rerank_passes (qvec : list F) (hits : list (row F)) (lam : F) (k : Z)
    (out : list (row F)) :
  (k < Z.of_nat (length hits))%Z ->
  mmr_rerank qvec hits lam k = Ok out ->
  exists toks idx,
    rmapM token_set hits = Ok toks /\ selection hits idx out
    /\ forall n j, idx !! S n = Some j ->
         Forall number (pass_scores lam toks hits (take (S n) idx)) ->
         pass_pick lam toks hits (take (S n) idx) j.
Proof.
  intros Hk. unfold mmr_rerank. apply Z.leb_gt in Hk. rewrite Hk.
  destruct (rmapM token_set hits) as [e|toks]; cbn [rbind]; [discriminate|].
  destruct (rmapM cosine_sim hits) as [e|sims]; cbn [rbind]; [discriminate|].
  destruct (np_argmax sims) as [e|i0] eqn:Hmax; cbn [rbind]; [discriminate|].
  destruct (index hits i0) as [e|h0] eqn:Hh0; cbn [rbind]; [discriminate|].
  intros Hout. apply index_inv in Hh0.
  destruct (mmr_while_passes _ _ _ _ _ _ _ _ Hout) as (idx & Hs & Hp & Hg).
  { constructor; [exact Hh0|constructor]. }
  exists toks, idx. split; [reflexivity|]. split; [exact Hs|].
  intros n j Hj. apply Hg; [simpl; lia|exact Hj].
Qed.

End PassPick.

(** X3: above the short-circuit, every later item of the result is the pick
    of a pass over the candidates not yet selected, in the arithmetic of the
    run.  For candidates as the vector store returns them, and in a pass whose
    computed scores are all numbers, the pick is the first candidate whose
    computed score is maximal, and that score is above the sentinel.  This
    holds for exact rationals and for binary64, where the computed score is
    the rounded one. *)
Theorem mmr_rerank_later_picks_are_greedy {F} `{FloatOrder F} (qvec : list F)
    (hits : list (row F)) (lam : F) (k : Z) (out : list (row F)) :
  (k < Z.of_nat (length hits))%Z ->
  Forall scored_row hits ->
  mmr_rerank qvec hits lam k = Ok out ->
  exists toks idx,
    rmapM token_set hits = Ok toks /\ selection hits idx out
    /\ forall n j, idx !! S n = Some j ->
         Forall number (pass_scores lam toks hits (take (S n) idx)) ->
         pass_pick lam toks hits (take (S n) idx) j.
Proof.
  intros Hk _ Hout. exact (mmr_rerank_passes qvec hits lam k out Hk Hout).
Qed.

Lemma score_at_relevance (lam : Q) (toks : list (gset string)) (sel : list nat) (j : nat)
    (h : row Q) (s : Q) :
  (lam == 1)%Q -> score_at lam toks sel j h = Ok s ->
  exists rel, cosine_sim h = Ok rel /\ (s == rel)%Q.
Proof.
  intros Hlam. unfold score_at, cosine_sim.
  destruct (getitem h "cosine_sim") as [e|relv]; cbn [rbind]; [discriminate|].
  destruct (redundancy toks sel j) as [e|red]; cbn [rbind]; [discriminate|].
  destruct (as_number relv) as [e|rel]; cbn [rbind]; [discriminate|].
  intros [= <-]. exists rel. split; [reflexivity|].
  unfold mmr_score. simpl. change (inject_Z 1) with 1%Q. rewrite Hlam. ring.
Qed.

Lemma NoDup_fresh_prefix {A} (l : list A) :
  (forall n x, l !! n = Some x -> x ∉ take n l) -> NoDup l.
Proof.
  induction l as [|a l IH] using rev_ind; intros Hfresh; [constructor|].
  apply NoDup_app. split; [|split].
  - apply IH. intros n x Hn.
    pose proof (lookup_lt_Some _ _ _ Hn) as Hlt.
    specialize (Hfresh n x). rewrite lookup_app_l in Hfresh by exact Hlt.
    rewrite take_app_le in Hfresh by lia. apply Hfresh. exact Hn.
  - intros x Hx Hx'. apply list_elem_of_singleton in Hx'. subst x.
    specialize (Hfresh (length l) a).
    rewrite lookup_app_r in Hfresh by lia. rewrite Nat.sub_diag in Hfresh.
    rewrite take_app_length in Hfresh. apply Hfresh; [reflexivity|exact Hx].
  - apply NoDup_singleton.
Qed.

(** X4: with the weight 1 the redundancy does not count: above the
    short-circuit the result lists candidates in descending order of
    similarity, and no candidate left out is more similar than a selected
    one. *)
Theorem mmr_rerank_weight_1_orders_by_similarity (qvec : list Q) (hits : list (row Q))
    (lam : Q) (k : Z) (out : list (row Q)) :
  (lam == 1)%Q ->
  (k < Z.of_nat (length hits))%Z ->
  mmr_rerank qvec hits lam k = Ok out ->
  exists idx sims,
    NoDup idx /\ selection hits idx out /\ rmapM cosine_sim out = Ok sims
    /\ (forall n x y, sims !! n = Some x -> sims !! S n = Some y -> (y <= x)%Q)
    /\ (forall j h s x, hits !! j = Some h -> j ∉ idx -> cosine_sim h = Ok s ->
          x ∈ sims -> (s <= x)%Q).
Proof.
  intros Hlam Hk Hout.
  destruct (mmr_rerank_greedy_inv _ _ _ _ _ Hk Hout)
    as (toks & sims0 & i0 & idx & _ & Hsims0 & (s0 & Hs0 & Hmax) & Hsel & Hg).
  set (full := i0 :: idx) in *.
  (* every selected item dominates what was not selected before it *)
  assert (forall n a ha sa, full !! n = Some a -> hits !! a = Some ha ->
            cosine_sim ha = Ok sa ->
            forall j' h' s', hits !! j' = Some h' -> j' ∉ take n full ->
              cosine_sim h' = Ok s' -> (s' <= sa)%Q) as Hdom.
  { intros [|m] a ha sa Ha Hha Hsa j' h' s' Hj' Hnj' Hs'.
    - injection Ha as <-.
      destruct (rmapM_lookup_l _ _ _ _ _ Hsims0 Hj') as (y & Hy & Hcy).
      destruct (rmapM_lookup_l _ _ _ _ _ Hsims0 Hha) as (y0 & Hy0 & Hcy0).
      assert (y = s') by congruence. assert (y0 = sa) by congruence. subst y y0.
      assert (s0 = sa) by congruence. subst s0. apply (Hmax j' s' Hy).
    - destruct (Hg m a Ha) as (_ & h & s & Hh & Hscore & _ & Hbest).
      assert (h = ha) by congruence. subst h.
      destruct (score_at_relevance _ _ _ _ _ _ Hlam Hscore) as (rel & Hrel & Heq).
      assert (rel = sa) by congruence. subst rel.
      destruct (Hbest j' h' Hj' Hnj') as (t & Ht & Hle & _).
      destruct (score_at_relevance _ _ _ _ _ _ Hlam Ht) as (rel' & Hrel' & Heq').
      assert (rel' = s') by congruence. subst rel'. lra. }
  assert (NoDup full) as Hnd.
  { apply NoDup_fresh_prefix. intros [|m] x Hx; [simpl; apply not_elem_of_nil|].
    destruct (Hg m x Hx) as (Hfresh & _). exact Hfresh. }
  assert (Forall (fun h => exists y, cosine_sim h = Ok y) out) as Hok.
  { apply Forall_forall. intros h Hh. apply list_elem_of_lookup in Hh as [n Hn].
    destruct (Forall2_lookup_r _ _ _ _ _ Hsel Hn) as (a & _ & Ha).
    destruct (rmapM_lookup_l _ _ _ _ _ Hsims0 Ha) as (y & _ & Hy). exists y. exact Hy. }
  destruct (rmapM_total _ _ Hok) as (sims & Hsims).
  exists full, sims. split; [exact Hnd|]. split; [exact Hsel|]. split; [exact Hsims|]. split.
  - intros n x y Hx Hy.
    destruct (rmapM_lookup _ _ _ _ _ Hsims Hx) as (hx & Hhx & Hcx).
    destruct (rmapM_lookup _ _ _ _ _ Hsims Hy) as (hy & Hhy & Hcy).
    destruct (Forall2_lookup_r _ _ _ _ _ Hsel Hhx) as (a & Ha & Hha).
    destruct (Forall2_lookup_r _ _ _ _ _ Hsel Hhy) as (b & Hb & Hhb).
    apply (Hdom n a hx x Ha Hha Hcx b hy y Hhb); [|exact Hcy].
    intros Hin. apply list_elem_of_lookup in Hin as [m Hm].
    apply lookup_take_Some in Hm as [Hm Hlt].
    pose proof (NoDup_lookup _ _ _ _ Hnd Hm Hb). lia.
  - intros j h s x Hj Hnj Hs Hx. apply list_elem_of_lookup in Hx as [n Hn].
    destruct (rmapM_lookup _ _ _ _ _ Hsims Hn) as (hx & Hhx & Hcx).
    destruct (Forall2_lookup_r _ _ _ _ _ Hsel Hhx) as (a & Ha & Hha).
    apply (Hdom n a hx x Ha Hha Hcx j h s Hj); [|exact Hs].
    intros Hin. apply Hnj. apply (subseteq_take n). exact Hin.
Qed.

(** ** The search path *)

Section RerankEdges.
Context {F : Type} `{PyFloat F}.

Lemma argmax_from_bound (xs : list F) (best_i i : nat) (best : F) :
  best_i < i -> argmax_from best_i best i xs < i + length xs.
Proof.
  revert best_i i best. induction xs as [|x xs IH]; intros best_i i best Hlt; simpl; [lia|].
  destruct (f_ltb best x).
  - specialize (IH i (S i) x ltac:(lia)). lia.
  - specialize (IH best_i (S i) best ltac:(lia)). lia.
Qed.

Lemma np_argmax_bound (xs : list F) :
  xs <> [] -> exists idx, np_argmax xs = Ok idx /\ idx < length xs.
Proof.
  destruct xs as [|x xs]; [congruence|]. intros _.
  eexists. split; [reflexivity|]. simpl.
  pose proof (argmax_from_bound xs 0 1 x ltac:(lia)). lia.
Qed.

Lemma rmapM_raise {A B} (f : A -> res B) (pre post : list A) (x : A) (e : exn) :
  Forall (fun a => exists b, f a = Ok b) pre -> f x = Raise e ->
  rmapM f (pre ++ x :: post) = Raise e.
Proof.
  intros Hpre Hx. induction Hpre as [|a pre [b Hb] _ IH]; cbn [rmapM app].
  - rewrite Hx. reflexivity.
  - rewrite Hb. cbn [rbind]. rewrite IH. reflexivity.
Qed.

End RerankEdges.

(** X5: at the edges of [top_k].  An empty candidate list is returned as it
    is when [top_k] is 0 or more, and is a [ValueError] (from [np.argmax])
    when [top_k] is negative.  For a [top_k] of 0 or less, a non-empty list
    of candidates that carry a text and a similarity gives exactly one item,
    not none. *)
Theorem mmr_rerank_edges_of_top_k {F} `{PyFloat F} (qvec : list F) (lam : F) (k : Z) :
  mmr_rerank qvec [] lam k = (if (0 <=? k)%Z then Ok [] else Raise ValueError)
  /\ forall h hits,
       (k <= 0)%Z ->
       Forall (fun c => (exists s, c !! "text" = Some (VStr s))
                        /\ exists v x, c !! "cosine_sim" = Some v /\ as_number v = Ok x)
              (h :: hits) ->
       exists best, best ∈ h :: hits /\ mmr_rerank qvec (h :: hits) lam k = Ok [best].
Proof.
  split.
  - unfold mmr_rerank. cbn [length]. change (Z.of_nat 0) with 0%Z.
    destruct (0 <=? k)%Z; reflexivity.
  - intros h hits Hk Hwf. unfold mmr_rerank.
    assert ((Z.of_nat (length (h :: hits)) <=? k)%Z = false) as ->
      by (apply Z.leb_gt; cbn [length]; lia).
    destruct (rmapM_total token_set (h :: hits)) as (toks & ->).
    { eapply Forall_impl; [exact Hwf|]. intros c [[s Hs] _].
      unfold token_set, getitem. rewrite Hs. cbn. eexists. reflexivity. }
    destruct (rmapM_total cosine_sim (h :: hits)) as (sims & Hsims).
    { eapply Forall_impl; [exact Hwf|]. intros c [_ (v & x & Hv & Hx)].
      unfold cosine_sim, getitem. rewrite Hv. cbn [rbind]. exists x. exact Hx. }
    cbn [rbind]. rewrite Hsims. cbn [rbind].
    pose proof (rmapM_length _ _ _ Hsims) as Hlen.
    destruct (np_argmax_bound sims) as (idx & -> & Hidx).
    { intros ->. discriminate Hlen. }
    cbn [rbind]. destruct (index_lt (h :: hits) idx ltac:(lia)) as (h0 & -> & Hh0).
    cbn [rbind]. exists h0. split; [apply list_elem_of_lookup; exists idx; exact Hh0|].
    destruct (length (h :: hits) - 1) as [|room]; cbn [mmr_while]; [reflexivity|].
    assert ((Z.of_nat (length [h0]) <? k)%Z = false) as -> by (apply Z.ltb_ge; simpl; lia).
    reflexivity.
Qed.

(** X6: above the short-circuit the candidates are inspected, tokens first.
    The first candidate without a [text] key is a [KeyError], a [text] of
    [None] is an [AttributeError]; when every text is a string, the first
    candidate without a [cosine_sim] key is a [KeyError]. *)
Theorem mmr_rerank_malformed_candidate {F} `{PyFloat F} (qvec : list F)
    (pre post : list (row F)) (h : row F) (lam : F) (k : Z) :
  (k < Z.of_nat (length (pre ++ h :: post)))%Z ->
  (Forall (fun c => exists s, c !! "text" = Some (VStr s)) pre ->
     (h !! "text" = None -> mmr_rerank qvec (pre ++ h :: post) lam k = Raise KeyError)
     /\ (h !! "text" = Some VNone ->
         mmr_rerank qvec (pre ++ h :: post) lam k = Raise AttributeError))
  /\ (Forall (fun c => exists s, c !! "text" = Some (VStr s)) (pre ++ h :: post) ->
      Forall (fun c => exists v x, c !! "cosine_sim" = Some v /\ as_number v = Ok x) pre ->
      h !! "cosine_sim" = None -> mmr_rerank qvec (pre ++ h :: post) lam k = Raise KeyError).
Proof.
  intros Hk. apply Z.leb_gt in Hk. unfold mmr_rerank. rewrite Hk.
  assert (forall l : list (row F),
            Forall (fun c => exists s, c !! "text" = Some (VStr s)) l ->
            Forall (fun c => exists t, token_set c = Ok t) l) as Htok.
  { intros l Hl. eapply Forall_impl; [exact Hl|]. intros c [s Hs].
    unfold token_set, getitem. rewrite Hs. cbn. eexists. reflexivity. }
  split.
  - intros Hpre. apply Htok in Hpre. split; intros Hh.
    + rewrite (rmapM_raise token_set pre post h KeyError Hpre); [reflexivity|].
      unfold token_set, getitem. rewrite Hh. reflexivity.
    + rewrite (rmapM_raise token_set pre post h AttributeError Hpre); [reflexivity|].
      unfold token_set, getitem. rewrite Hh. reflexivity.
  - intros Hall Hpre. apply Htok in Hall. destruct (rmapM_total _ _ Hall) as (toks & ->).
    cbn [rbind].
    assert (Forall (fun c => exists x, cosine_sim c = Ok x) pre) as Hsim.
    { eapply Forall_impl; [exact Hpre|]. intros c (v & x & Hv & Hx).
      unfold cosine_sim, getitem. rewrite Hv. cbn [rbind]. exists x. exact Hx. }
    intros Hh.
    rewrite (rmapM_raise cosine_sim pre post h KeyError Hsim); [reflexivity|].
    unfold cosine_sim, getitem. rewrite Hh. reflexivity.
Qed.

Section SearchPath.
Context {F : Type} `{PyFloat F} (W : World F).

Lemma fetch_knn_unavailable (qvec : list F) (fetch_k : Z) (source language : value F) :
  HAS_DB W = false \/ connect_fails W = true ->
  fetch_knn W qvec fetch_k source language
  = ((if HAS_DB W then [EvConnect] else []), Ok []).
Proof.
  unfold fetch_knn, _conn. intros [Hdb|Hconn].
  - rewrite Hdb. reflexivity.
  - destruct (HAS_DB W); [|reflexivity]. rewrite Hconn. reflexivity.
Qed.

Lemma slice_to_take {A} (k : Z) (l : list A) : exists n, slice_to k l = take n l.
Proof. unfold slice_to. destruct (0 <=? k)%Z; eexists; reflexivity. Qed.

Lemma selection_take {A} (n : nat) (l : list A) :
  selection l (seq 0 (length (take n l))) (take n l).
Proof.
  unfold selection. apply Forall2_lookup. intros i.
  destruct (take n l !! i) as [h|] eqn:Hi.
  - rewrite lookup_seq_lt by (apply lookup_lt_Some in Hi; exact Hi).
    constructor. apply lookup_take_Some in Hi as [Hi _]. exact Hi.
  - rewrite lookup_seq_ge by (apply lookup_ge_None in Hi; exact Hi). constructor.
Qed.

End SearchPath.

(** X7: [search] without a reachable vector store.  When the driver modules
    are missing or the connection cannot be opened, the query is embedded,
    no SQL is sent, and the result is the empty list; only with MMR and a
    negative [k] is it the [ValueError] of [np.argmax].  When the embedding
    itself fails, the exception leaves [search] before the store is
    contacted. *)
Theorem search_without_vector_store {F} `{PyFloat F} (W : World F) (query : string)
    (k fetch_k : Z) (source language : value F) (use_mmr : bool) (lam : F) :
  (forall e, encode W ("query: " ++ query) = Raise e ->
     search W query k fetch_k source language use_mmr lam
     = ([EvEncode ("query: " ++ query)], Raise e))
  /\ (forall qvec, encode W ("query: " ++ query) = Ok qvec ->
        HAS_DB W = false \/ connect_fails W = true ->
        search W query k fetch_k source language use_mmr lam
        = (EvEncode ("query: " ++ query) :: (if HAS_DB W then [EvConnect] else []),
           if use_mmr && (k <? 0)%Z then Raise ValueError else Ok [])).
Proof.
  split.
  - intros e He. unfold search, embed_query, bind, emit, lift. rewrite He. reflexivity.
  - intros qvec Hq Hdown. unfold search, embed_query, emit, lift.
    rewrite bind_Ok. cbn [fst snd]. rewrite Hq. rewrite bind_Ok.
    rewrite (fetch_knn_unavailable W qvec fetch_k source language Hdown).
    rewrite bind_Ok. cbn [fst snd app].
    destruct use_mmr; cbn [andb].
    + unfold mmr_rerank. cbn [length]. change (Z.of_nat 0) with 0%Z.
      rewrite Z.leb_antisym. destruct (k <? 0)%Z; cbn [negb]; rewrite ?app_nil_r; reflexivity.
    + destruct (slice_to_take k (@nil (row F))) as [n ->]. rewrite take_nil, app_nil_r.
      reflexivity.
Qed.

(** X8: whatever [search] returns was delivered by the store for this very
    request: the result lists rows of the fetched list at pairwise distinct
    positions, with or without MMR. *)
Theorem search_returns_fetched_rows {F} `{PyFloat F} (W : World F) (query : string)
    (k fetch_k : Z) (source language : value F) (use_mmr : bool) (lam : F)
    (log : list (event F)) (out : list (row F)) :
  search W query k fetch_k source language use_mmr lam = (log, Ok out) ->
  exists qvec raw idx,
    encode W ("query: " ++ query) = Ok qvec
    /\ snd (fetch_knn W qvec fetch_k source language) = Ok raw
    /\ NoDup idx /\ selection raw idx out
    /\ (raw = [] \/ HAS_DB W = true /\ connect_fails W = false
                    /\ execute W qvec fetch_k (sql_filter source) (sql_filter language)
                       = Ok raw).
Proof.
  unfold search. intros Hs.
  apply bind_inv in Hs as (l1 & qvec & l2 & Hq & Hs & ->).
  apply bind_inv in Hs as (l3 & raw & l4 & Hraw & Hs & ->).
  exists qvec, raw.
  assert (encode W ("query: " ++ query) = Ok qvec) as Hq'.
  { unfold embed_query in Hq. apply bind_inv in Hq as (? & [] & ? & _ & Hq & _).
    apply lift_inv in Hq as [Hq _]. exact Hq. }
  assert (raw = [] \/ HAS_DB W = true /\ connect_fails W = false
                      /\ execute W qvec fetch_k (sql_filter source) (sql_filter language)
                         = Ok raw) as Hfrom.
  { unfold fetch_knn, _conn in Hraw. destruct (HAS_DB W).
    - destruct (connect_fails W); cbn in Hraw.
      + left. injection Hraw as _ <-. reflexivity.
      + right. destruct (execute W qvec fetch_k _ _) as [e|rows]; [discriminate|].
        injection Hraw as _ <-. auto.
    - left. cbn in Hraw. injection Hraw as _ <-. reflexivity. }
  destruct use_mmr.
  - apply lift_inv in Hs as [Hs _].
    destruct (mmr_rerank_shape _ _ _ _ _ Hs) as (idx & Hnd & Hsel & _).
    exists idx. rewrite Hraw. auto.
  - apply ret_inv in Hs as [<- _]. destruct (slice_to_take k raw) as [n ->].
    exists (seq 0 (length (take n raw))). rewrite Hraw.
    split; [exact Hq'|]. split; [reflexivity|]. split; [apply NoDup_seq|].
    split; [apply selection_take|exact Hfrom].
Qed.

(** ** The calls of a request *)


Section Calls.
Context {F : Type} (p : event F -> bool).

Lemma calls_all_ret {A} (a : A) : calls_all p (ret a).
Proof. constructor. Qed.

Lemma calls_all_raise {A} (e : exn) : calls_all p (raise (A:=A) e).
Proof. constructor. Qed.

Lemma calls_all_lift {A} (r : res A) : calls_all p (lift r).
Proof. constructor. Qed.

Lemma calls_all_emit (ev : event F) : p ev = true -> calls_all p (emit ev).
Proof. intros Hev. constructor; [exact Hev|constructor]. Qed.

Lemma calls_all_bind {A B} (m : M F A) (f : A -> M F B) :
  calls_all p m -> (forall a, calls_all p (f a)) -> calls_all p (bind m f).
Proof.
  unfold calls_all. destruct m as [log [e|a]]; simpl; intros Hm Hf; [exact Hm|].
  specialize (Hf a). destruct (f a) as [log' r]. simpl in *.
  apply Forall_app. split; assumption.
Qed.

Lemma calls_all_try_except {A} (m : M F A) (h : exn -> M F A) :
  calls_all p m -> (forall e, calls_all p (h e)) -> calls_all p (try_except m h).
Proof.
  unfold calls_all. destruct m as [log [e|a]]; simpl; intros Hm Hh; [|exact Hm].
  specialize (Hh e). destruct (h e) as [log' r]. simpl in *.
  apply Forall_app. split; assumption.
Qed.

End Calls.

Ltac calls_all :=
  repeat first
    [ apply calls_all_bind; [|intros ?]
    | apply calls_all_try_except; [|intros ?]
    | apply calls_all_ret
    | apply calls_all_raise
    | apply calls_all_lift
    | apply calls_all_emit; reflexivity
    | match goal with
      | |- calls_all _ (match ?x with _ => _ end) => destruct x
      | |- calls_all _ (if ?b then _ else _) => destruct b
      end ].

Section GraphCalls.
Context {F : Type} `{PyFloat F} (W : World F).

Lemma cypher_run (c : cypher) (v : value F) : calls_all is_cypher (_run W c v).
Proof. unfold _run. calls_all. Qed.

Lemma cypher_manual (q : string) (items : list (string * list string)) :
  calls_all is_cypher (manual_alias_loop W q items).
Proof.
  induction items as [|[key targets] items IH]; cbn [manual_alias_loop].
  - calls_all.
  - destruct (Str.contains _ q); [|exact IH].
    apply calls_all_bind; [calls_all|intros t].
    apply calls_all_bind; [apply cypher_run|intros hit].
    destruct hit; [exact IH|calls_all].
Qed.

Lemma cypher_resolve_crop (q : string) : calls_all is_cypher (resolve_crop W q).
Proof.
  unfold resolve_crop, alias_tier.
  apply calls_all_bind; [apply cypher_run|intros rows].
  destruct rows; [|calls_all].
  apply calls_all_bind.
  { apply calls_all_try_except; [|intros e; calls_all].
    apply calls_all_bind; [apply cypher_run|intros; calls_all]. }
  intros [r|]; [calls_all|].
  apply calls_all_bind; [apply cypher_run|intros rows].
  destruct rows; [|calls_all].
  apply calls_all_bind; [apply cypher_run|intros rows].
  destruct rows; [|calls_all].
  apply cypher_manual.
Qed.

Lemma cypher_graph_answer (text : string) :
  calls_all is_cypher (graph_answer_for_crop W text).
Proof.
  unfold graph_answer_for_crop, crop_seasons, crop_locations, crop_climate, crop_diseases.
  apply calls_all_bind; [apply cypher_resolve_crop|intros crop].
  destruct crop as [c|]; [|calls_all].
  destruct (dict_truthy (Some c)); [|calls_all].
  repeat first
    [ apply cypher_run
    | apply calls_all_bind; [|intros ?]
    | apply calls_all_try_except; [|intros ?]
    | apply calls_all_ret
    | apply calls_all_lift ].
Qed.

(** The aggregator starts by resolving the crop once more. *)
Lemma graph_answer_log_prefix (text : string) :
  fst (resolve_crop W text) `prefix_of` fst (graph_answer_for_crop W text).
Proof.
  unfold graph_answer_for_crop. destruct (resolve_crop W text) as [log [e|crop]].
  - reflexivity.
  - rewrite bind_Ok. cbn [fst]. apply prefix_app_r. reflexivity.
Qed.

(** [search], call by call. *)
Lemma search_cases (query : string) (k fetch_k : Z) (source language : value F)
    (use_mmr : bool) (lam : F) :
  search W query k fetch_k source language use_mmr lam
  = match encode W ("query: " ++ query) with
    | inl e => ([EvEncode ("query: " ++ query)], Raise e)
    | inr qvec =>
        let post raw := if use_mmr then mmr_rerank qvec raw lam k else Ok (slice_to k raw) in
        if HAS_DB W then
          if connect_fails W then ([EvEncode ("query: " ++ query); EvConnect], post [])
          else ([EvEncode ("query: " ++ query); EvConnect;
                 EvSql fetch_k (sql_filter source) (sql_filter language)],
                rbind (execute W qvec fetch_k (sql_filter source) (sql_filter language)) post)
        else ([EvEncode ("query: " ++ query)], post [])
    end.
Proof.
  unfold search, embed_query, emit, lift. rewrite bind_Ok. cbn [fst snd].
  destruct (encode W ("query: " ++ query)) as [e|qvec].
  - rewrite bind_Raise. reflexivity.
  - rewrite bind_Ok. cbn zeta. unfold fetch_knn, _conn. destruct (HAS_DB W).
    + unfold emit, ret. rewrite bind_Ok. cbn [fst snd]. rewrite bind_Ok. cbn [fst snd app].
      destruct (connect_fails W); cbn [negb].
      * cbn [fst snd app]. destruct use_mmr; reflexivity.
      * rewrite bind_Ok. cbn [fst snd app]. unfold lift.
        destruct (execute W qvec fetch_k _ _) as [e|raw]; cbn [rbind].
        -- reflexivity.
        -- cbn [fst snd app]. destruct use_mmr; reflexivity.
    + unfold ret. rewrite bind_Ok. cbn [fst snd app]. destruct use_mmr; reflexivity.
Qed.

Lemma rerank_nil_nonempty (qvec : list F) (lam : F) (k : Z) (h : row F) (t : list (row F)) :
  mmr_rerank qvec [] lam k <> Ok (h :: t).
Proof.
  unfold mmr_rerank. cbn [length]. destruct (Z.of_nat 0 <=? k)%Z; cbn; discriminate.
Qed.

Lemma vector_fallback_calls (question : string) (k : Z) (i : option intent) :
  exists block,
    fst (vector_fallback W question k i)
    `prefix_of` fallback_calls W question k i
                  (VEC_SYS W ++ newline ++ newline ++ VEC_USER_format W question block).
Proof.
  unfold vector_fallback, fallback_calls. rewrite search_cases.
  change (sql_filter (F:=F) VNone) with (@VNone F).
  change (sql_filter (F:=F) (VStr "bn")) with (@VStr F "bn").
  set (q2 := Str.strip (question ++ " " ++ aug i)).
  destruct (encode W ("query: " ++ q2)) as [e|qvec].
  { exists "". rewrite bind_Raise. cbn [fst app]. apply prefix_cons, prefix_nil. }
  cbn zeta. destruct (HAS_DB W).
  - destruct (connect_fails W).
    + exists "". destruct (mmr_rerank qvec [] f_default_lambda k) as [e|[|h t]] eqn:Hr.
      * rewrite bind_Raise. cbn [fst app]. do 2 apply prefix_cons. apply prefix_nil.
      * rewrite bind_Ok. cbn [fst snd app fmap list_fmap ret]. do 2 apply prefix_cons.
        apply prefix_nil.
      * exfalso. exact (rerank_nil_nonempty _ _ _ _ _ Hr).
    + destruct (rbind _ _) as [e|[|h t]].
      * exists "". rewrite bind_Raise. cbn [fst app]. do 3 apply prefix_cons. apply prefix_nil.
      * exists "". rewrite bind_Ok. cbn [fst snd app fmap list_fmap ret].
        do 3 apply prefix_cons. apply prefix_nil.
      * eexists. rewrite bind_Ok. cbn [fmap list_fmap].
        unfold gen_from_passages, _format_vector_context, _gen, emit.
        rewrite bind_Ok. cbn [fst snd app].
        destruct (pipe_load_fails W); [|destruct (pipe W _)]; cbn [fst raise ret app];
          reflexivity.
  - exists "". destruct (mmr_rerank qvec [] f_default_lambda k) as [e|[|h t]] eqn:Hr.
    + rewrite bind_Raise. cbn [fst app]. apply prefix_cons, prefix_nil.
    + rewrite bind_Ok. cbn [fst snd app fmap list_fmap ret]. apply prefix_cons, prefix_nil.
    + exfalso. exact (rerank_nil_nonempty _ _ _ _ _ Hr).
Qed.

End GraphCalls.

(** X9: the calls of one request.  [answer] first talks to the graph store
    only; what follows is at most one embedding of the question with the
    intent keywords appended, one connection, one SQL query for
    max(32, 8k) rows in the language [bn] without a source filter, and one
    call of the generator, whose prompt is the system prompt, an empty line
    and the user template filled with the question as it was asked. *)
Theorem answer_calls {F} `{PyFloat F} (W : World F) (q : string) (k : Z) :
  exists (graph_log rest : list (event F)) (block : string),
    fst (answer W q k) = (graph_log ++ rest)%list
    /\ Forall (fun ev => is_cypher ev = true) graph_log
    /\ rest `prefix_of`
         fallback_calls W q k (_detect_intent W q)
           (VEC_SYS W ++ newline ++ newline ++ VEC_USER_format W q block).
Proof.
  rewrite answer_unfold.
  pose proof (cypher_resolve_crop W q) as C1. unfold calls_all in C1.
  destruct (vector_fallback_calls W q k (_detect_intent W q)) as (block & Hvec).
  destruct (resolve_crop W q) as [log1 [e|crop]]; cbn [fst] in C1.
  - exists log1, [], "". rewrite bind_Raise, app_nil_r. cbn [fst].
    split; [reflexivity|]. split; [exact C1|apply prefix_nil].
  - rewrite bind_Ok. cbn [fst]. destruct (dict_truthy crop).
    + unfold overview_then_fallback.
      pose proof (cypher_graph_answer W q) as C2. unfold calls_all in C2.
      destruct (graph_answer_for_crop W q) as [log2 [e|r]]; cbn [fst] in C2.
      * exists (log1 ++ log2)%list, [], "". rewrite bind_Raise, app_nil_r. cbn [fst].
        split; [reflexivity|]. split; [|apply prefix_nil].
        apply Forall_app. split; assumption.
      * rewrite bind_Ok. cbn [fst]. destruct (usable_bullets r).
        -- exists (log1 ++ log2)%list, [], "". cbn [fst ret]. rewrite !app_nil_r.
           split; [reflexivity|]. split; [|apply prefix_nil].
           apply Forall_app. split; assumption.
        -- exists (log1 ++ log2)%list, (fst (vector_fallback W q k (_detect_intent W q))), block.
           rewrite app_assoc. split; [reflexivity|]. split; [|exact Hvec].
           apply Forall_app. split; assumption.
    + exists log1, (fst (vector_fallback W q k (_detect_intent W q))), block.
      split; [reflexivity|]. split; [exact C1|exact Hvec].
Qed.

(** X10: a question answered from the graph.  When the crop is resolved and
    the aggregator delivers bullets, [answer] returns them as text; the
    request consists of graph queries only, and those of the resolution are
    sent twice, once by the router and once more by the aggregator. *)
Theorem answer_from_graph {F} `{PyFloat F} (W : World F) (q : string) (k : Z)
    (crop : option (row F)) (r : graph_res F) (bullets : list string)
    (log1 log2 : list (event F)) :
  resolve_crop W q = (log1, Ok crop) -> dict_truthy crop = true ->
  graph_answer_for_crop W q = (log2, Ok r) -> usable_bullets r = Some bullets ->
  answer W q k = ((log1 ++ log2)%list, Ok (_as_bullets bullets))
  /\ Forall (fun ev => is_cypher ev = true) (log1 ++ log2)%list
  /\ log1 `prefix_of` log2.
Proof.
  intros Hres Htruthy Hans Hbul.
  pose proof (cypher_resolve_crop W q) as C1.
  pose proof (cypher_graph_answer W q) as C2.
  pose proof (graph_answer_log_prefix W q) as Hp.
  unfold calls_all in C1, C2. rewrite Hres in C1, Hp. rewrite Hans in C2, Hp.
  cbn [fst] in C1, C2, Hp.
  rewrite answer_unfold, Hres, bind_Ok. rewrite Htruthy.
  unfold overview_then_fallback. rewrite Hans, bind_Ok, Hbul. cbn [fst snd ret].
  rewrite app_nil_r. split; [reflexivity|]. split; [|exact Hp].
  apply Forall_app. split; assumption.
Qed.

(** X11: the outcome of the generation step.  When the graph gives no bullets
    and the search returns passages, [answer] calls the generator once, with
    the system prompt, an empty line and the user template filled with the
    question and the numbered passages.  A pipeline that cannot be loaded is
    an exception; a failing call of a loaded pipeline is not: its message
    comes back as the answer text, after the marker [[generator error]]. *)
Theorem answer_from_passages {F} `{PyFloat F} (W : World F) (q : string) (k : Z)
    (crop : option (row F)) (log1 log3 : list (event F)) (h : row F) (hits : list (row F)) :
  resolve_crop W q = (log1, Ok crop) ->
  (dict_truthy crop = false
   \/ exists log2 r, graph_answer_for_crop W q = (log2, Ok r) /\ usable_bullets r = None) ->
  search W (Str.strip (q ++ " " ++ aug (_detect_intent W q))) k (Z.max 32 (k * 8))
         VNone (VStr "bn") true f_default_lambda = (log3, Ok (h :: hits)) ->
  exists log,
    answer W q k
    = ((log ++ [EvGenerate (VEC_SYS W ++ newline ++ newline
                              ++ _format_vector_context W q (passage <$> h :: hits))])%list,
       if pipe_load_fails W then Raise ModelError
       else match pipe W (VEC_SYS W ++ newline ++ newline
                            ++ _format_vector_context W q (passage <$> h :: hits)) with
            | inr text => Ok (Str.strip text)
            | inl msg => Ok ("[generator error] " ++ msg)
            end)
    /\ Forall (fun ev => is_generate ev = false) log.
Proof.
  intros Hres Hgraph Hsearch.
  pose proof (no_generate_resolve_crop W q) as N1. rewrite Hres in N1.
  pose proof (no_generate_search W (Str.strip (q ++ " " ++ aug (_detect_intent W q))) k
                (Z.max 32 (k * 8)) VNone (VStr "bn") true f_default_lambda) as N3.
  rewrite Hsearch in N3. unfold no_generate in N1, N3. cbn [fst] in N1, N3.
  rewrite fmap_cons.
  set (prompt := VEC_SYS W ++ newline ++ newline
                   ++ _format_vector_context W q (passage h :: (passage <$> hits))).
  assert (vector_fallback W q k (_detect_intent W q)
          = ((log3 ++ [EvGenerate prompt])%list,
             if pipe_load_fails W then Raise ModelError
             else match pipe W prompt with
                  | inr text => Ok (Str.strip text)
                  | inl msg => Ok ("[generator error] " ++ msg)
                  end)) as Hvec.
  { unfold vector_fallback. rewrite Hsearch, bind_Ok. rewrite fmap_cons.
    unfold gen_from_passages, _gen, emit. rewrite bind_Ok. cbn [fst snd].
    fold prompt.
    destruct (pipe_load_fails W); [|destruct (pipe W prompt)]; cbn [fst snd raise ret];
      rewrite ?app_nil_r; reflexivity. }
  rewrite answer_unfold, Hres, bind_Ok.
  destruct (dict_truthy crop) eqn:Htruthy.
  - destruct Hgraph as [Hno|(log2 & r & Hanswer & Hnone)]; [discriminate|].
    pose proof (no_generate_graph_answer W q) as N2. rewrite Hanswer in N2.
    unfold no_generate in N2. cbn [fst] in N2.
    unfold overview_then_fallback. rewrite Hanswer, bind_Ok, Hnone, Hvec. cbn [fst snd].
    exists (log1 ++ log2 ++ log3)%list. rewrite <- !app_assoc. split; [reflexivity|].
    repeat (apply Forall_app; split); assumption.
  - rewrite Hvec. cbn [fst snd]. exists (log1 ++ log3)%list. rewrite <- !app_assoc.
    split; [reflexivity|]. repeat (apply Forall_app; split); assumption.
Qed.

(** ** The bullets of a graph answer *)

Lemma render_bullets_anatomy {F} `{PyFloat F} (W : World F) (seasons locs : list (row F))
    (climate : option (row F)) (diseases : list (row F)) (bullets : list string) :
  render_bullets W seasons locs climate diseases = Ok bullets ->
  exists b1 b2 b3 b4 b5,
    bullets = (b1 ++ b2 ++ b3 ++ b4 ++ b5)%list
    /\ (length b1 <= 1 /\ Forall (opens_with season_label) b1)
    /\ (length b2 <= 1 /\ Forall (opens_with temperature_label) b2)
    /\ (length b3 <= 1 /\ Forall (opens_with humidity_label) b3)
    /\ (length b4 <= 1 /\ Forall (opens_with disease_label) b4)
    /\ (length b5 <= 1 /\ Forall (opens_with location_label) b5).
Proof.
  intros Hrender.
  destruct (render_bullets_parts W _ _ _ _ _ Hrender) as (b1 & b4 & H1 & H4 & ->).
  pose proof (season_bullet_shape _ _ H1) as S1.
  pose proof (temperature_bullet_shape W climate) as S2.
  pose proof (humidity_bullet_shape W climate) as S3.
  pose proof (disease_bullet_shape _ _ H4) as S4.
  pose proof (location_bullet_shape W locs) as S5.
  eexists b1, _, _, b4, _. split; [reflexivity|]. repeat (split; [assumption|]). assumption.
Qed.

(** X12: the anatomy of a graph answer.  The bullets are, in this order, at
    most one each of: the seasons, the temperature range, the humidity
    range, the diseases, the districts; so there are at most five, and each
    opens with the label of its kind. *)
Theorem graph_answer_bullets_anatomy {F} `{PyFloat F} (W : World F) (q : string)
    (log : list (event F)) (r : graph_res F) :
  graph_answer_for_crop W q = (log, Ok r) -> ok r = true ->
  exists bullets b1 b2 b3 b4 b5,
    bullets_bn r = Some bullets
    /\ bullets = (b1 ++ b2 ++ b3 ++ b4 ++ b5)%list
    /\ (length b1 <= 1 /\ Forall (opens_with season_label) b1)
    /\ (length b2 <= 1 /\ Forall (opens_with temperature_label) b2)
    /\ (length b3 <= 1 /\ Forall (opens_with humidity_label) b3)
    /\ (length b4 <= 1 /\ Forall (opens_with disease_label) b4)
    /\ (length b5 <= 1 /\ Forall (opens_with location_label) b5)
    /\ length bullets <= 5.
Proof.
  intros Hrun Hok.
  destruct (graph_answer_inv W q log r Hrun Hok)
    as (c0 & crop_id & bullets & _ & _ & _ & _ & _ & _ & Hrender & Hbullets).
  destruct (render_bullets_anatomy W _ _ _ _ _ Hrender)
    as (b1 & b2 & b3 & b4 & b5 & -> & S1 & S2 & S3 & S4 & S5).
  exists (b1 ++ b2 ++ b3 ++ b4 ++ b5)%list, b1, b2, b3, b4, b5.
  split; [exact Hbullets|]. split; [reflexivity|].
  repeat (split; [assumption|]). rewrite !length_app. lia.
Qed.

Section BulletContent.
Context {F : Type} `{PyFloat F} (W : World F).

Lemma str_join_VStr (sep : string) (l : list string) :
  str_join (F:=F) sep (VStr <$> l) = Ok (Str.join sep l).
Proof.
  unfold str_join.
  assert (rmapM (fun v : value F => match v with
                                    | VStr s => Ok s
                                    | _ => Raise TypeError
                                    end) (VStr <$> l) = Ok l) as ->; [|reflexivity].
  induction l as [|s l IH]; [reflexivity|].
  rewrite fmap_cons. cbn [rmapM rbind]. rewrite IH. reflexivity.
Qed.

Lemma truthy_opt_str_eq (o : option string) :
  truthy (opt_str (F:=F) o)
  = match o with
    | Some n => negb (String.eqb n "")
    | None => false
    end.
Proof. destruct o; reflexivity. Qed.

Lemma disease_listed (d : Disease) :
  truthy (py_or (get (disease_row (F:=F) d) "name_bn") (get (disease_row d) "name_en"))
  = is_some (disease_display d)
  /\ forall n, disease_display d = Some n ->
       py_or (get (disease_row (F:=F) d) "name_bn")
             (get_default (disease_row d) "name_en" (VStr "")) = VStr n.
Proof.
  destruct (get_disease_names (F:=F) d) as (-> & -> & ->).
  unfold disease_display, py_or.
  destruct (d_name_bn d) as [n|]; cbn [opt_str truthy];
    [destruct (String.eqb n "") eqn:Hn; cbn [negb]|];
    destruct (d_name_en d) as [e|]; cbn [opt_str truthy]; rewrite ?Hn;
    try destruct (String.eqb e "") eqn:He; cbn [negb is_some truthy]; rewrite ?He, ?Hn;
    cbn [negb];
    (split; [reflexivity|intros ? Hd; try discriminate; injection Hd as <-; reflexivity]).
Qed.

Lemma disease_names (ds : list Disease) :
  (fun d => py_or (get d "name_bn") (get_default d "name_en" (VStr "")))
    <$> List.filter (fun d => truthy (py_or (get d "name_bn") (get d "name_en")))
                    (disease_row (F:=F) <$> ds)
  = VStr <$> omap disease_display ds.
Proof.
  induction ds as [|d ds IH]; [reflexivity|].
  rewrite fmap_cons. cbn [List.filter omap list_omap].
  destruct (disease_listed d) as [Ht Hn]. rewrite Ht.
  destruct (disease_display d) as [n|]; cbn [is_some].
  - rewrite !fmap_cons. rewrite (Hn n eq_refl). f_equal. exact IH.
  - exact IH.
Qed.

Lemma season_listed (s : Season) :
  truthy (get (season_row (F:=F) s) "season_name") = is_some (season_display s)
  /\ forall n, season_display s = Some n ->
       _bn_season (get_default (season_row (F:=F) s) "season_name" (VStr "")) = VStr n.
Proof.
  destruct (get_season_name (F:=F) s) as (-> & ->).
  unfold season_display. rewrite truthy_opt_str_eq.
  destruct (s_name_bn s) as [n|]; cbn [opt_str].
  - unfold _bn_season. cbn [truthy]. destruct (String.eqb n ""); cbn [negb is_some].
    + split; [reflexivity|intros ?; discriminate].
    + split; [reflexivity|intros ? [= <-]; reflexivity].
  - split; [reflexivity|intros ?; discriminate].
Qed.

Lemma season_names (ss : list Season) :
  (fun s => _bn_season (get_default s "season_name" (VStr "")))
    <$> List.filter (fun s => truthy (get s "season_name")) (season_row (F:=F) <$> ss)
  = VStr <$> omap season_display ss.
Proof.
  induction ss as [|s ss IH]; [reflexivity|].
  rewrite fmap_cons. cbn [List.filter omap list_omap].
  destruct (season_listed s) as [Ht Hn]. rewrite Ht.
  destruct (season_display s) as [n|]; cbn [is_some].
  - rewrite !fmap_cons. rewrite (Hn n eq_refl). f_equal. exact IH.
  - exact IH.
Qed.

End BulletContent.

(** X13: the disease bullet, for the rows that the disease query returns.  A
    disease is listed under its Bangla name, or its English name when the
    Bangla one is missing or empty, in the order of the rows; the names are
    joined with " / " after the label.  Diseases with neither name are left
    out, but they still count as facts: a crop whose diseases are all
    unnamed gets the label with nothing after it. *)
Theorem disease_bullet_content {F} `{PyFloat F} (ds : list Disease) :
  disease_bullet (F:=F) (disease_row <$> ds)
  = Ok (match ds with
        | [] => []
        | _ => [disease_label ++ Str.join " / " (omap disease_display ds)]
        end)
  /\ (ds <> [] -> omap disease_display ds = [] ->
      disease_bullet (F:=F) (disease_row <$> ds) = Ok [disease_label]).
Proof.
  assert (disease_bullet (F:=F) (disease_row <$> ds)
          = Ok (match ds with
                | [] => []
                | _ => [disease_label ++ Str.join " / " (omap disease_display ds)]
                end)) as Hmain.
  { destruct ds as [|d ds]; [reflexivity|].
    unfold disease_bullet. rewrite fmap_cons.
    rewrite <- (fmap_cons disease_row d ds).
    rewrite (disease_names (d :: ds)), str_join_VStr. reflexivity. }
  split; [exact Hmain|].
  intros Hne Hnone. rewrite Hmain, Hnone. destruct ds; [contradiction|reflexivity].
Qed.

(** X14: the season bullet, for the rows that the season query returns.  The
    seasons that have a name are listed in the order of the rows, each under
    its Bangla label when the season table has one and under its own name
    otherwise, joined with " / " after the label; when no season has a name
    there is no bullet. *)
Theorem season_bullet_content {F} `{PyFloat F} (ss : list Season) :
  season_bullet (F:=F) (season_row <$> ss)
  = Ok (match omap season_display ss with
        | [] => []
        | names => [season_label ++ Str.join " / " names]
        end)
  /\ (forall s name, s_name_bn s = Some name -> name <> "" ->
        season_display s = Some (default name (Str.assoc name _SEASON_MAP)))
  /\ Forall (fun e => forall s, s_name_bn s = Some (fst e) -> season_display s = Some (snd e))
            _SEASON_MAP.
Proof.
  split; [|split].
  - destruct ss as [|s ss]; [reflexivity|].
    unfold season_bullet. rewrite fmap_cons.
    rewrite <- (fmap_cons season_row s ss).
    rewrite (season_names (s :: ss)).
    destruct (omap season_display (s :: ss)) as [|n names]; [reflexivity|].
    rewrite str_join_VStr. reflexivity.
  - intros s name Hs Hne. unfold season_display. rewrite Hs.
    destruct (String.eqb_spec name ""); [contradiction|reflexivity].
  - repeat constructor; intros s Hs; unfold season_display; rewrite Hs; reflexivity.
Qed.

Section Humidity.
Context {F : Type} `{PyFloat F} (W : World F).

Lemma humidity_bullet_spec (climate : option (row F)) :
  (has_humidity climate ->
     exists cl, climate = Some cl
       /\ humidity_bullet W climate
          = [humidity_label ++ bound_text W (get cl "min_rh") ++ "%–"
               ++ bound_text W (get cl "max_rh") ++ "%"])
  /\ (~ has_humidity climate -> humidity_bullet W climate = []).
Proof.
  unfold humidity_bullet. split.
  - intros (cl & -> & Hbound). exists cl. split; [reflexivity|].
    assert (dict_truthy (Some cl) = true) as ->
      by (destruct Hbound; eapply get_not_None_truthy; eassumption).
    assert (is_not_None (get cl "min_rh") || is_not_None (get cl "max_rh") = true) as ->
      by (rewrite orb_true_iff, !is_not_None_spec; exact Hbound).
    reflexivity.
  - intros Hno. destruct climate as [cl|]; [|reflexivity].
    destruct (dict_truthy (Some cl)); [|reflexivity]. cbn [andb].
    destruct (is_not_None (get cl "min_rh") || is_not_None (get cl "max_rh")) eqn:Hb;
      [|reflexivity].
    exfalso. apply Hno. exists cl. split; [reflexivity|].
    rewrite orb_true_iff, !is_not_None_spec in Hb. exact Hb.
Qed.

Lemma has_humidity_dec (climate : option (row F)) :
  has_humidity climate \/ ~ has_humidity climate.
Proof.
  destruct climate as [cl|]; [|right; intros (cl & [=] & _)].
  destruct (is_not_None (get cl "min_rh") || is_not_None (get cl "max_rh")) eqn:Hb.
  - left. exists cl. split; [reflexivity|].
    rewrite orb_true_iff, !is_not_None_spec in Hb. exact Hb.
  - right. intros (cl' & [= <-] & Hbound).
    rewrite <- !is_not_None_spec, <- orb_true_iff in Hbound. congruence.
Qed.

(** The other labels do not open with the humidity label. *)
Lemma other_label_not_humidity (label b : string) :
  label ∈ [season_label; temperature_label; disease_label; location_label] ->
  opens_with label b -> String.prefix humidity_label b = false.
Proof.
  intros Hl Hb. apply prefix_app in Hb as [rest ->].
  rewrite !elem_of_cons in Hl.
  destruct Hl as [->|[->|[->|[->|Hl]]]]; [reflexivity..|].
  apply elem_of_nil in Hl. contradiction.
Qed.

End Humidity.

(** X15: the humidity bullet.  In the answer for a resolved crop a bullet
    opening with the humidity label is present exactly when the climate row
    holds [min_rh] or [max_rh]; it shows both bounds in Bangla digits with a
    percent sign each, and a dash in place of a missing bound. *)
Theorem humidity_bullet_presence {F} `{PyFloat F} (W : World F) (q : string)
    (log : list (event F)) (r : graph_res F) :
  graph_answer_for_crop W q = (log, Ok r) -> ok r = true ->
  exists bullets, bullets_bn r = Some bullets
    /\ (Exists (opens_with humidity_label) bullets <-> has_humidity (facts_climate r))
    /\ (forall c, facts_climate r = Some (climate_row c) ->
          match c_min_rh c, c_max_rh c with
          | None, None => Forall (fun b => ~ opens_with humidity_label b) bullets
          | Some lo, None =>
              (humidity_label ++ _bn_num W (VFloat lo) ++ "%–" ++ "—" ++ "%") ∈ bullets
          | None, Some hi =>
              (humidity_label ++ "—" ++ "%–" ++ _bn_num W (VFloat hi) ++ "%") ∈ bullets
          | Some lo, Some hi =>
              (humidity_label ++ _bn_num W (VFloat lo) ++ "%–"
                 ++ _bn_num W (VFloat hi) ++ "%") ∈ bullets
          end).
Proof.
  intros Hrun Hok.
  destruct (graph_answer_inv W q log r Hrun Hok)
    as (c0 & crop_id & bullets & _ & _ & _ & _ & _ & _ & Hrender & Hbullets).
  destruct (render_bullets_parts W _ _ _ _ _ Hrender) as (b1 & b4 & H1 & H4 & ->).
  destruct (season_bullet_shape _ _ H1) as [_ S1].
  destruct (temperature_bullet_shape W (facts_climate r)) as [_ S2].
  destruct (disease_bullet_shape _ _ H4) as [_ S4].
  destruct (location_bullet_shape W (facts_locations r)) as [_ S5].
  destruct (humidity_bullet_spec W (facts_climate r)) as [Hyes Hno].
  assert (forall label (l : list string),
            label ∈ [season_label; temperature_label; disease_label; location_label] ->
            Forall (opens_with label) l -> Forall (fun b => ~ opens_with humidity_label b) l)
    as Hother.
  { intros label l Hl Hall. eapply Forall_impl; [exact Hall|]. intros b Hb Hb'. cbv beta in *.
    unfold opens_with in Hb'.
    rewrite (other_label_not_humidity label b Hl Hb) in Hb'. discriminate. }
  assert (Forall (fun b => ~ opens_with humidity_label b) b1) as N1
    by (eapply Hother; [|exact S1]; rewrite !elem_of_cons; tauto).
  assert (Forall (fun b => ~ opens_with humidity_label b)
                 (temperature_bullet W (facts_climate r))) as N2
    by (eapply Hother; [|exact S2]; rewrite !elem_of_cons; tauto).
  assert (Forall (fun b => ~ opens_with humidity_label b) b4) as N4
    by (eapply Hother; [|exact S4]; rewrite !elem_of_cons; tauto).
  assert (Forall (fun b => ~ opens_with humidity_label b)
                 (location_bullet W (facts_locations r))) as N5
    by (eapply Hother; [|exact S5]; rewrite !elem_of_cons; tauto).
  assert (~ has_humidity (facts_climate r) ->
          Forall (fun b => ~ opens_with humidity_label b)
            (b1 ++ temperature_bullet W (facts_climate r)
                ++ humidity_bullet W (facts_climate r) ++ b4
                ++ location_bullet W (facts_locations r))%list) as Hnone.
  { intros Hn. rewrite (Hno Hn). repeat (apply Forall_app; split); try assumption.
    constructor. }
  assert (forall cl, facts_climate r = Some cl -> has_humidity (facts_climate r) ->
            (humidity_label ++ bound_text W (get cl "min_rh") ++ "%–"
               ++ bound_text W (get cl "max_rh") ++ "%")
            ∈ (b1 ++ temperature_bullet W (facts_climate r)
                  ++ humidity_bullet W (facts_climate r) ++ b4
                  ++ location_bullet W (facts_locations r))%list) as Hin.
  { intros cl Hcl Hh. destruct (Hyes Hh) as (cl' & Hcl' & ->).
    assert (cl' = cl) by congruence. subst cl'.
    apply elem_of_app. right. apply elem_of_app. right. apply list_elem_of_here. }
  eexists. split; [exact Hbullets|]. split; [split|].
  - intros Hex. destruct (has_humidity_dec (facts_climate r)) as [Hh|Hn]; [exact Hh|].
    exfalso. apply Exists_exists in Hex as (b & Hb & Hopen).
    specialize (Hnone Hn). rewrite Forall_forall in Hnone. exact (Hnone b Hb Hopen).
  - intros Hh. destruct (Hyes Hh) as (cl & _ & ->).
    apply Exists_app. right. apply Exists_app. right. apply Exists_app. left.
    apply Exists_cons_hd. apply (opens_with_app humidity_label).
  - intros c Hc. destruct (get_climate c) as (_ & _ & Hgmin & Hgmax).
    destruct (c_min_rh c) as [lo|] eqn:Hlo; destruct (c_max_rh c) as [hi|] eqn:Hhi.
    + assert (has_humidity (facts_climate r)) as Hh.
      { exists (climate_row c). split; [exact Hc|]. left. rewrite Hgmin. discriminate. }
      specialize (Hin _ Hc Hh). rewrite Hgmin, Hgmax in Hin. exact Hin.
    + assert (has_humidity (facts_climate r)) as Hh.
      { exists (climate_row c). split; [exact Hc|]. left. rewrite Hgmin. discriminate. }
      specialize (Hin _ Hc Hh). rewrite Hgmin, Hgmax in Hin. exact Hin.
    + assert (has_humidity (facts_climate r)) as Hh.
      { exists (climate_row c). split; [exact Hc|]. right. rewrite Hgmax. discriminate. }
      specialize (Hin _ Hc Hh). rewrite Hgmin, Hgmax in Hin. exact Hin.
    + apply Hnone. intros (cl & Hcl & Hbound).
      assert (cl = climate_row c) by congruence. subst cl.
      rewrite Hgmin, Hgmax in Hbound. destruct Hbound as [Hb|Hb]; apply Hb; reflexivity.
Qed.

(** ** The fact queries *)

Section FactQueries.
Context {F : Type} `{PyFloat F} (W : World F).

Lemma season_rows_shape (p : value F) : Forall is_season_row (season_rows W p).
Proof. apply Forall_fmap_intro. intros s. exists s. reflexivity. Qed.

Lemma disease_rows_shape (p : value F) : Forall is_disease_row (disease_rows W p).
Proof. apply Forall_fmap_intro. intros d. exists d. reflexivity. Qed.

Lemma graph_answer_resolved (q : string) (log0 : list (event F)) (c : row F)
    (cid : value F) :
  resolve_crop W q = (log0, Ok (Some c)) -> dict_truthy (Some c) = true ->
  c !! "id" = Some cid ->
  graph_answer_for_crop W q
  = bind (log0, Ok tt) (fun _ =>
    bind (crop_seasons W cid) (fun seasons =>
    bind (crop_locations W cid 10) (fun locs =>
    bind (crop_climate W cid) (fun climate =>
    bind (crop_diseases W cid) (fun diseases =>
    bind (lift (render_bullets W seasons locs climate diseases)) (fun bullets =>
    ret {| ok := true; bullets_bn := Some bullets; res_crop := Some c;
           facts_seasons := seasons; facts_locations := locs;
           facts_climate := climate; facts_diseases := diseases |})))))).
Proof.
  intros Hres Htruthy Hid. unfold graph_answer_for_crop. rewrite Hres, !bind_Ok.
  rewrite Htruthy. unfold getitem. rewrite Hid.
  change (lift (Ok cid)) with (ret (F:=F) cid). rewrite bind_ret_l. reflexivity.
Qed.

End FactQueries.

(** X16: the fact queries of the aggregator.  When no crop is resolved, the
    aggregator reports [crop_not_found] without asking for facts.  For a
    resolved crop it asks, in this order and with the crop's identifier, for
    the seasons, the locations (at most 10), the climate and the diseases.  A
    failure of one of the first three queries is not caught: it ends the
    aggregator with the exception, and the later queries are not sent.  A
    failure of the disease query only leaves the disease facts empty. *)
Theorem graph_answer_fact_queries {F} `{PyFloat F} (W : World F) (q : string)
    (log0 : list (event F)) :
  (resolve_crop W q = (log0, Ok None) ->
     graph_answer_for_crop W q = (log0, Ok crop_not_found))
  /\ forall c cid,
       resolve_crop W q = (log0, Ok (Some c)) -> dict_truthy (Some c) = true ->
       c !! "id" = Some cid ->
       (run_fails W cy_seasons cid = true ->
          graph_answer_for_crop W q
          = ((log0 ++ [EvCypher cy_seasons cid])%list, Raise StoreError))
       /\ (run_fails W cy_seasons cid = false ->
           run_fails W (cy_locations 10) cid = true ->
           graph_answer_for_crop W q
           = ((log0 ++ [EvCypher cy_seasons cid; EvCypher (cy_locations 10) cid])%list,
              Raise StoreError))
       /\ (run_fails W cy_seasons cid = false ->
           run_fails W (cy_locations 10) cid = false ->
           run_fails W cy_climate cid = true ->
           graph_answer_for_crop W q
           = ((log0 ++ [EvCypher cy_seasons cid; EvCypher (cy_locations 10) cid;
                        EvCypher cy_climate cid])%list,
              Raise StoreError))
       /\ (run_fails W cy_seasons cid = false ->
           run_fails W (cy_locations 10) cid = false ->
           run_fails W cy_climate cid = false ->
           exists r,
             graph_answer_for_crop W q
             = ((log0 ++ [EvCypher cy_seasons cid; EvCypher (cy_locations 10) cid;
                          EvCypher cy_climate cid; EvCypher cy_diseases cid])%list,
                Ok r)
             /\ ok r = true /\ res_crop r = Some c
             /\ facts_seasons r = season_rows W cid
             /\ facts_locations r = location_rows W 10 cid
             /\ facts_climate r = head (climate_rows W cid)
             /\ facts_diseases r
                = (if run_fails W cy_diseases cid then [] else disease_rows W cid)).
Proof.
  split.
  - intros Hres. unfold graph_answer_for_crop. rewrite Hres, bind_Ok. cbn [fst snd ret].
    rewrite app_nil_r. reflexivity.
  - intros c cid Hres Htruthy Hid.
    rewrite (graph_answer_resolved W q log0 c cid Hres Htruthy Hid).
    unfold crop_seasons, crop_locations, crop_climate, crop_diseases.
    split; [|split; [|split]].
    + intros Hs. rewrite (run_fails_raise W _ _ Hs). reflexivity.
    + intros Hs Hl. rewrite (run_ok W _ _ Hs), (run_fails_raise W _ _ Hl). reflexivity.
    + intros Hs Hl Hc.
      rewrite (run_ok W _ _ Hs), (run_ok W _ _ Hl), (run_fails_raise W _ _ Hc). reflexivity.
    + intros Hs Hl Hc.
      rewrite (run_ok W _ _ Hs), (run_ok W _ _ Hl), (run_ok W _ _ Hc). cbn [eval_cypher].
      destruct (run_fails W cy_diseases cid) eqn:Hd.
      * rewrite (run_fails_raise W _ _ Hd).
        destruct (render_bullets_total W (season_rows W cid) (location_rows W 10 cid)
                    (head (climate_rows W cid)) []) as (bullets & Hb);
          [apply season_rows_shape|constructor|].
        cbn. rewrite Hb. cbn. eexists. split; [reflexivity|]. cbn. repeat split; reflexivity.
      * rewrite (run_ok W _ _ Hd). cbn [eval_cypher].
        destruct (render_bullets_total W (season_rows W cid) (location_rows W 10 cid)
                    (head (climate_rows W cid)) (disease_rows W cid)) as (bullets & Hb);
          [apply season_rows_shape|apply disease_rows_shape|].
        cbn. rewrite Hb. cbn. eexists. split; [reflexivity|]. cbn. repeat split; reflexivity.
Qed.

Section Budget.
Context {F : Type} `{PyFloat F} (W : World F).

Lemma bind_calls_le {A B} (m : M F A) (f : A -> M F B) (a b : nat) :
  length (fst m) <= a -> (forall x, length (fst (f x)) <= b) ->
  length (fst (bind m f)) <= a + b.
Proof.
  destruct m as [log [e|x]]; cbn [fst]; intros Hm Hf.
  - rewrite bind_Raise. cbn [fst]. lia.
  - rewrite bind_Ok. cbn [fst]. rewrite length_app. specialize (Hf x). lia.
Qed.

Lemma try_except_calls_le {A} (m : M F A) (h : exn -> M F A) (a b : nat) :
  length (fst m) <= a -> (forall e, length (fst (h e)) <= b) ->
  length (fst (try_except m h)) <= a + b.
Proof.
  destruct m as [log [e|x]]; cbn [fst try_except]; intros Hm Hh.
  - specialize (Hh e). destruct (h e) as [log' r]. cbn [fst] in *. rewrite length_app. lia.
  - cbn [fst]. lia.
Qed.

Lemma run_log (c : cypher) (p : value F) : fst (_run W c p) = [EvCypher c p].
Proof.
  unfold _run, emit. rewrite bind_Ok. cbn [fst snd].
  destruct (run_fails W c p); [reflexivity|]. unfold lift. reflexivity.
Qed.

Lemma run_calls (c : cypher) (p : value F) : length (fst (_run W c p)) = 1.
Proof. rewrite run_log. reflexivity. Qed.

Lemma manual_calls (q : string) (items : list (string * list string)) :
  length (fst (manual_alias_loop W q items)) <= length items.
Proof.
  induction items as [|[key targets] items IH]; cbn [manual_alias_loop length].
  - cbn. lia.
  - destruct (Str.contains _ q); [|lia].
    change (S (length items)) with (0 + (1 + length items)).
    apply bind_calls_le; [cbn; lia|]. intros t.
    apply bind_calls_le; [rewrite run_calls; lia|]. intros hit.
    destruct hit; [exact IH|cbn; lia].
Qed.

Lemma resolve_crop_calls (q : string) : length (fst (resolve_crop W q)) <= 7.
Proof.
  unfold resolve_crop, alias_tier.
  change 7 with (1 + (1 + (1 + (1 + 3)))).
  apply bind_calls_le; [rewrite run_calls; lia|]. intros rows.
  destruct rows; [|cbn; lia].
  apply bind_calls_le.
  { change 1 with (1 + 0). apply try_except_calls_le; [|intros e; cbn; lia].
    change 1 with (1 + 0). apply bind_calls_le; [rewrite run_calls; lia|].
    intros; cbn; lia. }
  intros [r|]; [cbn; lia|].
  apply bind_calls_le; [rewrite run_calls; lia|]. intros rows.
  destruct rows; [|cbn; lia].
  apply bind_calls_le; [rewrite run_calls; lia|]. intros rows.
  destruct rows; [|cbn; lia].
  apply (manual_calls (_normalize_bn W q) _MANUAL_ALIASES).
Qed.

Lemma resolve_crop_first_call (q : string) :
  head (fst (resolve_crop W q)) = Some (EvCypher cy_exact (VStr (_normalize_bn W q))).
Proof.
  unfold resolve_crop.
  pose proof (run_log cy_exact (VStr (_normalize_bn W q))) as Hlog.
  destruct (_run W cy_exact (VStr (_normalize_bn W q))) as [log [e|rows]];
    cbn [fst] in Hlog; subst log.
  - rewrite bind_Raise. reflexivity.
  - rewrite bind_Ok. reflexivity.
Qed.

Lemma graph_answer_calls (q : string) : length (fst (graph_answer_for_crop W q)) <= 11.
Proof.
  unfold graph_answer_for_crop, crop_seasons, crop_locations, crop_climate, crop_diseases.
  change 11 with (7 + (0 + (1 + (1 + (1 + (1 + 0)))))).
  apply bind_calls_le; [apply resolve_crop_calls|]. intros crop.
  destruct crop as [c|]; [|cbn; lia].
  destruct (dict_truthy (Some c)); [|cbn; lia].
  apply bind_calls_le; [cbn; lia|]. intros cid.
  apply bind_calls_le; [rewrite run_calls; lia|]. intros seasons.
  apply bind_calls_le; [rewrite run_calls; lia|]. intros locs.
  apply bind_calls_le.
  { change 1 with (1 + 0). apply bind_calls_le; [rewrite run_calls; lia|].
    intros; cbn; lia. }
  intros climate.
  apply bind_calls_le.
  { change 1 with (1 + 0). apply try_except_calls_le; [rewrite run_calls; lia|].
    intros; cbn; lia. }
  intros diseases. change 0 with (0 + 0).
  apply bind_calls_le; [cbn; lia|]. intros; cbn; lia.
Qed.

End Budget.

(** X17: the cost of one request.  A crop resolution sends at most 7 graph
    queries, the first of which is the exact-match query for the normalized
    question; the aggregator sends at most 11; [answer] makes at most 22
    calls in all, of which at most 18 go to the graph store. *)
Theorem request_budget {F} `{PyFloat F} (W : World F) (q : string) (k : Z) :
  length (fst (resolve_crop W q)) <= 7
  /\ head (fst (resolve_crop W q)) = Some (EvCypher cy_exact (VStr (_normalize_bn W q)))
  /\ length (fst (graph_answer_for_crop W q)) <= 11
  /\ length (List.filter is_cypher (fst (answer W q k))) <= 18
  /\ length (fst (answer W q k)) <= 22.
Proof.
  split; [apply resolve_crop_calls|]. split; [apply resolve_crop_first_call|].
  split; [apply graph_answer_calls|].
  pose proof (resolve_crop_calls W q) as L1.
  pose proof (graph_answer_calls W q) as L2.
  assert (forall block,
            fst (vector_fallback W q k (_detect_intent W q))
            `prefix_of` fallback_calls W q k (_detect_intent W q) block ->
            length (fst (vector_fallback W q k (_detect_intent W q))) <= 4
            /\ List.filter is_cypher (fst (vector_fallback W q k (_detect_intent W q))) = [])
    as Hvec.
  { intros block [tl Htl]. split.
    - apply (f_equal length) in Htl. rewrite length_app in Htl.
      unfold fallback_calls in Htl. rewrite !length_app in Htl. cbn [length] in Htl.
      destruct (HAS_DB W); cbn [length] in Htl; lia.
    - assert (List.filter is_cypher (fallback_calls W q k (_detect_intent W q) block) = [])
        as Hnone by (unfold fallback_calls; destruct (HAS_DB W); reflexivity).
      rewrite Htl, List.filter_app in Hnone. apply app_eq_nil in Hnone as [Hn _]. exact Hn. }
  destruct (vector_fallback_calls W q k (_detect_intent W q)) as (block & Hp).
  destruct (Hvec _ Hp) as [L3 N3].
  rewrite answer_unfold.
  destruct (resolve_crop W q) as [log1 [e|crop]]; cbn [fst] in L1.
  { rewrite bind_Raise. cbn [fst]. split; [|lia].
    etransitivity; [apply filter_length_le|lia]. }
  rewrite bind_Ok. cbn [fst]. destruct (dict_truthy crop).
  - unfold overview_then_fallback.
    destruct (graph_answer_for_crop W q) as [log2 [e|r]]; cbn [fst] in L2.
    { rewrite bind_Raise. cbn [fst]. rewrite length_app. split; [|lia].
      etransitivity; [apply filter_length_le|]. rewrite length_app. lia. }
    rewrite bind_Ok. cbn [fst]. destruct (usable_bullets r).
    + cbn [fst ret]. rewrite app_nil_r, length_app. split; [|lia].
      etransitivity; [apply filter_length_le|]. rewrite length_app. lia.
    + rewrite !List.filter_app, N3, !length_app. cbn [length].
      pose proof (filter_length_le is_cypher log1).
      pose proof (filter_length_le is_cypher log2). lia.
  - rewrite List.filter_app, N3, !length_app. cbn [length].
    pose proof (filter_length_le is_cypher log1). lia.
Qed.

(** ** The text of a graph answer *)


Lemma chars_from_0 (cur s : string) :
  Str.chars_from cur 0 s = (Str.flush cur ++ Str.chars s)%list.
Proof.
  unfold Str.chars. destruct s as [|c r]; cbn [Str.chars_from].
  - rewrite app_nil_r. reflexivity.
  - reflexivity.
Qed.

(** A string that opens with a three-byte character. *)
Lemma chars_lead3 (a b c : ascii) (tail : string) :
  Str.continuation a = 2 ->
  Str.chars (String a (String b (String c tail)))
  = String a (String b (String c "")) :: Str.chars tail.
Proof.
  intros Ha. unfold Str.chars at 1. cbn [Str.chars_from]. rewrite Ha.
  cbn [Str.chars_from Str.flush app]. rewrite chars_from_0. reflexivity.
Qed.

Lemma drop_while_snoc_keep {A} (p : A -> bool) (l : list A) (x : A) :
  p x = false -> exists l', Str.drop_while p (l ++ [x]) = (l' ++ [x])%list.
Proof.
  intros Hx. induction l as [|y l [l' IH]]; cbn [Str.drop_while app].
  - rewrite Hx. exists []. reflexivity.
  - destruct (p y); [exists l'; exact IH|]. exists (y :: l). reflexivity.
Qed.

Lemma strip_lead3 (a b c : ascii) (tail : string) :
  Str.continuation a = 2 -> Str.is_space (String a (String b (String c ""))) = false ->
  Str.strip (String a (String b (String c tail))) <> "".
Proof.
  intros Ha Hsp. unfold Str.strip, Str.strip_chars. rewrite (chars_lead3 a b c tail Ha).
  cbn [Str.drop_while]. fold (Str.is_space (String a (String b (String c "")))).
  rewrite Hsp. cbn [rev].
  destruct (drop_while_snoc_keep (fun ch => Str.mem ch Str.whitespace)
              (rev (Str.chars tail)) (String a (String b (String c ""))) Hsp) as [l' ->].
  rewrite rev_app_distr. cbn [rev app].
  unfold Str.of_chars, Str.join. destruct (rev l'); cbn; discriminate.
Qed.

Section AsBullets.
Context {F : Type} `{PyFloat F} (W : World F).

Lemma as_bullets_keeps (l : list string) :
  Forall (fun b => ~ blank b) l ->
  _as_bullets l = Str.join newline ((fun b => "• " ++ b) <$> l).
Proof.
  intros Hl. unfold _as_bullets. f_equal. f_equal.
  induction Hl as [|b l Hb _ IH]; [reflexivity|]. cbn [List.filter].
  destruct (String.eqb_spec b ""); [exfalso; apply Hb; left; assumption|].
  destruct (String.eqb_spec (Str.strip b) ""); [exfalso; apply Hb; right; assumption|].
  cbn [negb andb]. f_equal. exact IH.
Qed.

Lemma labelled_not_blank (label b : string) :
  label ∈ [season_label; temperature_label; humidity_label; disease_label; location_label] ->
  opens_with label b -> ~ blank b.
Proof.
  intros Hl Hb. apply prefix_app in Hb as [rest ->].
  rewrite !elem_of_cons in Hl.
  intros [Hempty|Hstrip].
  - destruct Hl as [-> | [-> | [-> | [-> | [-> | Hl] ] ] ] ]; try discriminate Hempty.
    apply elem_of_nil in Hl. contradiction.
  - revert Hstrip.
    destruct Hl as [-> | [-> | [-> | [-> | [-> | Hl] ] ] ] ];
      [apply strip_lead3; vm_compute; reflexivity..|].
    apply elem_of_nil in Hl. contradiction.
Qed.

End AsBullets.

Lemma line_breaks_app (a b : string) : line_breaks (a ++ b) = line_breaks a + line_breaks b.
Proof. unfold line_breaks. rewrite bytes_app, List.filter_app, length_app. reflexivity. Qed.

(** Joining with newlines adds one line break between two neighbours. *)
Lemma line_breaks_join (l : list string) :
  line_breaks (Str.join newline l) = length l - 1 + sum_list (line_breaks <$> l).
Proof.
  unfold Str.join. induction l as [|a l IH]; [reflexivity|].
  destruct l as [|b l].
  - change (String.concat newline [a]) with a. rewrite fmap_cons, fmap_nil.
    cbn [length sum_list sum_list_with id]. lia.
  - change (String.concat newline (a :: b :: l))
      with (a ++ newline ++ String.concat newline (b :: l)).
    rewrite !line_breaks_app, IH. rewrite !fmap_cons. cbn [sum_list sum_list_with length id].
    change (line_breaks newline) with 1. lia.
Qed.

Lemma line_breaks_bullets (l : list string) :
  line_breaks (Str.join newline ((fun b => "• " ++ b) <$> l))
  = length l - 1 + sum_list (line_breaks <$> l).
Proof.
  rewrite line_breaks_join, length_fmap. f_equal.
  induction l as [|b l IH]; [reflexivity|].
  rewrite !fmap_cons. cbn [sum_list sum_list_with id]. rewrite line_breaks_app.
  change (line_breaks "• ") with 0. f_equal. exact IH.
Qed.

(** X18: the text of a graph answer.  [_as_bullets] drops the entries that are
    empty or made of whitespace and joins the others with newlines, each
    after a bullet sign.  No bullet of the aggregator is dropped, since each
    opens with its label: the text of a graph answer is its bullets in
    order, and it has one line break between two bullets and those that the
    bullets themselves hold; so there is exactly one line per bullet unless a
    stored name holds a line break. *)
Theorem as_bullets_shows_every_bullet {F} `{PyFloat F} (W : World F) :
  (forall l1 b l2, blank b -> _as_bullets (l1 ++ b :: l2) = _as_bullets (l1 ++ l2))
  /\ (forall l, Forall (fun b => ~ blank b) l ->
        _as_bullets l = Str.join newline ((fun b => "• " ++ b) <$> l))
  /\ (forall q log r,
        graph_answer_for_crop W q = (log, Ok r) -> ok r = true ->
        exists bullets,
          bullets_bn r = Some bullets
          /\ _as_bullets bullets = Str.join newline ((fun b => "• " ++ b) <$> bullets)
          /\ line_breaks (_as_bullets bullets)
             = length bullets - 1 + sum_list (line_breaks <$> bullets)
          /\ (bullets <> [] -> Forall (fun b => line_breaks b = 0) bullets ->
              line_breaks (_as_bullets bullets) + 1 = length bullets)).
Proof.
  split; [|split].
  - intros l1 b l2 Hb. unfold _as_bullets. rewrite !List.filter_app. cbn [List.filter].
    assert (negb (String.eqb b "") && negb (String.eqb (Str.strip b) "") = false) as ->;
      [|reflexivity].
    destruct Hb as [Hb | Hb]; [rewrite Hb; reflexivity|].
    rewrite Hb. apply andb_false_r.
  - apply as_bullets_keeps.
  - intros q log r Hrun Hok.
    destruct (graph_answer_inv W q log r Hrun Hok)
      as (c0 & crop_id & bullets & _ & _ & _ & _ & _ & _ & Hrender & Hb).
    destruct (render_bullets_anatomy W _ _ _ _ _ Hrender)
      as (b1 & b2 & b3 & b4 & b5 & -> & [_ S1] & [_ S2] & [_ S3] & [_ S4] & [_ S5]).
    set (bullets := (b1 ++ b2 ++ b3 ++ b4 ++ b5)%list) in *.
    assert (_as_bullets bullets = Str.join newline ((fun b => "• " ++ b) <$> bullets)) as Hkeep.
    { apply as_bullets_keeps. unfold bullets.
      repeat (apply Forall_app; split);
        (eapply Forall_impl; [eassumption|]; intros b Hopen;
         eapply labelled_not_blank; [|exact Hopen]; rewrite !elem_of_cons; tauto). }
    assert (line_breaks (_as_bullets bullets)
            = length bullets - 1 + sum_list (line_breaks <$> bullets)) as Hcount
      by (rewrite Hkeep; apply line_breaks_bullets).
    exists bullets. split; [exact Hb|]. split; [exact Hkeep|]. split; [exact Hcount|].
    intros Hne Hnone. rewrite Hcount.
    assert (sum_list (line_breaks <$> bullets) = 0) as ->.
    { clear -Hnone. induction Hnone as [|b l Hb _ IH]; [reflexivity|].
      rewrite fmap_cons. cbn [sum_list sum_list_with id]. rewrite Hb, IH. reflexivity. }
    destruct bullets; [contradiction|]. cbn [length]. lia.
Qed.

(** ** Season labels and the empty question *)

Lemma assoc_Some_in (c v : string) (table : list (string * string)) :
  Str.assoc c table = Some v -> (c, v) ∈ table.
Proof.
  induction table as [|[k w] table IH]; cbn [Str.assoc]; [discriminate|].
  case_bool_decide as Hk.
  - intros [= <-]. subst k. apply list_elem_of_here.
  - intros Hc. apply list_elem_of_further. apply IH. exact Hc.
Qed.

(** X19: [_bn_season] is stable.  Applied to its own result it changes
    nothing, so a season name that is stored in Bangla already, or that the
    table does not know, is shown as it is; [None] and the empty name give
    the empty text. *)
Theorem bn_season_stable {F} `{PyFloat F} (v : value F) :
  _bn_season (_bn_season v) = _bn_season v
  /\ (truthy v = false -> _bn_season v = VStr "")
  /\ (forall k, k <> "" -> Str.assoc k _SEASON_MAP = None -> _bn_season (VStr k) = VStr k)
  /\ (forall k label, (k, label) ∈ _SEASON_MAP -> _bn_season (F:=F) (VStr label) = VStr label).
Proof.
  assert (forall k label, (k, label) ∈ _SEASON_MAP ->
            _bn_season (F:=F) (VStr label) = VStr label) as Hlabel.
  { intros k label Hin. unfold _SEASON_MAP in Hin. rewrite !elem_of_cons in Hin.
    repeat (destruct Hin as [[= -> ->]|Hin]; [reflexivity|]).
    apply elem_of_nil in Hin. contradiction. }
  split; [|split; [|split]].
  - unfold _bn_season at 2 3. destruct (truthy v) eqn:Ht; cbn [negb]; [|reflexivity].
    destruct v as [|z|x|k]; try discriminate.
    + unfold _bn_season. rewrite Ht. reflexivity.
    + unfold _bn_season. rewrite Ht. reflexivity.
    + destruct (Str.assoc k _SEASON_MAP) as [label|] eqn:Ha; cbn [default].
      * apply (Hlabel k). apply assoc_Some_in. exact Ha.
      * unfold _bn_season. rewrite Ht, Ha. reflexivity.
  - intros Ht. unfold _bn_season. rewrite Ht. reflexivity.
  - intros k Hk Ha. unfold _bn_season. cbn [truthy].
    destruct (String.eqb_spec k ""); [contradiction|]. cbn [negb]. rewrite Ha. reflexivity.
  - exact Hlabel.
Qed.

(** X20: the empty question.  A question that normalizes to the empty text,
    such as the empty question itself, is matched by the exact tier against
    every crop that lacks an identifier or one of its two names, because a
    missing property counts as the empty text: the first such crop is the
    answer of [resolve_crop], after a single query. *)
Theorem resolve_crop_empty_question {F} `{PyFloat F} (W : World F) (q : string) (c : Crop F) :
  _normalize_bn W q = "" ->
  run_fails W cy_exact (VStr "") = false ->
  c ∈ crops (graph W) ->
  c_id c = None \/ c_name_bn c = None \/ c_name_en c = None ->
  exists c', c' ∈ crops (graph W) /\ exact_match W "" c' = true
    /\ resolve_crop W q = ([EvCypher cy_exact (VStr "")], Ok (Some (crop_row c'))).
Proof.
  intros Hq Hrun Hc Hmissing.
  assert (exact_match W "" c = true) as Hmatch.
  { apply exact_match_spec. destruct Hmissing as [-> | [-> | ->] ]; cbn [default]; tauto. }
  destruct (List.find (exact_match W "") (crops (graph W))) as [c'|] eqn:Hfind.
  - exists c'. apply find_some in Hfind as Hc'. destruct Hc' as [Hin Hm].
    split; [apply list_elem_of_In; exact Hin|]. split; [exact Hm|].
    unfold resolve_crop. rewrite Hq, (run_ok W _ _ Hrun). cbn [eval_cypher text_query].
    pose proof (exact_rows_head W "") as Hhead. rewrite Hfind in Hhead. cbn in Hhead.
    destruct (exact_rows W "") as [|r rows]; [discriminate|]. injection Hhead as ->.
    rewrite bind_Ok. reflexivity.
  - exfalso. pose proof (find_none _ _ Hfind c) as Hnone.
    rewrite Hnone in Hmatch; [discriminate|]. apply list_elem_of_In. exact Hc.
Qed.

(** ** The endpoint and the interface *)


Section Unreachable.
Context {F : Type} `{PyFloat F} (W : World F).

Lemma vector_fallback_unreachable (q : string) (k : Z) (i : option intent) (qvec : list F) :
  encode W ("query: " ++ Str.strip (q ++ " " ++ aug i)) = Ok qvec ->
  HAS_DB W = false \/ connect_fails W = true ->
  vector_fallback W q k i
  = (EvEncode ("query: " ++ Str.strip (q ++ " " ++ aug i))
       :: (if HAS_DB W then [EvConnect] else []),
     if (k <? 0)%Z then Raise ValueError else Ok apology).
Proof.
  intros Henc Hdown. unfold vector_fallback. rewrite search_cases, Henc.
  cbv beta iota zeta.
  assert (mmr_rerank qvec [] f_default_lambda k
          = if (k <? 0)%Z then Raise ValueError else Ok []) as ->.
  { unfold mmr_rerank. cbn [length]. change (Z.of_nat 0) with 0%Z.
    rewrite Z.leb_antisym. destruct (k <? 0)%Z; reflexivity. }
  destruct Hdown as [Hdb|Hconn].
  - rewrite Hdb. destruct (k <? 0)%Z; [rewrite bind_Raise|rewrite bind_Ok]; reflexivity.
  - destruct (HAS_DB W); rewrite ?Hconn;
      (destruct (k <? 0)%Z; [rewrite bind_Raise|rewrite bind_Ok]; reflexivity).
Qed.

End Unreachable.

(** X21: a request without a reachable vector store.  When the driver modules
    are missing or the connection cannot be opened, a question for which the
    graph gives no bullets gets the apology, for every [k] of 0 or more; no
    SQL is sent and the generator is not called.  A negative [k] is a
    [ValueError]. *)
Theorem answer_without_vector_store {F} `{PyFloat F} (W : World F) (q : string) (k : Z)
    (crop : option (row F)) (log1 : list (event F)) (qvec : list F) :
  resolve_crop W q = (log1, Ok crop) ->
  (dict_truthy crop = false
   \/ exists log2 r, graph_answer_for_crop W q = (log2, Ok r) /\ usable_bullets r = None) ->
  encode W ("query: " ++ Str.strip (q ++ " " ++ aug (_detect_intent W q))) = Ok qvec ->
  HAS_DB W = false \/ connect_fails W = true ->
  exists graph_log,
    answer W q k
    = ((graph_log
          ++ EvEncode ("query: " ++ Str.strip (q ++ " " ++ aug (_detect_intent W q)))
             :: (if HAS_DB W then [EvConnect] else []))%list,
       if (k <? 0)%Z then Raise ValueError else Ok apology)
    /\ Forall (fun ev => is_cypher ev = true) graph_log.
Proof.
  intros Hres Hgraph Henc Hdown.
  pose proof (cypher_resolve_crop W q) as C1. unfold calls_all in C1.
  rewrite Hres in C1. cbn [fst] in C1.
  rewrite answer_unfold, Hres, bind_Ok.
  rewrite (vector_fallback_unreachable W q k _ qvec Henc Hdown).
  destruct (dict_truthy crop) eqn:Htruthy.
  - destruct Hgraph as [Hno|(log2 & r & Hanswer & Hnone)]; [discriminate|].
    pose proof (cypher_graph_answer W q) as C2. unfold calls_all in C2.
    rewrite Hanswer in C2. cbn [fst] in C2.
    unfold overview_then_fallback. rewrite Hanswer, bind_Ok, Hnone.
    rewrite (vector_fallback_unreachable W q k _ qvec Henc Hdown). cbn [fst snd].
    exists (log1 ++ log2)%list. rewrite <- app_assoc. split; [reflexivity|].
    apply Forall_app. split; assumption.
  - cbn [fst snd]. exists log1. split; [reflexivity|exact C1].
Qed.

(** X22: the outcomes of [POST /api/ask].  An exception of [answer] becomes an
    [HTTPException] with status 500 that reports it; so a failing exact-match
    query is a 500 for every question, whatever the vector store holds.
    Without a reachable vector store, a question that the graph cannot
    answer is a 200 with the apology. *)
Theorem ask_outcomes {F} `{PyFloat F} (W : World F) (q : string) :
  (forall log e, answer W q 5 = (log, Raise e) -> ask W q = (log, HTTPException 500 e))
  /\ (run_fails W cy_exact (VStr (_normalize_bn W q)) = true ->
      ask W q = ([EvCypher cy_exact (VStr (_normalize_bn W q))], HTTPException 500 StoreError))
  /\ (forall crop log1 qvec,
        resolve_crop W q = (log1, Ok crop) -> dict_truthy crop = false ->
        encode W ("query: " ++ Str.strip (q ++ " " ++ aug (_detect_intent W q))) = Ok qvec ->
        HAS_DB W = false \/ connect_fails W = true ->
        ask W q
        = ((log1 ++ EvEncode ("query: "
                                ++ Str.strip (q ++ " " ++ aug (_detect_intent W q)))
                    :: (if HAS_DB W then [EvConnect] else []))%list,
           Http200 {| resp_answer := apology; resp_mode := "GraphRAG or VectorRAG";
                      resp_sources := ["neo4j"; "pgvector"] |})).
Proof.
  split; [|split].
  - intros log e Ha. unfold ask. rewrite Ha. reflexivity.
  - intros Hfail. unfold ask. rewrite answer_unfold. unfold resolve_crop.
    rewrite (run_fails_raise W _ _ Hfail), !bind_Raise. reflexivity.
  - intros crop log1 qvec Hres Htruthy Henc Hdown. unfold ask.
    rewrite answer_unfold, Hres, bind_Ok, Htruthy.
    rewrite (vector_fallback_unreachable W q 5 _ qvec Henc Hdown). reflexivity.
Qed.

(** X23: the badge of the user interface.  Every successful response of
    [/api/ask] carries the same mode text and the same two sources,
    whichever path produced the answer; the interface shows the graph badge
    only for the mode [graphrag], so it shows the vector badge for every
    answer, graph answers included. *)
Theorem ask_badge_is_always_vector {F} `{PyFloat F} (W : World F) (q : string)
    (log : list (event F)) (body : AskResponse) :
  str_lower W "GraphRAG or VectorRAG" = "graphrag or vectorrag" ->
  ask W q = (log, Http200 body) ->
  resp_mode body = "GraphRAG or VectorRAG"
  /\ resp_sources body = ["neo4j"; "pgvector"]
  /\ snd (answer W q 5) = Ok (resp_answer body)
  /\ answer_badge W (Some (resp_mode body)) = VectorBadge.
Proof.
  intros Hlower. unfold ask. destruct (answer W q 5) as [log' [e|out]]; [discriminate|].
  intros [= _ <-]. cbn [resp_mode resp_sources resp_answer snd].
  split; [reflexivity|]. split; [reflexivity|]. split; [reflexivity|].
  unfold answer_badge. cbn [from_option id]. rewrite Hlower. reflexivity.
Qed.

(** ** Bangla digits *)


Lemma chars_ascii (s : string) :
  ascii_only s -> Str.chars s = one <$> bytes s.
Proof.
  unfold ascii_only, bytes. induction s as [|c r IH]; cbn [list_ascii_of_string].
  - reflexivity.
  - intros Hs. apply Forall_cons in Hs as [Hc Hr].
    unfold Str.chars. cbn [Str.chars_from Str.flush app].
    assert (Str.continuation c = 0) as ->.
    { unfold Str.continuation. cbv zeta.
      destruct (N.ltb_spec (N_of_ascii c) 192); [reflexivity|lia]. }
    rewrite chars_from_0. cbn [Str.flush app]. rewrite fmap_cons. f_equal. apply IH. exact Hr.
Qed.



Lemma of_chars_one (l : list ascii) : Str.of_chars (one <$> l) = string_of_list_ascii l.
Proof.
  unfold Str.of_chars, Str.join. induction l as [|c l IH]; [reflexivity|].
  rewrite fmap_cons. cbn [string_of_list_ascii]. rewrite <- IH.
  destruct l as [|d l]; [reflexivity|].
  rewrite fmap_cons. cbn [String.concat]. reflexivity.
Qed.

Lemma rev_fmap {A B} (f : A -> B) (l : list A) : rev (f <$> l) = f <$> rev l.
Proof.
  induction l as [|x l IH]; [reflexivity|].
  rewrite fmap_cons. cbn [rev]. rewrite fmap_app, IH. reflexivity.
Qed.

Lemma drop_while_fmap {A B} (p : B -> bool) (f : A -> B) (l : list A) :
  Str.drop_while p (f <$> l) = f <$> Str.drop_while (fun x => p (f x)) l.
Proof.
  induction l as [|x l IH]; [reflexivity|].
  rewrite fmap_cons. cbn [Str.drop_while]. destruct (p (f x)); [exact IH|].
  rewrite fmap_cons. reflexivity.
Qed.

Lemma drop_while_Forall {A} (P : A -> Prop) (p : A -> bool) (l : list A) :
  Forall P l -> Forall P (Str.drop_while p l).
Proof.
  induction 1 as [|x l Hx Hl IH]; cbn [Str.drop_while]; [constructor|].
  destruct (p x); [exact IH|]. constructor; assumption.
Qed.

(** [rstrip] on a text of ASCII characters works byte by byte. *)
Lemma rstrip_ascii (set : list string) (s : string) :
  ascii_only s ->
  Str.rstrip_chars set s
  = string_of_list_ascii
      (rev (Str.drop_while (fun c => Str.mem (one c) set) (rev (bytes s)))).
Proof.
  intros Hs. unfold Str.rstrip_chars. rewrite (chars_ascii s Hs).
  rewrite rev_fmap, drop_while_fmap, rev_fmap, of_chars_one. reflexivity.
Qed.

Lemma bytes_of_list (l : list ascii) : bytes (string_of_list_ascii l) = l.
Proof. apply list_ascii_of_string_of_list_ascii. Qed.

Lemma rstrip_ascii_only (set : list string) (s : string) :
  ascii_only s -> ascii_only (Str.rstrip_chars set s).
Proof.
  intros Hs. rewrite (rstrip_ascii set s Hs). unfold ascii_only. rewrite bytes_of_list.
  apply Forall_rev. apply drop_while_Forall. apply Forall_rev. exact Hs.
Qed.

Lemma digit_in_table (c : ascii) :
  is_ascii_digit c = true -> Str.assoc (one c) _BN_DIGITS <> None.
Proof.
  destruct c as [[] [] [] [] [] [] [] []]; vm_compute; congruence.
Qed.

Lemma table_targets :
  Forall (fun e => Forall (fun c => is_ascii_digit c = false) (bytes (snd e))) _BN_DIGITS.
Proof. vm_compute. repeat constructor. Qed.

Lemma translate_no_digit (s : string) :
  ascii_only s ->
  Forall (fun c => is_ascii_digit c = false) (bytes (Str.translate _BN_DIGITS s)).
Proof.
  intros Hs. unfold Str.translate. rewrite bytes_of_chars, (chars_ascii s Hs).
  apply Forall_concat. rewrite <- !list_fmap_compose.
  apply Forall_fmap. apply Forall_forall. intros c _. cbn [compose].
  destruct (Str.assoc (one c) _BN_DIGITS) as [v|] eqn:Ha; cbn [default from_option id].
  - apply assoc_Some_in in Ha. pose proof table_targets as Ht.
    rewrite Forall_forall in Ht. exact (Ht _ Ha).
  - constructor; [|constructor].
    destruct (is_ascii_digit c) eqn:Hd; [|reflexivity].
    exfalso. exact (digit_in_table c Hd Ha).
Qed.

Lemma string_of_uint_ascii (u : Decimal.uint) : ascii_only (NilEmpty.string_of_uint u).
Proof.
  unfold ascii_only, bytes.
  induction u; cbn [NilEmpty.string_of_uint list_ascii_of_string];
    constructor; try assumption; vm_compute; reflexivity.
Qed.

Lemma string_of_int_ascii (d : Decimal.int) : ascii_only (NilZero.string_of_int d).
Proof.
  assert (forall u, ascii_only (NilZero.string_of_uint u)) as Hu.
  { intros u. unfold NilZero.string_of_uint. destruct u; try apply string_of_uint_ascii.
    repeat constructor. }
  destruct d as [u|u]; cbn [NilZero.string_of_int]; [apply Hu|].
  constructor; [vm_compute; reflexivity|apply Hu].
Qed.

Lemma string_of_bytes (s : string) : string_of_list_ascii (bytes s) = s.
Proof. apply string_of_list_ascii_of_string. Qed.

Lemma ascii_only_app (a b : string) : ascii_only a -> ascii_only b -> ascii_only (a ++ b).
Proof. unfold ascii_only. rewrite bytes_app. intros Ha Hb. apply Forall_app. auto. Qed.

(** The text of a float that ends in ".0" loses exactly that ending. *)
Lemma rstrip_point_zero (s : string) :
  ascii_only s -> (forall s', s <> s' ++ ".") ->
  Str.rstrip_chars ["."] (Str.rstrip_chars ["0"] (s ++ ".0")) = s.
Proof.
  intros Hs Hend.
  assert (ascii_only (s ++ ".0")) as Hs0.
  { apply ascii_only_app; [exact Hs|]. repeat constructor. }
  assert (Str.rstrip_chars ["0"] (s ++ ".0") = s ++ ".") as Hfirst.
  { rewrite (rstrip_ascii _ _ Hs0), bytes_app. cbn [bytes list_ascii_of_string].
    rewrite rev_app_distr. cbn [rev app Str.drop_while].
    change (Str.mem (one "0") ["0"]) with true. change (Str.mem (one ".") ["0"]) with false.
    cbv iota. cbn [rev]. rewrite rev_involutive.
    rewrite <- (string_of_bytes (s ++ ".")), bytes_app. reflexivity. }
  rewrite Hfirst.
  assert (ascii_only (s ++ ".")) as Hs1.
  { apply ascii_only_app; [exact Hs|]. repeat constructor. }
  rewrite (rstrip_ascii _ _ Hs1), bytes_app. cbn [bytes list_ascii_of_string].
  rewrite rev_app_distr. cbn [rev app Str.drop_while].
  change (Str.mem (one ".") ["."]) with true. cbv iota. unfold bytes.
  destruct (rev (list_ascii_of_string s)) as [|c t] eqn:Hrev.
  - apply (f_equal (@rev ascii)) in Hrev. rewrite rev_involutive in Hrev. cbn in Hrev.
    cbn. rewrite <- (string_of_bytes s). unfold bytes. rewrite Hrev. reflexivity.
  - cbn [Str.drop_while].
    destruct (Str.mem (one c) ["."]) eqn:Hc.
    + exfalso. apply bool_decide_eq_true in Hc. apply list_elem_of_singleton in Hc.
      injection Hc as ->.
      apply (f_equal (@rev ascii)) in Hrev. rewrite rev_involutive in Hrev. cbn [rev] in Hrev.
      apply (Hend (string_of_list_ascii (rev t))).
      rewrite <- (string_of_bytes s). unfold bytes. rewrite Hrev.
      rewrite <- (string_of_bytes (string_of_list_ascii (rev t) ++ ".")), bytes_app.
      rewrite bytes_of_list. reflexivity.
    + rewrite <- Hrev, rev_involutive. apply string_of_bytes.
Qed.

(** X24: numbers in Bangla digits.  [_bn_num] leaves no ASCII digit in the
    text of an integer, nor in that of a float (the text of a Python float
    is made of ASCII characters); [None] gives the empty text; and a float
    whose text ends in ".0" is shown without that ending, as a whole
    number. *)
Theorem bn_num_digits {F} `{PyFloat F} (W : World F) :
  _bn_num W VNone = ""
  /\ (forall z, Forall (fun c => is_ascii_digit c = false) (bytes (_bn_num W (VInt z))))
  /\ (forall x, ascii_only (float_str W x) ->
        Forall (fun c => is_ascii_digit c = false) (bytes (_bn_num W (VFloat x))))
  /\ (forall x s, float_str W x = s ++ ".0" -> ascii_only s ->
        (forall s', s <> s' ++ ".") ->
        _bn_num W (VFloat x) = Str.translate _BN_DIGITS s).
Proof.
  split; [reflexivity|]. split; [|split].
  - intros z. cbn [_bn_num py_str]. apply translate_no_digit. apply string_of_int_ascii.
  - intros x Hx. cbn [_bn_num py_str]. apply translate_no_digit.
    apply rstrip_ascii_only, rstrip_ascii_only. exact Hx.
  - intros x s Hx Hs Hend. cbn [_bn_num py_str]. rewrite Hx.
    rewrite (rstrip_point_zero s Hs Hend). reflexivity.
Qed.

(** ** The order of seasons and diseases *)

Section NameOrder.
Context {F : Type} `{PyFloat F} (W : World F).
Hypothesis collate_total :
  forall x y, collate_le (graph W) x y = true \/ collate_le (graph W) y x = true.
Hypothesis collate_trans :
  forall x y z, collate_le (graph W) x y = true -> collate_le (graph W) y z = true ->
                collate_le (graph W) x z = true.

Lemma name_le_total (a b : option string) : name_le W a b = true \/ name_le W b a = true.
Proof. destruct a, b; cbn; auto. Qed.

Lemma name_le_trans (a b c : option string) :
  name_le W a b = true -> name_le W b c = true -> name_le W a c = true.
Proof. destruct a, b, c; cbn; try discriminate; auto. apply collate_trans. Qed.

(** A list sorted by an optional name: ascending, the nameless last. *)
Lemma sorted_by_name {A} (name : A -> option string) (l : list A) :
  exists sorted,
    sorted ≡ₚ l
    /\ StronglySorted (fun x y => Is_true (name_le W (name x) (name y))) sorted
    /\ merge_sort (fun x y => Is_true (name_le W (name x) (name y))) l = sorted
    /\ forall i j x y, i < j -> sorted !! i = Some x -> sorted !! j = Some y ->
         match name x, name y with
         | Some a, Some b => collate_le (graph W) a b = true
         | None, Some _ => False
         | _, None => True
         end.
Proof.
  set (R := fun x y : A => Is_true (name_le W (name x) (name y))).
  assert (Transitive R) as Htrans.
  { intros x y z Hxy Hyz. unfold R in *. apply Is_true_true in Hxy, Hyz. apply Is_true_true.
    eapply name_le_trans; eassumption. }
  assert (Total R) as Htotal.
  { intros x y. unfold R. destruct (name_le_total (name x) (name y)) as [Hl|Hr];
      [left|right]; apply Is_true_true; assumption. }
  exists (merge_sort R l).
  pose proof (StronglySorted_merge_sort R l) as Hsorted.
  split; [apply merge_sort_Permutation|]. split; [exact Hsorted|]. split; [reflexivity|].
  intros i j x y Hij Hi Hj.
  pose proof (StronglySorted_lookup_lt R _ i j x y Hsorted Hij Hi Hj) as Hle.
  unfold R in Hle. apply Is_true_true in Hle.
  destruct (name x), (name y); cbn in Hle; try exact I; [exact Hle|discriminate].
Qed.

End NameOrder.

(** X25: the order of seasons and diseases.  When the collation of the store
    is a total preorder, the season query returns each season of the crop
    once, in ascending order of name, the nameless last; and so does the
    disease query with the diseases. *)
Theorem seasons_and_diseases_in_name_order {F} `{PyFloat F} (W : World F) (cid : value F) :
  (forall x y, collate_le (graph W) x y = true \/ collate_le (graph W) y x = true) ->
  (forall x y z, collate_le (graph W) x y = true -> collate_le (graph W) y z = true ->
                 collate_le (graph W) x z = true) ->
  (exists sorted,
     sorted ≡ₚ snd <$> List.filter (fun e => id_match cid (fst e)) (suitable_in (graph W))
     /\ StronglySorted (by_season_name W) sorted
     /\ season_rows W cid = season_row <$> sorted
     /\ forall i j x y, i < j -> sorted !! i = Some x -> sorted !! j = Some y ->
          match s_name_bn x, s_name_bn y with
          | Some a, Some b => collate_le (graph W) a b = true
          | None, Some _ => False
          | _, None => True
          end)
  /\ (exists sorted,
        sorted ≡ₚ snd <$> List.filter (fun e => id_match cid (fst e)) (suffer_from (graph W))
        /\ StronglySorted (by_disease_name W) sorted
        /\ disease_rows W cid = disease_row <$> sorted
        /\ forall i j x y, i < j -> sorted !! i = Some x -> sorted !! j = Some y ->
             match d_name_bn x, d_name_bn y with
             | Some a, Some b => collate_le (graph W) a b = true
             | None, Some _ => False
             | _, None => True
             end).
Proof.
  intros Htotal Htrans. split.
  - destruct (sorted_by_name W Htotal Htrans s_name_bn
                (snd <$> List.filter (fun e => id_match cid (fst e)) (suitable_in (graph W))))
      as (sorted & Hp & Hs & Hm & Hord).
    exists sorted. split; [exact Hp|]. split; [exact Hs|]. split; [|exact Hord].
    unfold season_rows. f_equal. exact Hm.
  - destruct (sorted_by_name W Htotal Htrans d_name_bn
                (snd <$> List.filter (fun e => id_match cid (fst e)) (suffer_from (graph W))))
      as (sorted & Hp & Hs & Hm & Hord).
    exists sorted. split; [exact Hp|]. split; [exact Hs|]. split; [|exact Hord].
    unfold disease_rows. f_equal. exact Hm.
Qed.

(** The order of [String.leb] is transitive. *)
Lemma string_leb_trans (a b c : string) :
  String.leb a b = true -> String.leb b c = true -> String.leb a c = true.
Proof.
  unfold String.leb.
  assert (forall a b c, String.compare a b <> Gt -> String.compare b c <> Gt ->
                        String.compare a c <> Gt) as Hcmp.
  { clear. induction a as [|x a IH]; intros [|y b] [|z c]; cbn [String.compare];
      try congruence.
    unfold Ascii.compare.
    destruct (N.compare_spec (N_of_ascii x) (N_of_ascii y)) as [Hxy|Hxy|Hxy];
      destruct (N.compare_spec (N_of_ascii y) (N_of_ascii z)) as [Hyz|Hyz|Hyz];
      try congruence; intros H1 H2.
    - rewrite Hxy, Hyz, N.compare_refl. apply (IH b c); assumption.
    - rewrite Hxy. apply N.compare_lt_iff in Hyz. rewrite Hyz. discriminate.
    - rewrite <- Hyz. apply N.compare_lt_iff in Hxy. rewrite Hxy. discriminate.
    - assert (N_of_ascii x < N_of_ascii z)%N as Hxz by lia.
      apply N.compare_lt_iff in Hxz. rewrite Hxz. discriminate. }
  intros Hab Hbc. specialize (Hcmp a b c).
  destruct (String.compare a b); destruct (String.compare b c); try discriminate;
    destruct (String.compare a c); try reflexivity; exfalso; apply Hcmp; congruence.
Qed.

(** ** The cached pipeline *)


(** X26: the cached pipeline.  A call of [_get_pipe] that returns leaves its
    result in [_pipe], and every later call returns that same pipeline
    without loading anything.  Starting without a pipeline, the configured
    model is tried first; only when that fails is the fallback model tried,
    without the access token; when both fail the exception of the fallback
    leaves the function and [_pipe] stays empty, so that the next call tries
    again.  A pipeline built here has a pad token whenever its tokenizer has
    an end-of-sequence token. *)
Theorem get_pipe_caches (h : Host) :
  (forall st log st' p,
      _get_pipe h st = (log, st', Ok p) ->
      st' = Some p /\ _get_pipe h st' = ([], st', Ok p) /\ length log <= 2)
  /\ (forall log st' r,
        _get_pipe h None = (log, st', r) ->
        (exists first, head log = Some first /\ lr_model first = _MODEL_ID h
                       /\ lr_token first = token_kwarg (_HF_TOKEN h))
        /\ (forall second, log !! 1 = Some second ->
              lr_model second = fallback /\ lr_token second = None
              /\ exists first e, head log = Some first /\ pipeline h first = Raise e)
        /\ (forall e, r = Raise e ->
              st' = None /\ exists second, log !! 1 = Some second
                                           /\ pipeline h second = Raise e)
        /\ (forall p e, r = Ok p -> eos_token_id (tokenizer p) = Some e ->
              is_Some (pad_token_id (tokenizer p)))).
Proof.
  split.
  - intros st log st' p. unfold _get_pipe. destruct st as [p0|].
    + intros [= <- <- <-]. split; [reflexivity|]. split; [reflexivity|]. simpl. lia.
    + cbv zeta. destruct (pipeline h _) as [e|p1].
      * destruct (pipeline h _) as [e2|p2]; [discriminate|].
        intros [= <- <- <-]. split; [reflexivity|]. split; [reflexivity|]. simpl. lia.
      * intros [= <- <- <-]. split; [reflexivity|]. split; [reflexivity|]. simpl. lia.
  - intros log st' r. unfold _get_pipe. cbv beta iota zeta.
    assert (forall p e, eos_token_id (tokenizer (ensure_pad_token p)) = Some e ->
                        is_Some (pad_token_id (tokenizer (ensure_pad_token p)))) as Hpad.
    { intros p e. unfold ensure_pad_token. cbv zeta.
      destruct (pad_token_id (tokenizer p)) as [pad|] eqn:Hp.
      - intros _. rewrite Hp. eexists. reflexivity.
      - destruct (eos_token_id (tokenizer p)) as [eos|] eqn:He.
        + intros _. eexists. reflexivity.
        + rewrite He. discriminate. }
    set (first := {| lr_model := _MODEL_ID h;
                     lr_device := if cuda_is_available h then 0%Z else (-1)%Z;
                     lr_float16 := cuda_is_available h;
                     lr_token := token_kwarg (_HF_TOKEN h) |}).
    set (second := {| lr_model := fallback;
                      lr_device := if cuda_is_available h then 0%Z else (-1)%Z;
                      lr_float16 := cuda_is_available h; lr_token := None |}).
    destruct (pipeline h first) as [e1|p1] eqn:H1.
    + destruct (pipeline h second) as [e2|p2] eqn:H2; intros Heq; injection Heq as <- <- <-.
      * split; [exists first; split; [reflexivity|split; reflexivity]|].
        split; [intros s2 Hs; cbn in Hs; injection Hs as <-; split; [reflexivity|];
                split; [reflexivity|]; exists first, e1; split; [reflexivity|exact H1]|].
        split; [intros e Heq; injection Heq as <-; split; [reflexivity|]; exists second;
                split; [reflexivity|exact H2]|].
        intros p e. discriminate.
      * split; [exists first; split; [reflexivity|split; reflexivity]|].
        split; [intros s2 Hs; cbn in Hs; injection Hs as <-; split; [reflexivity|];
                split; [reflexivity|]; exists first, e1; split; [reflexivity|exact H1]|].
        split; [intros e; discriminate|].
        intros p e Heq. injection Heq as <-. apply Hpad.
    + intros Heq; injection Heq as <- <- <-.
      split; [exists first; split; [reflexivity|split; reflexivity]|].
      split; [intros s2; discriminate|].
      split; [intros e; discriminate|].
      intros p e Heq. injection Heq as <-. apply Hpad.
Qed.

(** ** The passages block *)


Section Block.
Context {F : Type} `{PyFloat F} (W : World F).

Lemma passage_fields (h : row F) :
  get_default (passage h) "text" (VStr "") = default (VStr "") (h !! "text")
  /\ get_default (passage h) "source" (VStr "") = default (VStr "") (h !! "source").
Proof.
  unfold passage, get_default. split.
  - rewrite lookup_insert_ne by discriminate. rewrite lookup_insert. reflexivity.
  - rewrite lookup_insert_ne by discriminate. rewrite lookup_insert_ne by discriminate.
    rewrite lookup_singleton. reflexivity.
Qed.

Lemma context_lines_passages (i : Z) (hits : list (row F)) (n : nat) :
  context_lines W i (passage <$> hits) !! n
  = passage_line W (i + Z.of_nat n) <$> hits !! n.
Proof.
  revert i n. induction hits as [|h hits IH]; intros i n; [reflexivity|].
  rewrite fmap_cons. cbn [context_lines]. destruct n as [|n].
  - cbn. destruct (passage_fields h) as [-> ->].
    unfold passage_line, field. rewrite Z.add_0_r. reflexivity.
  - rewrite !lookup_cons. rewrite (IH (i + 1)%Z n). f_equal. f_equal. lia.
Qed.

Lemma context_lines_length (i : Z) (ps : list (row F)) :
  length (context_lines W i ps) = length ps.
Proof.
  revert i. induction ps as [|p ps IH]; intros i; [reflexivity|].
  cbn [context_lines length]. rewrite IH. reflexivity.
Qed.

End Block.

(** X27: the passages block of the prompt.  Without passages the user prompt
    is empty.  Otherwise the template is filled with the question and a
    block that lists the hits in the order of the search, numbered from 1
    and separated by an empty line, each as its number in brackets, its
    text, and on a second line its source in parentheses.  A hit without a
    [text] or [source] column shows an empty field; a column that is [None]
    shows the word [None]. *)
Theorem passages_block {F} `{PyFloat F} (W : World F) (q : string) :
  _format_vector_context W q [] = ""
  /\ (forall h hits,
        exists lines,
          _format_vector_context W q (passage <$> h :: hits)
          = VEC_USER_format W q (Str.join (newline ++ newline) lines)
          /\ length lines = S (length hits)
          /\ forall n h', (h :: hits) !! n = Some h' ->
               lines !! n = Some (passage_line W (1 + Z.of_nat n) h'))
  /\ (forall h k,
        (h !! k = None -> field W h k = "")
        /\ (h !! k = Some VNone -> field W h k = "None")
        /\ (forall s, h !! k = Some (VStr s) -> field W h k = s)).
Proof.
  split; [reflexivity|]. split.
  - intros h hits. exists (context_lines W 1 (passage <$> h :: hits)).
    split; [rewrite fmap_cons; reflexivity|].
    split; [rewrite context_lines_length, length_fmap; reflexivity|].
    intros n h' Hn. rewrite context_lines_passages, Hn. reflexivity.
  - intros h k. unfold field. split; [|split].
    + intros ->. reflexivity.
    + intros ->. reflexivity.
    + intros s ->. reflexivity.
Qed.

(** ** Failures and health *)

(** X28: failures of the vector path are not degraded.  When the graph gives
    no bullets, an exception of [search] leaves [answer] as it is: a failing
    embedding model ends the request after the embedding call, and a failing
    SQL query after the query; neither is turned into the apology. *)
Theorem answer_propagates_search_failures {F} `{PyFloat F} (W : World F) (q : string)
    (k : Z) (crop : option (row F)) (log1 : list (event F)) :
  resolve_crop W q = (log1, Ok crop) ->
  (dict_truthy crop = false
   \/ exists log2 r, graph_answer_for_crop W q = (log2, Ok r) /\ usable_bullets r = None) ->
  exists graph_log,
    Forall (fun ev => is_cypher ev = true) graph_log
    /\ (forall log3 e,
          search W (Str.strip (q ++ " " ++ aug (_detect_intent W q))) k (Z.max 32 (k * 8))
                 VNone (VStr "bn") true f_default_lambda = (log3, Raise e) ->
          answer W q k = ((graph_log ++ log3)%list, Raise e))
    /\ (forall e,
          encode W ("query: " ++ Str.strip (q ++ " " ++ aug (_detect_intent W q))) = Raise e ->
          answer W q k
          = ((graph_log
                ++ [EvEncode ("query: "
                                ++ Str.strip (q ++ " " ++ aug (_detect_intent W q)))])%list,
             Raise e))
    /\ (forall qvec e,
          encode W ("query: " ++ Str.strip (q ++ " " ++ aug (_detect_intent W q))) = Ok qvec ->
          HAS_DB W = true -> connect_fails W = false ->
          execute W qvec (Z.max 32 (k * 8)) VNone (VStr "bn") = Raise e ->
          answer W q k
          = ((graph_log
                ++ [EvEncode ("query: "
                                ++ Str.strip (q ++ " " ++ aug (_detect_intent W q)));
                    EvConnect; EvSql (Z.max 32 (k * 8)) VNone (VStr "bn")])%list,
             Raise e)).
Proof.
  intros Hres Hgraph.
  pose proof (cypher_resolve_crop W q) as C1. unfold calls_all in C1.
  rewrite Hres in C1. cbn [fst] in C1.
  assert (exists graph_log,
            Forall (fun ev => is_cypher ev = true) graph_log
            /\ answer W q k
               = bind (graph_log, Ok tt)
                      (fun _ => vector_fallback W q k (_detect_intent W q))) as Hshape.
  { rewrite answer_unfold, Hres, bind_Ok.
    destruct (dict_truthy crop) eqn:Htruthy.
    - destruct Hgraph as [Hno|(log2 & r & Hanswer & Hnone)]; [discriminate|].
      pose proof (cypher_graph_answer W q) as C2. unfold calls_all in C2.
      rewrite Hanswer in C2. cbn [fst] in C2.
      exists (log1 ++ log2)%list. split; [apply Forall_app; split; assumption|].
      unfold overview_then_fallback. rewrite Hanswer, !bind_Ok, Hnone. cbn [fst snd].
      rewrite app_assoc. reflexivity.
    - exists log1. split; [exact C1|]. rewrite bind_Ok. reflexivity. }
  destruct Hshape as (graph_log & Hcy & Hans). exists graph_log. split; [exact Hcy|].
  assert (forall log3 e,
            search W (Str.strip (q ++ " " ++ aug (_detect_intent W q))) k (Z.max 32 (k * 8))
                   VNone (VStr "bn") true f_default_lambda = (log3, Raise e) ->
            answer W q k = ((graph_log ++ log3)%list, Raise e)) as Hprop.
  { intros log3 e Hs. rewrite Hans, bind_Ok. unfold vector_fallback.
    rewrite Hs, bind_Raise. reflexivity. }
  split; [exact Hprop|]. split.
  - intros e He. apply Hprop. rewrite search_cases, He. reflexivity.
  - intros qvec e He Hdb Hconn Hex. apply Hprop.
    rewrite search_cases, He, Hdb, Hconn. cbv beta iota zeta.
    change (sql_filter (F:=F) VNone) with (@VNone F).
    change (sql_filter (F:=F) (VStr "bn")) with (@VStr F "bn").
    rewrite Hex. reflexivity.
Qed.

Section Healthy.
Variable W : World Q.
Variable B : Q.
Hypothesis HB : (B < 1000000000)%Q.
Hypothesis Hstore : store_up W.
Hypothesis Hencode : forall text, exists qvec, encode W text = Ok qvec.
Hypothesis Hexecute :
  forall qvec fetch_k source language,
    exists rows, execute W qvec fetch_k source language = Ok rows
                 /\ forallb (bounded_candidate B) rows = true.
Hypothesis Hpipe : pipe_load_fails W = false.

Lemma search_healthy (query : string) (k fetch_k : Z) (source language : value Q) :
  (1 <= k)%Z ->
  exists log hits, search W query k fetch_k source language true f_default_lambda
                   = (log, Ok hits).
Proof.
  intros Hk. rewrite search_cases. destruct (Hencode ("query: " ++ query)) as [qvec ->].
  cbv beta iota zeta.
  assert (0 <= f_default_lambda <= 1)%Q as Hlam by (cbn; lra).
  destruct (HAS_DB W).
  - destruct (connect_fails W).
    + destruct (mmr_rerank_total _ B Hlam HB qvec [] k Hk eq_refl) as (out & -> & _).
      eexists _, _. reflexivity.
    + destruct (Hexecute qvec fetch_k (sql_filter source) (sql_filter language))
        as (rows & -> & Hrows).
      cbn [rbind].
      destruct (mmr_rerank_total _ B Hlam HB qvec rows k Hk Hrows) as (out & -> & _).
      eexists _, _. reflexivity.
  - destruct (mmr_rerank_total _ B Hlam HB qvec [] k Hk eq_refl) as (out & -> & _).
    eexists _, _. reflexivity.
Qed.

Lemma vector_fallback_healthy (q : string) (k : Z) (i : option intent) :
  (1 <= k)%Z -> exists log text, vector_fallback W q k i = (log, Ok text).
Proof.
  intros Hk. unfold vector_fallback.
  destruct (search_healthy (Str.strip (q ++ " " ++ aug i)) k (Z.max 32 (k * 8))
              VNone (VStr "bn") Hk) as (log & hits & ->).
  rewrite bind_Ok. destruct hits as [|h hits].
  - eexists _, _. reflexivity.
  - rewrite fmap_cons. unfold gen_from_passages, _gen, emit. rewrite bind_Ok. cbn [fst snd].
    rewrite Hpipe. destruct (pipe W _); eexists _, _; reflexivity.
Qed.

Lemma answer_healthy (q : string) (k : Z) :
  (1 <= k)%Z -> exists log text, answer W q k = (log, Ok text).
Proof.
  intros Hk. rewrite answer_unfold.
  destruct (resolve_crop_up W q Hstore) as (log1 & crop & -> & _). rewrite bind_Ok.
  destruct (vector_fallback_healthy q k (_detect_intent W q) Hk) as (log3 & text & Hvec).
  destruct (dict_truthy crop).
  - unfold overview_then_fallback.
    destruct (graph_answer_up W q Hstore) as (log2 & r & ->). rewrite bind_Ok.
    destruct (usable_bullets r); [eexists _, _; reflexivity|].
    rewrite Hvec. eexists _, _. reflexivity.
  - rewrite Hvec. eexists _, _. reflexivity.
Qed.

End Healthy.

(** X29: a healthy system always answers.  When the graph store answers
    every query, the embedding model embeds every text, the vector store,
    where it is reachable, returns rows that carry a text and a similarity
    of absolute value at most B < 1e9, and the generation pipeline loads,
    then [answer] returns a text for every question and every [k] of 1 or
    more (exact rationals). *)
Theorem answer_total_when_healthy (W : World Q) (B : Q) (q : string) (k : Z) :
  (B < 1000000000)%Q ->
  store_up W ->
  (forall text, exists qvec, encode W text = Ok qvec) ->
  (forall qvec fetch_k source language,
      exists rows, execute W qvec fetch_k source language = Ok rows
                   /\ forallb (bounded_candidate B) rows = true) ->
  pipe_load_fails W = false ->
  (1 <= k)%Z ->
  exists log text, answer W q k = (log, Ok text).
Proof.
  intros HB Hstore Hencode Hexecute Hpipe Hk.
  exact (answer_healthy W B HB Hstore Hencode Hexecute Hpipe q k Hk).
Qed.

(** X30: which tiers of [resolve_crop] are guarded.  When the exact tier
    finds nothing, a failure of the alias query is skipped over: the
    full-text tier runs next as after a miss.  A failure of the full-text
    query, or of the substring query after it, is not caught and ends the
    resolution with the exception; this is what happens to every question
    that misses the first two tiers when the full-text index does not
    exist. *)
Theorem resolve_crop_unguarded_tiers {F} `{PyFloat F} (W : World F) (q : string) :
  run_fails W cy_exact (VStr (_normalize_bn W q)) = false ->
  exact_rows W (_normalize_bn W q) = [] ->
  run_fails W cy_alias (VStr (_normalize_bn W q)) = true
  \/ alias_rows W (_normalize_bn W q) = [] ->
  (run_fails W cy_ft (VStr (_normalize_bn W q)) = true ->
     resolve_crop W q
     = ([EvCypher cy_exact (VStr (_normalize_bn W q));
         EvCypher cy_alias (VStr (_normalize_bn W q));
         EvCypher cy_ft (VStr (_normalize_bn W q))], Raise StoreError))
  /\ (run_fails W cy_ft (VStr (_normalize_bn W q)) = false ->
      ft_rows W (_normalize_bn W q) = [] ->
      run_fails W cy_contains (VStr (_normalize_bn W q)) = true ->
      resolve_crop W q
      = ([EvCypher cy_exact (VStr (_normalize_bn W q));
          EvCypher cy_alias (VStr (_normalize_bn W q));
          EvCypher cy_ft (VStr (_normalize_bn W q));
          EvCypher cy_contains (VStr (_normalize_bn W q))], Raise StoreError)).
Proof.
  intros Hexact Hnone Halias.
  assert (alias_tier W (_normalize_bn W q)
          = ([EvCypher cy_alias (VStr (_normalize_bn W q))], Ok None)) as Ha.
  { rewrite alias_tier_value. destruct Halias as [-> | Hrows]; [reflexivity|].
    rewrite Hrows. destruct (run_fails W cy_alias _); reflexivity. }
  unfold resolve_crop. rewrite (run_ok W _ _ Hexact). cbn [eval_cypher text_query].
  rewrite Hnone, bind_Ok, Ha, bind_Ok. cbn [fst snd]. split.
  - intros Hft. rewrite (run_fails_raise W _ _ Hft), bind_Raise. reflexivity.
  - intros Hft Hrows Hco. rewrite (run_ok W _ _ Hft). cbn [eval_cypher text_query].
    rewrite Hrows, bind_Ok, (run_fails_raise W _ _ Hco), bind_Raise. reflexivity.
Qed.

(** ** Runs on the sample worlds *)

(** The binary64 run of the scenario. *)
Lemma mmr_rerank_selects_distinct_candidates_witness :
  exists idx,
    NoDup idx
    /\ selection [Scenario.c1_f64; Scenario.c2_f64; Scenario.c3_f64] idx
                 [Scenario.c1_f64; Scenario.c2_f64]
    /\ Forall (fun i => i < 3) idx
    /\ 2 <= 3
    /\ (2 <= Z.max 1 2)%Z.
Proof.
  apply (mmr_rerank_selects_distinct_candidates []
           [Scenario.c1_f64; Scenario.c2_f64; Scenario.c3_f64] f_default_lambda 2
           [Scenario.c1_f64; Scenario.c2_f64]).
  vm_compute. reflexivity.
Defined.

Lemma mmr_rerank_first_is_most_similar_witness :
  exists i0 h0 s0 rest,
    [Scenario.c1; Scenario.c2] = h0 :: rest
    /\ [Scenario.c1; Scenario.c2; Scenario.c3] !! i0 = Some h0 /\ cosine_sim h0 = Ok s0
    /\ forall j h, [Scenario.c1; Scenario.c2; Scenario.c3] !! j = Some h ->
         exists s, cosine_sim h = Ok s /\ (s <= s0)%Q /\ (j < i0 -> (s < s0)%Q).
Proof.
  apply (mmr_rerank_first_is_most_similar [] [Scenario.c1; Scenario.c2; Scenario.c3]
           (7 # 10)%Q 2 [Scenario.c1; Scenario.c2]).
  - vm_compute. reflexivity.
  - vm_compute. reflexivity.
Defined.

(** A binary64 run in which rounding decides: the computed scores of the
    second and the third candidate are equal, so the second pass picks the
    second candidate, where the exact scores would rank the third first. *)
Lemma mmr_rerank_later_picks_are_greedy_witness :
  (exists toks,
      rmapM token_set [Sample.near_s; Sample.near_a; Sample.near_b] = Ok toks
      /\ pass_pick f_default_lambda toks [Sample.near_s; Sample.near_a; Sample.near_b] [0] 1)
  /\ mmr_rerank [] [Sample.near_s; Sample.near_a; Sample.near_b] f_default_lambda 2
     = Ok [Sample.near_s; Sample.near_a]
  /\ mmr_rerank [] [Sample.exact_s; Sample.exact_a; Sample.exact_b] Sample.exact_lambda 2
     = Ok [Sample.exact_s; Sample.exact_b].
Proof.
  split; [|split; vm_compute; reflexivity].
  destruct (mmr_rerank_later_picks_are_greedy []
              [Sample.near_s; Sample.near_a; Sample.near_b] f_default_lambda 2
              [Sample.near_s; Sample.near_a])
    as (toks & idx & Htoks & Hsel & Hpick).
  - vm_compute. reflexivity.
  - repeat constructor; eexists; (split; [reflexivity|reflexivity]).
  - vm_compute. reflexivity.
  - exists toks. split; [exact Htoks|].
    apply Forall2_cons_inv_r in Hsel as (i0 & idx1 & H0 & Hsel & ->).
    apply Forall2_cons_inv_r in Hsel as (i1 & idx2 & H1 & Hsel & ->).
    apply Forall2_nil_inv_r in Hsel as ->.
    assert (i0 = 0) as ->.
    { destruct i0 as [|[|[|i0] ] ]; [reflexivity| | |discriminate H0];
        apply (f_equal (fun o : option (row float) => h ← o; h !! "text")) in H0;
        vm_compute in H0; discriminate H0. }
    assert (i1 = 1) as ->.
    { destruct i1 as [|[|[|i1] ] ]; [|reflexivity| |discriminate H1];
        apply (f_equal (fun o : option (row float) => h ← o; h !! "text")) in H1;
        vm_compute in H1; discriminate H1. }
    apply (Hpick 0 1 eq_refl).
    assert (toks = match rmapM token_set [Sample.near_s; Sample.near_a; Sample.near_b] with
                   | inr t => t
                   | inl _ => []
                   end) as -> by (rewrite Htoks; reflexivity).
    vm_compute. repeat constructor.
Defined.

(** With the weight 1 and three candidates of which the third is the most
    similar, the result is in descending order of similarity. *)
Lemma mmr_rerank_weight_1_orders_by_similarity_witness :
  exists idx sims,
    NoDup idx
    /\ selection [Scenario.c3; Scenario.c2; Scenario.c1] idx [Scenario.c1; Scenario.c2]
    /\ rmapM cosine_sim [Scenario.c1; Scenario.c2] = Ok sims
    /\ (forall n x y, sims !! n = Some x -> sims !! S n = Some y -> (y <= x)%Q)
    /\ (forall j h s x, [Scenario.c3; Scenario.c2; Scenario.c1] !! j = Some h -> j ∉ idx ->
          cosine_sim h = Ok s -> x ∈ sims -> (s <= x)%Q).
Proof.
  apply (mmr_rerank_weight_1_orders_by_similarity []
           [Scenario.c3; Scenario.c2; Scenario.c1] 1%Q 2 [Scenario.c1; Scenario.c2]).
  - reflexivity.
  - vm_compute. reflexivity.
  - vm_compute. reflexivity.
Defined.

(** Three candidates for [top_k = 1], the second of which has no text. *)
Lemma mmr_rerank_malformed_candidate_witness :
  mmr_rerank [] [Scenario.c1; Sample.textless; Scenario.c3] (7 # 10)%Q 1 = Raise KeyError.
Proof.
  destruct (mmr_rerank_malformed_candidate [] [Scenario.c1] [Scenario.c3] Sample.textless
              (7 # 10)%Q 1) as [Htext _].
  - vm_compute. reflexivity.
  - destruct Htext as [Hmissing _].
    + repeat constructor. exists "a b c". vm_compute. reflexivity.
    + apply Hmissing. vm_compute. reflexivity.
Defined.

(** A search over the stocked store, for two passages out of three. *)
Lemma search_returns_fetched_rows_witness :
  exists qvec raw idx,
    encode Sample.stocked ("query: " ++ "wheat rust") = Ok qvec
    /\ snd (fetch_knn Sample.stocked qvec 32 VNone (VStr "bn")) = Ok raw
    /\ NoDup idx
    /\ selection raw idx (take 2 Sample.shelf)
    /\ (raw = [] \/ HAS_DB Sample.stocked = true /\ connect_fails Sample.stocked = false
                    /\ execute Sample.stocked qvec 32 (sql_filter VNone)
                               (sql_filter (VStr "bn")) = Ok raw).
Proof.
  apply (search_returns_fetched_rows Sample.stocked "wheat rust" 2 32 VNone (VStr "bn") true
           (7 # 10)%Q
           (fst (search Sample.stocked "wheat rust" 2 32 VNone (VStr "bn") true (7 # 10)%Q))).
  vm_compute. reflexivity.
Defined.

(** The question "Aman" in the first sample world. *)
Lemma answer_from_graph_witness :
  answer Scenario.up "Aman" 5
  = ((fst (resolve_crop Scenario.up "Aman")
        ++ fst (graph_answer_for_crop Scenario.up "Aman"))%list,
     Ok (_as_bullets (default [] (bullets_bn Scenario.aman_answer))))
  /\ Forall (fun ev => is_cypher ev = true)
            (fst (resolve_crop Scenario.up "Aman")
               ++ fst (graph_answer_for_crop Scenario.up "Aman"))%list
  /\ fst (resolve_crop Scenario.up "Aman")
     `prefix_of` fst (graph_answer_for_crop Scenario.up "Aman").
Proof.
  apply (answer_from_graph Scenario.up "Aman" 5
           (Some (crop_row Scenario.aman)) Scenario.aman_answer).
  - vm_compute. reflexivity.
  - vm_compute. reflexivity.
  - vm_compute. reflexivity.
  - vm_compute. reflexivity.
Defined.

(** A question that names no crop, with the stocked store and the failing
    generator: the answer is the marker and the message. *)
Lemma answer_from_passages_witness :
  exists log,
    answer Sample.stocked "xyz" 5
    = ((log ++ [EvGenerate (VEC_SYS Sample.stocked ++ newline ++ newline
                              ++ _format_vector_context Sample.stocked "xyz"
                                   (passage <$> Sample.shelf))])%list,
       Ok "[generator error] out of memory")
    /\ Forall (fun ev => is_generate ev = false) log.
Proof.
  apply (answer_from_passages Sample.stocked "xyz" 5 None
           (fst (resolve_crop Sample.stocked "xyz"))
           (fst (search Sample.stocked "xyz" 5 40 VNone (VStr "bn") true (7 # 10)%Q))
           (Sample.chunk "c1" "a b c" (9 # 10)%Q)
           [Sample.chunk "c2" "a b d" (85 # 100)%Q; Sample.chunk "c3" "x y z" (5 # 10)%Q]).
  - vm_compute. reflexivity.
  - left. reflexivity.
  - vm_compute. reflexivity.
Defined.

(** The answer for "wheat" in the second sample world: four bullets. *)
Lemma graph_answer_bullets_anatomy_witness :
  exists bullets b1 b2 b3 b4 b5,
    bullets_bn Sample.wheat_answer = Some bullets
    /\ bullets = (b1 ++ b2 ++ b3 ++ b4 ++ b5)%list
    /\ (length b1 <= 1 /\ Forall (opens_with season_label) b1)
    /\ (length b2 <= 1 /\ Forall (opens_with temperature_label) b2)
    /\ (length b3 <= 1 /\ Forall (opens_with humidity_label) b3)
    /\ (length b4 <= 1 /\ Forall (opens_with disease_label) b4)
    /\ (length b5 <= 1 /\ Forall (opens_with location_label) b5)
    /\ length bullets <= 5.
Proof.
  apply (graph_answer_bullets_anatomy Sample.stocked "wheat"
           (fst (graph_answer_for_crop Sample.stocked "wheat")) Sample.wheat_answer).
  - vm_compute. reflexivity.
  - vm_compute. reflexivity.
Defined.

(** Wheat has an upper humidity bound of 70 and no lower one. *)
Lemma humidity_bullet_presence_witness :
  exists bullets,
    bullets_bn Sample.wheat_answer = Some bullets
    /\ "আপেক্ষিক আর্দ্রতা: —%–৭০%" ∈ bullets.
Proof.
  destruct (humidity_bullet_presence Sample.stocked "wheat"
              (fst (graph_answer_for_crop Sample.stocked "wheat")) Sample.wheat_answer)
    as (bullets & Hb & _ & Hrow).
  - vm_compute. reflexivity.
  - vm_compute. reflexivity.
  - exists bullets. split; [exact Hb|].
    apply (Hrow Sample.wheat). vm_compute. reflexivity.
Defined.

(** Wheat has no English name: the empty question resolves to it. *)
Lemma resolve_crop_empty_question_witness :
  exists c', c' ∈ crops (graph Sample.stocked) /\ exact_match Sample.stocked "" c' = true
    /\ resolve_crop Sample.stocked ""
       = ([EvCypher cy_exact (VStr "")], Ok (Some (crop_row c'))).
Proof.
  apply (resolve_crop_empty_question Sample.stocked "" Sample.wheat).
  - reflexivity.
  - reflexivity.
  - apply list_elem_of_here.
  - right. right. reflexivity.
Defined.

(** A question that names no crop, without the driver modules. *)
Lemma answer_without_vector_store_witness :
  exists graph_log,
    answer Sample.offline "xyz" 5
    = ((graph_log ++ [EvEncode "query: xyz"])%list, Ok apology)
    /\ Forall (fun ev => is_cypher ev = true) graph_log.
Proof.
  apply (answer_without_vector_store Sample.offline "xyz" 5 None
           (fst (resolve_crop Sample.offline "xyz")) []).
  - vm_compute. reflexivity.
  - left. reflexivity.
  - reflexivity.
  - left. reflexivity.
Defined.

(** The graph answer for "Aman" is shown with the vector badge. *)
Lemma ask_badge_is_always_vector_witness :
  answer_badge Scenario.up (Some "GraphRAG or VectorRAG") = VectorBadge
  /\ fst (ask Scenario.up "Aman") = fst (answer Scenario.up "Aman" 5).
Proof.
  destruct (ask_badge_is_always_vector Scenario.up "Aman" (fst (ask Scenario.up "Aman"))
              {| resp_answer := _as_bullets (default [] (bullets_bn Scenario.aman_answer));
                 resp_mode := "GraphRAG or VectorRAG";
                 resp_sources := ["neo4j"; "pgvector"] |})
    as (_ & _ & _ & Hbadge).
  - vm_compute. reflexivity.
  - vm_compute. reflexivity.
  - split; [exact Hbadge|]. vm_compute. reflexivity.
Defined.

(** The seasons and diseases of wheat, under the order of [String.leb]. *)
Lemma seasons_and_diseases_in_name_order_witness :
  (exists sorted,
     sorted ≡ₚ snd <$> List.filter (fun e => id_match (VStr "wheat") (fst e))
                                   (suitable_in (graph Sample.stocked))
     /\ StronglySorted (by_season_name Sample.stocked) sorted
     /\ season_rows Sample.stocked (VStr "wheat") = season_row <$> sorted
     /\ forall i j x y, i < j -> sorted !! i = Some x -> sorted !! j = Some y ->
          match s_name_bn x, s_name_bn y with
          | Some a, Some b => collate_le (graph Sample.stocked) a b = true
          | None, Some _ => False
          | _, None => True
          end)
  /\ (exists sorted,
        sorted ≡ₚ snd <$> List.filter (fun e => id_match (VStr "wheat") (fst e))
                                      (suffer_from (graph Sample.stocked))
        /\ StronglySorted (by_disease_name Sample.stocked) sorted
        /\ disease_rows Sample.stocked (VStr "wheat") = disease_row <$> sorted
        /\ forall i j x y, i < j -> sorted !! i = Some x -> sorted !! j = Some y ->
             match d_name_bn x, d_name_bn y with
             | Some a, Some b => collate_le (graph Sample.stocked) a b = true
             | None, Some _ => False
             | _, None => True
             end).
Proof.
  apply (seasons_and_diseases_in_name_order Sample.stocked (VStr "wheat")).
  - intros x y. apply String.leb_total.
  - intros x y z. apply string_leb_trans.
Defined.

(** A question that names no crop, with the embedding model failing. *)
Lemma answer_propagates_search_failures_witness :
  exists graph_log,
    Forall (fun ev => is_cypher ev = true) graph_log
    /\ answer Sample.mute "xyz" 5
       = ((graph_log ++ [EvEncode "query: xyz"])%list, Raise ModelError).
Proof.
  destruct (answer_propagates_search_failures Sample.mute "xyz" 5 None
              (fst (resolve_crop Sample.mute "xyz")))
    as (graph_log & Hcy & _ & Hencode & _).
  - vm_compute. reflexivity.
  - left. reflexivity.
  - exists graph_log. split; [exact Hcy|]. apply (Hencode ModelError). reflexivity.
Defined.

(** The stocked world is healthy: its three chunks have similarities in
    [-1, 1]. *)
Lemma answer_total_when_healthy_witness :
  exists log text, answer Sample.stocked "xyz" 5 = (log, Ok text).
Proof.
  apply (answer_total_when_healthy Sample.stocked 1%Q "xyz" 5).
  - reflexivity.
  - intros c p. reflexivity.
  - intros text. exists []. reflexivity.
  - intros qvec fetch_k source language. exists Sample.shelf.
    split; [reflexivity|vm_compute; reflexivity].
  - reflexivity.
  - lia.
Defined.

(** Without the full-text index, a question that misses the exact and the
    alias tier ends the resolution with the store's exception. *)
Lemma resolve_crop_unguarded_tiers_witness :
  resolve_crop Sample.no_index "xyz"
  = ([EvCypher cy_exact (VStr "xyz"); EvCypher cy_alias (VStr "xyz");
      EvCypher cy_ft (VStr "xyz")], Raise StoreError).
Proof.
  destruct (resolve_crop_unguarded_tiers Sample.no_index "xyz") as [Hft _].
  - reflexivity.
  - vm_compute. reflexivity.
  - right. vm_compute. reflexivity.
  - apply Hft. reflexivity.
Defined.

(** The prompt block for the three chunks of the stocked world. *)
Lemma passages_block_witness :
  exists lines,
    _format_vector_context Sample.stocked "xyz" (passage <$> Sample.shelf)
    = VEC_USER_format Sample.stocked "xyz" (Str.join (newline ++ newline) lines)
    /\ length lines = 3
    /\ lines !! 2 = Some (passage_line Sample.stocked 3 (Sample.chunk "c3" "x y z" (5 # 10)%Q)).
Proof.
  destruct (passages_block Sample.stocked "xyz") as (_ & Hblock & _).
  destruct (Hblock (Sample.chunk "c1" "a b c" (9 # 10)%Q)
              [Sample.chunk "c2" "a b d" (85 # 100)%Q; Sample.chunk "c3" "x y z" (5 # 10)%Q])
    as (lines & Hfmt & Hlen & Hline).
  exists lines. split; [exact Hfmt|]. split; [exact Hlen|].
  apply (Hline 2). reflexivity.
Defined.
